(** * Track Up map orientation: heading estimator and rotation applier

  A shallow embedding of the two browser scripts of the repository,
  [js/track_up_mode.js] (module [TrackUpMode]) and
  [js/simple_track_up.js] (module [SimpleTrackUp]), over a small model
  of the JavaScript values and of the DOM they touch (modules [JS] and
  [DOM]).

  Numbers.  A finite JavaScript number is idealised as a real number:
  arithmetic is exact, and [NaN] is kept as a separate value where the
  scripts test for it.  Infinities and the sign of zero are not
  modelled.  A number is printed in decimal digits, as JavaScript
  prints one below 10^21; the exponent notation of larger numbers is
  not modelled, and what is stated of a printed number is stated below
  that bound.

  Page.  An element carries its inline style, one declaration per
  property name the scripts assign, and its text.  The longhand
  properties that an assignment to a shorthand ([background],
  [overflow], [transition]) sets along with it are not modelled, and
  nothing is stated of them.  The text is that of an element that
  holds text only, as a status line does: the removal of child
  elements that an assignment to [textContent] brings is not modelled,
  and what depends on it is stated for a status element without child
  elements.

  Events.  Each script is a set of callbacks over its module variables
  and the page; a run is a list of events, each handled by one
  callback.  The start-up of [js/track_up_mode.js], its interface
  [window.TrackUpMode] and its clean-up are in module
  [TrackUpLifecycle], over the callbacks of [TrackUpMode]; the third
  script of the repository, the direct location system, which neither
  reads nor writes a heading or a transform, is in module [DirectGPS].
  Outside the model are the logging and the start-up of
  [js/simple_track_up.js], which waits for the map and the controls
  before it registers the listener of the toggle. *)

From Stdlib Require Import Reals Lra ZArith String List Bool.
From stdpp Require Import base list gmap strings pretty.
Import ListNotations.
Open Scope R_scope.
Open Scope string_scope.

(* ===================================================================== *)
(** ** JavaScript numbers and [Math]                                      *)
(* ===================================================================== *)

Module JS.

(** A value of type number: [NaN] or a finite number. *)
Inductive Number : Type :=
| NaN
| Num (x : R).

(** [x > y] on finite numbers. *)
Definition gtb (x y : R) : bool :=
  if Rlt_dec y x then true else false.

(** [x === y] on finite numbers. *)
Definition eqb (x y : R) : bool :=
  if Req_dec_T x y then true else false.

(** [v > y] where [v] may be [NaN]: every comparison with [NaN] is false. *)
Definition Number_gtb (v : Number) (y : R) : bool :=
  match v with
  | NaN => false
  | Num x => gtb x y
  end.

(** Truthiness of a nullable number ([null], [0] and [NaN] are falsy). *)
Definition truthy (v : option Number) : bool :=
  match v with
  | None => false
  | Some NaN => false
  | Some (Num x) => negb (eqb x 0)
  end.

(** [speed > t] for a nullable number: [null] compares as [0], and the
    thresholds of the scripts are positive. *)
Definition above (speed : option Number) (t : R) : bool :=
  match speed with
  | None => gtb 0 t
  | Some v => Number_gtb v t
  end.

(** [speed === null || speed > t] for a nullable number. *)
Definition nullOrAbove (speed : option Number) (t : R) : bool :=
  match speed with
  | None => true
  | Some _ => above speed t
  end.

(** Rounding towards zero, as the remainder operator uses it. *)
Definition trunc (x : R) : R :=
  if Rle_dec 0 x then IZR (Int_part x) else - IZR (Int_part (- x)).

(** [x % y] on finite numbers, [y] non-zero: the result has the sign of
    the dividend. *)
Definition rem (x y : R) : R := x - y * trunc (x / y).

Definition Math_abs (x : R) : R := Rabs x.
Definition Math_PI : R := PI.
Definition Math_sin (x : R) : R := sin x.
Definition Math_cos (x : R) : R := cos x.

(** [Math.atan2(y, x)]: the angle of the point [(x, y)], in (-PI, PI]. *)
Definition Math_atan2 (y x : R) : R :=
  if Rlt_dec 0 x then atan (y / x)
  else if Rlt_dec x 0 then
    (if Rle_dec 0 y then atan (y / x) + PI else atan (y / x) - PI)
  else if Rlt_dec 0 y then PI / 2
  else if Rlt_dec y 0 then - (PI / 2)
  else 0.

(** [Math.round(x)]: the integer nearest to [x], ties towards +infinity. *)
Definition Math_round (x : R) : Z := Int_part (x + 1 / 2).

(** [x.toFixed(0)] for a magnitude below 10^21: the sign is printed
    apart, the magnitude is rounded to the nearest integer, ties to the
    larger one.  (From 10^21 on [toFixed] gives the exponent notation
    of the number.) *)
Definition toFixed0 (x : R) : string :=
  if Rlt_dec x 0 then "-" ++ pretty (Int_part (- x + 1 / 2))
  else pretty (Int_part (x + 1 / 2)).

(** The degree sign that the status texts end with (U+00B0 in UTF-8). *)
Definition degree_sign : string :=
  String (Ascii.ascii_of_nat 194) (String (Ascii.ascii_of_nat 176) EmptyString).

End JS.

(* ===================================================================== *)
(** ** The document: elements, inline styles, selectors                  *)
(* ===================================================================== *)

Module DOM.

(** The value assigned to an inline style property: a piece of text, or
    the template [rotate(<deg>deg) scale(<scale>)] with its two numbers. *)
Inductive CssValue : Type :=
| Css_text (s : string)
| Css_rotate_scale (deg scale : R).

(** [s.includes(needle)]. *)
Fixpoint includes (needle s : string) : bool :=
  String.prefix needle s ||
  match s with
  | EmptyString => false
  | String _ s' => includes needle s'
  end.

(** A value carrying [!important] does not parse as a property value. *)
Definition css_valid (v : CssValue) : bool :=
  match v with
  | Css_text s => negb (includes "!important" s)
  | Css_rotate_scale _ _ => true
  end.

(** [parentNode] of an element: the document itself, another element
    (by index), or nothing once the element was removed. *)
Inductive ParentNode : Type :=
| ParentDocument
| ParentElement (i : nat)
| NoParent.

Record Element : Type := {
  tagName : string;
  elementId : string;
  classList : list string;
  src : string;
  parentNode : ParentNode;
  style : gmap string CssValue;
  textContent : string
}.

(** Elements are named by their index; indices follow document order. *)
Abbreviation Document := (list Element).

Definition withStyle (e : Element) (s : gmap string CssValue) : Element :=
  {| tagName := tagName e; elementId := elementId e; classList := classList e;
     src := src e; parentNode := parentNode e; style := s;
     textContent := textContent e |}.

Definition withParent (e : Element) (p : ParentNode) : Element :=
  {| tagName := tagName e; elementId := elementId e; classList := classList e;
     src := src e; parentNode := p; style := style e;
     textContent := textContent e |}.

Definition withText (e : Element) (t : string) : Element :=
  {| tagName := tagName e; elementId := elementId e; classList := classList e;
     src := src e; parentNode := parentNode e; style := style e;
     textContent := t |}.

(** [e.style.prop = v].  The setter parses the value: one that does not
    parse leaves the declaration as it was, the empty string removes
    it.  Each property name the scripts use is a key of its own; the
    longhands of a shorthand have no keys. *)
Definition setProperty (prop : string) (v : CssValue) (e : Element) : Element :=
  if css_valid v then
    match v with
    | Css_text EmptyString => withStyle e (delete prop (style e))
    | _ => withStyle e (<[prop := v]> (style e))
    end
  else e.

Definition setStyle (i : nat) (prop : string) (v : CssValue) (d : Document)
  : Document :=
  alter (setProperty prop v) i d.

(** [e.textContent = t], for an element that holds text only. *)
Definition setTextContent (i : nat) (t : string) (d : Document) : Document :=
  alter (fun e => withText e t) i d.

(** [e.parentNode.removeChild(e)]. *)
Definition removeFromParent (i : nat) (d : Document) : Document :=
  alter (fun e => withParent e NoParent) i d.

Definition hasParentNode (d : Document) (i : nat) : bool :=
  match d !! i with
  | Some e => match parentNode e with NoParent => false | _ => true end
  | None => false
  end.

Definition parentElement (d : Document) (i : nat) : option nat :=
  match d !! i with
  | Some e => match parentNode e with ParentElement j => Some j | _ => None end
  | None => None
  end.

Definition styleOf (d : Document) (i : nat) (prop : string) : option CssValue :=
  match d !! i with
  | Some e => style e !! prop
  | None => None
  end.

Definition hasClass (e : Element) (c : string) : bool :=
  existsb (String.eqb c) (classList e).

(** A compound selector [tag.c1.c2:not(.n1):not(.n2)]. *)
Record Compound : Type := {
  sel_tag : option string;
  sel_classes : list string;
  sel_not : list string
}.

(** A complex selector: a compound, or [ancestor descendant]. *)
Inductive Selector : Type :=
| Sel (c : Compound)
| Descendant (anc c : Compound).

Definition cls (c : string) : Selector :=
  Sel {| sel_tag := None; sel_classes := [c]; sel_not := [] |}.

Definition matchesCompound (e : Element) (c : Compound) : bool :=
  match sel_tag c with
  | Some t => String.eqb t (tagName e)
  | None => true
  end
  && forallb (hasClass e) (sel_classes c)
  && forallb (fun n => negb (hasClass e n)) (sel_not c).

(** Some proper ancestor of [e] satisfies [P]; [fuel] bounds the climb. *)
Fixpoint hasAncestor (d : Document) (P : Element -> bool) (fuel : nat)
  (e : Element) : bool :=
  match fuel with
  | O => false
  | S f =>
      match parentNode e with
      | ParentElement j =>
          match d !! j with
          | Some p => P p || hasAncestor d P f p
          | None => false
          end
      | _ => false
      end
  end.

(** The element is in the document: its chain of parents ends there. *)
Fixpoint isConnected (d : Document) (fuel : nat) (e : Element) : bool :=
  match parentNode e with
  | ParentDocument => true
  | NoParent => false
  | ParentElement j =>
      match fuel with
      | O => false
      | S f =>
          match d !! j with
          | Some p => isConnected d f p
          | None => false
          end
      end
  end.

Definition matches (d : Document) (s : Selector) (e : Element) : bool :=
  match s with
  | Sel c => matchesCompound e c
  | Descendant a c =>
      matchesCompound e c
      && hasAncestor d (fun p => matchesCompound p a) (length d) e
  end.

Definition selected (d : Document) (sels : list Selector) (i : nat) : bool :=
  match d !! i with
  | Some e => isConnected d (length d) e && existsb (fun s => matches d s e) sels
  | None => false
  end.

(** [document.querySelectorAll(s1, s2, ...)]: a static list. *)
Definition querySelectorAll (d : Document) (sels : list Selector) : list nat :=
  List.filter (selected d sels) (seq 0 (length d)).

Definition querySelector (d : Document) (sels : list Selector) : option nat :=
  head (querySelectorAll d sels).

Definition hasId (d : Document) (name : string) (i : nat) : bool :=
  match d !! i with
  | Some e => isConnected d (length d) e && String.eqb (elementId e) name
  | None => false
  end.

Definition getElementById (d : Document) (name : string) : option nat :=
  head (List.filter (hasId d name) (seq 0 (length d))).

(** [nodes.forEach(body)]. *)
Definition forEach (nodes : list nat) (body : nat -> Document -> Document)
  (d : Document) : Document :=
  fold_left (fun d' i => body i d') nodes d.

(** [selectors.forEach(selector =>
      document.querySelectorAll(selector).forEach(body))]. *)
Definition forEachSelector (selectors : list Selector)
  (body : nat -> Document -> Document) (d : Document) : Document :=
  fold_left
    (fun d' selector => forEach (querySelectorAll d' [selector]) body d')
    selectors d.

Definition textOf (d : Document) (i : nat) : option string :=
  match d !! i with
  | Some e => Some (textContent e)
  | None => None
  end.

(** What selectors and [getElementById] see of an element: everything
    but its inline style and its text. *)
Definition shape (e : Element)
  : string * string * list string * string * ParentNode :=
  (tagName e, elementId e, classList e, src e, parentNode e).

Definition shapes (d : Document)
  : list (string * string * list string * string * ParentNode) :=
  shape <$> d.

(** What a [transform] declaration does to the orientation and size of
    its element: a rotation in degrees and a uniform scale factor.
    No declaration and [none] leave both alone. *)
Definition Transform : Type := (R * R)%type.

Definition identity : Transform := (0, 1).

Definition denote (v : option CssValue) : option Transform :=
  match v with
  | None => Some identity
  | Some (Css_rotate_scale a s) => Some (a, s)
  | Some (Css_text t) => if String.eqb t "none" then Some identity else None
  end.

(** The transform of an element inside a transformed ancestor: angles
    add and uniform scale factors multiply. *)
Definition compose (outer inner : Transform) : Transform :=
  (fst outer + fst inner, snd outer * snd inner).

End DOM.

(* ===================================================================== *)
(** ** Position samples of the location subsystem                         *)
(* ===================================================================== *)

Module Geolocation.

(** [position.coords]: [heading] and [speed] are [null] ([None]) or a
    number. *)
Record Coordinates : Type := {
  latitude : R;
  longitude : R;
  heading : option JS.Number;
  speed : option JS.Number
}.

Record Position : Type := { coords : Coordinates }.

End Geolocation.

(* ===================================================================== *)
(** ** js/track_up_mode.js                                                *)
(* ===================================================================== *)

Module TrackUpMode.
Import JS DOM Geolocation.

(** The object the position callback stores at its end. *)
Record StoredPosition : Type := {
  sp_latitude : R;
  sp_longitude : R;
  sp_timestamp : Z
}.

(** The script names [lastPosition] without declaring it, so the name
    is looked up in the global environment: it is unresolvable, or it
    is a binding some other script made, holding a stored position or
    a falsy value ([None]). *)
Inductive Reference : Type :=
| Unresolvable
| Bound (v : option StoredPosition).

(** The module variables the callbacks read and write, the global name
    [lastPosition], [window.leafletMap] (absent, or a map whose
    [getContainer()] gives an element or nothing) and the document.
    [headingUpdateInterval] records whether the one-second timer is
    set. *)
Record State : Type := {
  trackUpMode : bool;
  currentHeading : R;
  mapRotationEnabled : bool;
  lastValidHeading : R;
  headingUpdateInterval : bool;
  lastPosition : Reference;
  leafletMap : option (option nat);
  document : Document
}.

Definition setTrackUpMode (st : State) (b : bool) : State :=
  {| trackUpMode := b; currentHeading := currentHeading st;
     mapRotationEnabled := mapRotationEnabled st;
     lastValidHeading := lastValidHeading st;
     headingUpdateInterval := headingUpdateInterval st;
     lastPosition := lastPosition st; leafletMap := leafletMap st;
     document := document st |}.

Definition setCurrentHeading (st : State) (h : R) : State :=
  {| trackUpMode := trackUpMode st; currentHeading := h;
     mapRotationEnabled := mapRotationEnabled st;
     lastValidHeading := lastValidHeading st;
     headingUpdateInterval := headingUpdateInterval st;
     lastPosition := lastPosition st; leafletMap := leafletMap st;
     document := document st |}.

Definition setMapRotationEnabled (st : State) (b : bool) : State :=
  {| trackUpMode := trackUpMode st; currentHeading := currentHeading st;
     mapRotationEnabled := b;
     lastValidHeading := lastValidHeading st;
     headingUpdateInterval := headingUpdateInterval st;
     lastPosition := lastPosition st; leafletMap := leafletMap st;
     document := document st |}.

Definition setLastValidHeading (st : State) (h : R) : State :=
  {| trackUpMode := trackUpMode st; currentHeading := currentHeading st;
     mapRotationEnabled := mapRotationEnabled st;
     lastValidHeading := h;
     headingUpdateInterval := headingUpdateInterval st;
     lastPosition := lastPosition st; leafletMap := leafletMap st;
     document := document st |}.

Definition setHeadingUpdateInterval (st : State) (b : bool) : State :=
  {| trackUpMode := trackUpMode st; currentHeading := currentHeading st;
     mapRotationEnabled := mapRotationEnabled st;
     lastValidHeading := lastValidHeading st;
     headingUpdateInterval := b;
     lastPosition := lastPosition st; leafletMap := leafletMap st;
     document := document st |}.

Definition setLastPosition (st : State) (r : Reference) : State :=
  {| trackUpMode := trackUpMode st; currentHeading := currentHeading st;
     mapRotationEnabled := mapRotationEnabled st;
     lastValidHeading := lastValidHeading st;
     headingUpdateInterval := headingUpdateInterval st;
     lastPosition := r; leafletMap := leafletMap st;
     document := document st |}.

Definition setDocument (st : State) (d : Document) : State :=
  {| trackUpMode := trackUpMode st; currentHeading := currentHeading st;
     mapRotationEnabled := mapRotationEnabled st;
     lastValidHeading := lastValidHeading st;
     headingUpdateInterval := headingUpdateInterval st;
     lastPosition := lastPosition st; leafletMap := leafletMap st;
     document := d |}.

(** *** The rotation applier *)

(** [updateTrackUpStatus(status)]. *)
Definition updateTrackUpStatus (status : string) (st : State) : State :=
  match getElementById (document st) "track-up-status" with
  | Some statusElement =>
      let d1 := setTextContent statusElement status (document st) in
      let d2 :=
        if String.eqb status "Track Up Active" then
          setStyle statusElement "fontWeight" (Css_text "bold")
            (setStyle statusElement "color" (Css_text "#2196F3") d1)
        else if String.eqb status "GPS Error" then
          setStyle statusElement "fontWeight" (Css_text "normal")
            (setStyle statusElement "color" (Css_text "#f44336") d1)
        else
          setStyle statusElement "fontWeight" (Css_text "normal")
            (setStyle statusElement "color" (Css_text "#666") d1) in
      setDocument st d2
  | None => st
  end.

(** The selectors [updateMapRotation] counter-rotates. *)
Definition elementsToCounterRotate : list Selector :=
  [ cls "leaflet-control-zoom"; cls "leaflet-control-attribution";
    cls "custom-location-indicator"; cls "leaflet-marker-icon" ].

Definition scale : R := 1.1.

(** The body of the inner [forEach] of [updateMapRotation]. *)
Definition counterRotate (rotationAngle : R) (element : nat) (d : Document)
  : Document :=
  setStyle element "transition" (Css_text "transform 0.5s ease-out")
    (setStyle element "transformOrigin" (Css_text "center center")
       (setStyle element "transform"
          (Css_rotate_scale (- rotationAngle) (1 / scale)) d)).

(** [updateMapRotation()]. *)
Definition updateMapRotation (st : State) : State :=
  match leafletMap st with
  | None => st
  | Some getContainer =>
      if negb (trackUpMode st) then st
      else
        let rotationAngle := - currentHeading st in
        match getContainer with
        | None => st
        | Some mapContainer =>
            let d1 :=
              setStyle mapContainer "position" (Css_text "relative")
                (setStyle mapContainer "background" (Css_text "transparent")
                   (setStyle mapContainer "transition"
                      (Css_text "transform 0.5s ease-out")
                      (setStyle mapContainer "transformOrigin"
                         (Css_text "center center")
                         (setStyle mapContainer "transform"
                            (Css_rotate_scale rotationAngle scale)
                            (document st))))) in
            let d2 :=
              match parentElement d1 mapContainer with
              | Some mapParent =>
                  setStyle mapParent "position" (Css_text "relative")
                    (setStyle mapParent "overflow" (Css_text "hidden")
                       (setStyle mapParent "background"
                          (Css_text "transparent") d1))
              | None => d1
              end in
            let d3 :=
              forEachSelector elementsToCounterRotate
                (counterRotate rotationAngle) d2 in
            setDocument st d3
        end
  end.

(** The body of the first loop of [updateUIElementsRotation]. *)
Definition rotateUIElement (counterRotation counterScale : R) (element : nat)
  (d : Document) : Document :=
  setStyle element "transformOrigin" (Css_text "center center")
    (setStyle element "transform"
       (Css_rotate_scale counterRotation counterScale) d).

(** The body of its second loop, over the custom indicators. *)
Definition protectIndicator (indicator : nat) (d : Document) : Document :=
  let d1 :=
    setStyle indicator "transformOrigin" (Css_text "center center !important")
      (setStyle indicator "transform" (Css_text "none !important")
         (setStyle indicator "zIndex" (Css_text "1000 !important")
            (setStyle indicator "display" (Css_text "block !important")
               (setStyle indicator "opacity" (Css_text "1 !important")
                  (setStyle indicator "visibility"
                     (Css_text "visible !important") d))))) in
  match parentElement d1 indicator with
  | Some parent => setStyle parent "transform" (Css_text "none !important") d1
  | None => d1
  end.

(** The body of its third loop, over the marker containers. *)
Definition protectMarkerContainer (container : nat) (d : Document) : Document :=
  match parentElement d container with
  | Some parent => setStyle parent "transform" (Css_text "none !important") d
  | None => d
  end.

Definition markerContainerSelector : Selector :=
  Descendant
    {| sel_tag := None; sel_classes := ["leaflet-marker-pane"]; sel_not := [] |}
    {| sel_tag := None;
       sel_classes := ["leaflet-marker-icon"; "custom-location-indicator"];
       sel_not := [] |}.

(** [updateUIElementsRotation(counterRotation, counterScale)]. *)
Definition updateUIElementsRotation (counterRotation counterScale : R)
  (d : Document) : Document :=
  let d1 :=
    forEachSelector [cls "leaflet-control"; cls "leaflet-popup"]
      (rotateUIElement counterRotation counterScale) d in
  let d2 :=
    forEach
      (querySelectorAll d1
         [cls "custom-location-indicator"; cls "custom-user-location"])
      protectIndicator d1 in
  let d3 :=
    forEach (querySelectorAll d2 [markerContainerSelector])
      protectMarkerContainer d2 in
  let d4 :=
    match querySelector d3 [cls "track-up-container-compact"] with
    | Some trackUpContainer =>
        setStyle trackUpContainer "transform" (Css_text "none") d3
    | None => d3
    end in
  match querySelector d4 [cls "controls-compact"] with
  | Some controlsContainer =>
      setStyle controlsContainer "transform" (Css_text "none") d4
  | None => d4
  end.

(** [resetMapRotation()]. *)
Definition resetMapRotation (st : State) : State :=
  match leafletMap st with
  | Some (Some mapContainer) =>
      let d1 := setStyle mapContainer "transform" (Css_text "none") (document st) in
      let d2 :=
        match parentElement d1 mapContainer with
        | Some mapParent =>
            setStyle mapParent "backgroundColor" (Css_text "")
              (setStyle mapParent "zIndex" (Css_text "")
                 (setStyle mapParent "position" (Css_text "")
                    (setStyle mapParent "overflow" (Css_text "") d1)))
        | None => d1
        end in
      setDocument st (updateUIElementsRotation 0 1 d2)
  | _ => st
  end.

(** *** Marker clean-up *)

Definition isCustomMarker (d : Document) (i : nat) : bool :=
  match d !! i with
  | Some e =>
      hasClass e "custom-location-indicator" || hasClass e "custom-user-location"
  | None => false
  end.

Definition removeIfAttached (marker : nat) (d : Document) : Document :=
  if hasParentNode d marker then removeFromParent marker d else d.

Definition srcOf (d : Document) (i : nat) : string :=
  match d !! i with
  | Some e => src e
  | None => ""
  end.

Definition removeImageMarker (marker : nat) (d : Document) : Document :=
  let s := srcOf d marker in
  if includes "marker-icon" s || includes "yellow" s
     || includes "arrow" s || includes "location" s
  then removeIfAttached marker d
  else d.

Definition hideMarker (marker : nat) (d : Document) : Document :=
  if negb (isCustomMarker d marker) then
    setStyle marker "opacity" (Css_text "0")
      (setStyle marker "visibility" (Css_text "hidden")
         (setStyle marker "display" (Css_text "none") d))
  else d.

(** [removeDefaultLocationMarkers()]; tag names are in lower case. *)
Definition removeDefaultLocationMarkers (d : Document) : Document :=
  let d1 :=
    forEach
      (querySelectorAll d
         [Sel {| sel_tag := None; sel_classes := ["leaflet-marker-icon"];
                 sel_not := ["custom-location-indicator";
                             "custom-user-location"] |}])
      removeIfAttached d in
  let d2 :=
    forEach
      (querySelectorAll d1
         [Sel {| sel_tag := Some "img"; sel_classes := ["leaflet-marker-icon"];
                 sel_not := [] |}])
      removeImageMarker d1 in
  let d3 :=
    forEach (querySelectorAll d2 [cls "leaflet-marker-shadow"])
      removeIfAttached d2 in
  forEach (querySelectorAll d3 [cls "leaflet-marker-icon"]) hideMarker d3.

(** *** Mode changes *)

(** [updateTrackUpMode()]. *)
Definition updateTrackUpMode (st : State) : State :=
  if trackUpMode st then
    let st1 := setMapRotationEnabled (updateTrackUpStatus "Track Up Active" st) true in
    let st2 := setDocument st1 (removeDefaultLocationMarkers (document st1)) in
    let st3 :=
      if negb (headingUpdateInterval st2)
      then setHeadingUpdateInterval st2 true
      else st2 in
    updateMapRotation st3
  else
    let st1 := setMapRotationEnabled (updateTrackUpStatus "North Up" st) false in
    let st2 :=
      if headingUpdateInterval st1
      then setHeadingUpdateInterval st1 false
      else st1 in
    resetMapRotation st2.

(** The [change] listener of the toggle: [trackUpMode = this.checked]. *)
Definition onToggleChange (checked : bool) (st : State) : State :=
  updateTrackUpMode (setTrackUpMode st checked).

(** The callback of the one-second timer. *)
Definition onInterval (st : State) : State :=
  if trackUpMode st then
    let st1 := updateMapRotation st in
    setDocument st1 (removeDefaultLocationMarkers (document st1))
  else st.

(** *** The heading estimator *)

(** A callback runs to its end or is cut short by an exception; in both
    cases the assignments made so far stay.  The only exception the
    callbacks can raise is the [ReferenceError] of an unresolvable
    name: on reading it ([GetValue]) or, the script being strict, on
    assigning to it ([PutValue]). *)
Inductive RefOp : Type := GetValue | PutValue.

Inductive Error : Type :=
| ReferenceError (name : string) (op : RefOp).

Inductive Completion (A : Type) : Type :=
| Normal (a : A) (st : State)
| Throw (e : Error) (st : State).
Arguments Normal {A} a st.
Arguments Throw {A} e st.

Definition M (A : Type) : Type := State -> Completion A.

Definition ret {A : Type} (a : A) : M A := fun st => Normal a st.

Definition bind {A B : Type} (m : M A) (k : A -> M B) : M B :=
  fun st =>
    match m st with
    | Normal a st' => k a st'
    | Throw e st' => Throw e st'
    end.

Definition get : M State := fun st => Normal st st.

Definition modify (f : State -> State) : M unit := fun st => Normal tt (f st).

Notation "x <- m ;; k" := (bind m (fun x => k))
  (at level 100, m at next level, right associativity).
Notation "m ;;; k" := (bind m (fun _ => k))
  (at level 100, right associativity).

Definition stateOf {A : Type} (c : Completion A) : State :=
  match c with
  | Normal _ st => st
  | Throw _ st => st
  end.

(** Reading the name [lastPosition]. *)
Definition readLastPosition : M (option StoredPosition) :=
  fun st =>
    match lastPosition st with
    | Unresolvable => Throw (ReferenceError "lastPosition" GetValue) st
    | Bound v => Normal v st
    end.

(** Assigning to the name [lastPosition] in strict code. *)
Definition assignLastPosition (v : StoredPosition) : M unit :=
  fun st =>
    match lastPosition st with
    | Unresolvable => Throw (ReferenceError "lastPosition" PutValue) st
    | Bound _ => Normal tt (setLastPosition st (Bound (Some v)))
    end.

(** The bearing of Method 2, from the stored position to the sample. *)
Definition bearing (last : StoredPosition) (c : Coordinates) : R :=
  let deltaLng := longitude c - sp_longitude last in
  Math_atan2
    (Math_sin (deltaLng * Math_PI / 180) * Math_cos (latitude c * Math_PI / 180))
    (Math_cos (sp_latitude last * Math_PI / 180)
       * Math_sin (latitude c * Math_PI / 180)
     - Math_sin (sp_latitude last * Math_PI / 180)
       * Math_cos (latitude c * Math_PI / 180)
       * Math_cos (deltaLng * Math_PI / 180))
  * 180 / Math_PI.

(** Methods 1 to 3 of the position callback: the value of the local
    [newHeading] when the jitter test is reached.  [lastValidHeading]
    only ever holds a number, so the test [lastValidHeading !== null]
    of Method 3 always passes. *)
Definition selectHeading (position : Position) : M R :=
  st <- get ;;
  let newHeading := currentHeading st in
  let c := coords position in
  match heading c with
  | Some (Num h) =>
      if nullOrAbove (speed c) 0.3 then
        modify (fun s => setLastValidHeading s h) ;;; ret h
      else ret newHeading
  | _ =>
      last <- readLastPosition ;;
      match last with
      | Some lp =>
          if nullOrAbove (speed c) 0.5 then
            let deltaLat := latitude c - sp_latitude lp in
            let deltaLng := longitude c - sp_longitude lp in
            if gtb (Math_abs deltaLat) 0.00001 || gtb (Math_abs deltaLng) 0.00001
            then
              let h := rem (bearing lp c + 360) 360 in
              modify (fun s => setLastValidHeading s h) ;;; ret h
            else ret newHeading
          else
            s <- get ;; ret (lastValidHeading s)
      | None =>
          s <- get ;; ret (lastValidHeading s)
      end
  end.

(** The jitter test and what follows it when it passes. *)
Definition commitHeading (newHeading : R) (st : State) : State :=
  if gtb (Math_abs (newHeading - currentHeading st)) 3 then
    let st1 := setCurrentHeading st newHeading in
    if trackUpMode st1 then
      updateTrackUpStatus
        ("Heading: " ++ toFixed0 (currentHeading st1) ++ degree_sign)
        (updateMapRotation st1)
    else st1
  else st.

(** The success callback of [watchPosition]; [now] is [Date.now()]. *)
Definition positionCallback (position : Position) (now : Z) : M unit :=
  newHeading <- selectHeading position ;;
  modify (commitHeading newHeading) ;;;
  assignLastPosition
    {| sp_latitude := latitude (coords position);
       sp_longitude := longitude (coords position);
       sp_timestamp := now |}.

(** The error callback of [watchPosition]. *)
Definition errorCallback (st : State) : State :=
  updateTrackUpStatus "GPS Error" st.

(** The [deviceorientation] listener; [alpha] is [event.alpha]. *)
Definition onDeviceOrientation (alpha : option R) (st : State) : State :=
  match alpha with
  | Some a =>
      if trackUpMode st && eqb (currentHeading st) 0 then
        let compassHeading := rem (360 - a) 360 in
        updateMapRotation (setCurrentHeading st compassHeading)
      else st
  | None => st
  end.

(** *** Runs *)

Inductive Event : Type :=
| PositionUpdate (position : Position) (now : Z)
| PositionError
| DeviceOrientation (alpha : option R)
| ToggleChange (checked : bool)
| IntervalTick.

(** One event.  An exception that escapes the position callback ends
    that callback only.  A timer that is not set does not fire. *)
Definition step (st : State) (ev : Event) : State :=
  match ev with
  | PositionUpdate position now => stateOf (positionCallback position now st)
  | PositionError => errorCallback st
  | DeviceOrientation alpha => onDeviceOrientation alpha st
  | ToggleChange checked => onToggleChange checked st
  | IntervalTick => if headingUpdateInterval st then onInterval st else st
  end.

Definition run (evs : list Event) (st : State) : State :=
  fold_left step evs st.

(** The committed heading after each event of a run. *)
Fixpoint committed (evs : list Event) (st : State) : list R :=
  match evs with
  | [] => []
  | ev :: evs' =>
      let st' := step st ev in
      currentHeading st' :: committed evs' st'
  end.

(** The state when the script has loaded, over a given page. *)
Definition init (map : option (option nat)) (d : Document) : State :=
  {| trackUpMode := false; currentHeading := 0; mapRotationEnabled := false;
     lastValidHeading := 0; headingUpdateInterval := false;
     lastPosition := Unresolvable; leafletMap := map; document := d |}.

End TrackUpMode.

(* ===================================================================== *)
(** ** js/simple_track_up.js                                              *)
(* ===================================================================== *)

Module SimpleTrackUp.
Import JS DOM Geolocation.

Record KnownPosition : Type := {
  kp_latitude : R;
  kp_longitude : R
}.

(** The module variables, and of the page: whether
    [navigator.geolocation] exists, the position watches that are
    registered and the id the next one gets, [window.leafletMap] and
    the document. *)
Record State : Type := {
  trackUpEnabled : bool;
  currentHeading : R;
  headingWatchId : option nat;
  lastKnownPosition : option KnownPosition;
  geolocation : bool;
  watches : list nat;
  nextWatchId : nat;
  leafletMap : option (option nat);
  document : Document
}.

Definition setTrackUpEnabled (st : State) (b : bool) : State :=
  {| trackUpEnabled := b; currentHeading := currentHeading st;
     headingWatchId := headingWatchId st;
     lastKnownPosition := lastKnownPosition st;
     geolocation := geolocation st; watches := watches st;
     nextWatchId := nextWatchId st; leafletMap := leafletMap st;
     document := document st |}.

Definition setCurrentHeading (st : State) (h : R) : State :=
  {| trackUpEnabled := trackUpEnabled st; currentHeading := h;
     headingWatchId := headingWatchId st;
     lastKnownPosition := lastKnownPosition st;
     geolocation := geolocation st; watches := watches st;
     nextWatchId := nextWatchId st; leafletMap := leafletMap st;
     document := document st |}.

Definition setLastKnownPosition (st : State) (p : option KnownPosition) : State :=
  {| trackUpEnabled := trackUpEnabled st; currentHeading := currentHeading st;
     headingWatchId := headingWatchId st;
     lastKnownPosition := p;
     geolocation := geolocation st; watches := watches st;
     nextWatchId := nextWatchId st; leafletMap := leafletMap st;
     document := document st |}.

Definition setDocument (st : State) (d : Document) : State :=
  {| trackUpEnabled := trackUpEnabled st; currentHeading := currentHeading st;
     headingWatchId := headingWatchId st;
     lastKnownPosition := lastKnownPosition st;
     geolocation := geolocation st; watches := watches st;
     nextWatchId := nextWatchId st; leafletMap := leafletMap st;
     document := d |}.

(** [headingWatchId = navigator.geolocation.watchPosition(...)]. *)
Definition watchPosition (st : State) : State :=
  {| trackUpEnabled := trackUpEnabled st; currentHeading := currentHeading st;
     headingWatchId := Some (nextWatchId st);
     lastKnownPosition := lastKnownPosition st;
     geolocation := geolocation st;
     watches := nextWatchId st :: watches st;
     nextWatchId := S (nextWatchId st); leafletMap := leafletMap st;
     document := document st |}.

(** [clearWatch(headingWatchId); headingWatchId = null], run when
    [headingWatchId] is truthy. *)
Definition clearWatch (st : State) : State :=
  match headingWatchId st with
  | Some (S n) =>
      {| trackUpEnabled := trackUpEnabled st; currentHeading := currentHeading st;
         headingWatchId := None;
         lastKnownPosition := lastKnownPosition st;
         geolocation := geolocation st;
         watches := List.filter (fun w => negb (Nat.eqb w (S n))) (watches st);
         nextWatchId := nextWatchId st; leafletMap := leafletMap st;
         document := document st |}
  | _ => st
  end.

(** [updateStatus(text)]. *)
Definition updateStatus (text : string) (st : State) : State :=
  match getElementById (document st) "track-up-status" with
  | Some status => setDocument st (setTextContent status text (document st))
  | None => st
  end.

Definition scale : R := 1.5.

Definition controlSelectors : list Selector :=
  [cls "leaflet-control-zoom"; cls "leaflet-control-attribution"].

(** [rotateMap()]. *)
Definition rotateMap (st : State) : State :=
  match leafletMap st with
  | None => st
  | Some getContainer =>
      if negb (trackUpEnabled st) then st
      else
        match getContainer with
        | None => st
        | Some mapContainer =>
            let rotationAngle := - currentHeading st in
            let d1 :=
              setStyle mapContainer "overflow" (Css_text "hidden")
                (setStyle mapContainer "transition"
                   (Css_text "transform 0.5s ease-out")
                   (setStyle mapContainer "transformOrigin"
                      (Css_text "center center")
                      (setStyle mapContainer "transform"
                         (Css_rotate_scale rotationAngle scale)
                         (document st)))) in
            let d2 :=
              forEach (querySelectorAll d1 controlSelectors)
                (fun control d =>
                   setStyle control "transformOrigin" (Css_text "center center")
                     (setStyle control "transform"
                        (Css_rotate_scale (currentHeading st) (1 / scale)) d))
                d1 in
            setDocument st d2
        end
  end.

(** [resetMapRotation()]: without [window.leafletMap] the call of
    [getContainer] raises, and the handler of the [try] skips the rest. *)
Definition resetMapRotation (st : State) : State :=
  match leafletMap st with
  | None => st
  | Some getContainer =>
      let d1 :=
        match getContainer with
        | Some mapContainer =>
            setStyle mapContainer "transition"
              (Css_text "transform 0.5s ease-out")
              (setStyle mapContainer "transform" (Css_text "none") (document st))
        | None => document st
        end in
      let d2 :=
        forEach (querySelectorAll d1 controlSelectors)
          (fun control d => setStyle control "transform" (Css_text "none") d)
          d1 in
      setDocument st d2
  end.

(** The bearing of Method 2, from the stored position to the sample. *)
Definition planarBearing (last : KnownPosition) (c : Coordinates) : R :=
  let deltaLat := latitude c - kp_latitude last in
  let deltaLng := longitude c - kp_longitude last in
  Math_atan2 deltaLng deltaLat * 180 / Math_PI.

(** The success callback of [watchPosition].  The [heading] of a
    position is [null] or a number, never [undefined].  The rounded
    heading is printed in decimal digits, as a number below 10^21 in
    magnitude is. *)
Definition positionCallback (position : Position) (st : State) : State :=
  let c := coords position in
  let st1 :=
    match heading c with
    | Some (Num newHeading) =>
        if nullOrAbove (speed c) 0.5 then
          updateStatus
            ("Heading: " ++ pretty (Math_round newHeading) ++ degree_sign)
            (rotateMap (setCurrentHeading st newHeading))
        else st
    | _ =>
        match lastKnownPosition st with
        | Some last =>
            if truthy (speed c) && above (speed c) 1.0 then
              let deltaLat := latitude c - kp_latitude last in
              let deltaLng := longitude c - kp_longitude last in
              if gtb (Math_abs deltaLat) 0.0001 || gtb (Math_abs deltaLng) 0.0001
              then
                let normalizedBearing := rem (planarBearing last c + 360) 360 in
                updateStatus
                  ("Calc: " ++ pretty (Math_round normalizedBearing) ++ degree_sign)
                  (rotateMap (setCurrentHeading st normalizedBearing))
              else st
            else updateStatus "No heading data" st
        | None => updateStatus "No heading data" st
        end
    end in
  setLastKnownPosition st1
    (Some {| kp_latitude := latitude c; kp_longitude := longitude c |}).

(** The error callback of [watchPosition]. *)
Definition errorCallback (st : State) : State :=
  updateStatus "GPS Error" st.

(** [startTrackUp()]. *)
Definition startTrackUp (st : State) : State :=
  let st1 := updateStatus "Starting..." st in
  if geolocation st1 then watchPosition st1
  else updateStatus "GPS not supported" st1.

(** [stopTrackUp()]. *)
Definition stopTrackUp (st : State) : State :=
  updateStatus "North Up" (resetMapRotation (clearWatch st)).

(** The [change] listener of the toggle. *)
Definition onToggleChange (checked : bool) (st : State) : State :=
  let st1 := setTrackUpEnabled st checked in
  if trackUpEnabled st1 then startTrackUp st1 else stopTrackUp st1.

Inductive Event : Type :=
| PositionUpdate (position : Position)
| PositionError
| ToggleChange (checked : bool).

(** One event.  The location subsystem calls back only while a watch
    is registered. *)
Definition step (st : State) (ev : Event) : State :=
  match ev with
  | PositionUpdate position =>
      match watches st with
      | [] => st
      | _ => positionCallback position st
      end
  | PositionError =>
      match watches st with
      | [] => st
      | _ => errorCallback st
      end
  | ToggleChange checked => onToggleChange checked st
  end.

Definition run (evs : list Event) (st : State) : State :=
  fold_left step evs st.

Fixpoint committed (evs : list Event) (st : State) : list R :=
  match evs with
  | [] => []
  | ev :: evs' =>
      let st' := step st ev in
      currentHeading st' :: committed evs' st'
  end.

(** The state when the script has loaded, over a given page. *)
Definition init (geo : bool) (map : option (option nat)) (d : Document) : State :=
  {| trackUpEnabled := false; currentHeading := 0; headingWatchId := None;
     lastKnownPosition := None; geolocation := geo; watches := [];
     nextWatchId := 1; leafletMap := map; document := d |}.

End SimpleTrackUp.

(* ===================================================================== *)
(** ** The vocabulary of the properties                                   *)
(* ===================================================================== *)

Module Spec.
Import JS DOM Geolocation.

(** A heading: degrees in [0, 360). *)
Definition inRange (h : R) : Prop := 0 <= h < 360.

(** The angle between two headings, in degrees: the shorter way round
    the circle. *)
Definition angularDifference (a b : R) : R :=
  Rmin (Rabs (a - b)) (360 - Rabs (a - b)).

(** What the location subsystem delivers: a direct heading, when it is a
    number other than [NaN], is a heading. *)
Definition wfPosition (p : Position) : Prop :=
  match heading (coords p) with
  | Some (Num h) => inRange h
  | _ => True
  end.

(** The same for the events of [TrackUpMode]; the angle [alpha] of an
    orientation event, when present, is in [0, 360) too. *)
Definition wfEventT (ev : TrackUpMode.Event) : Prop :=
  match ev with
  | TrackUpMode.PositionUpdate p _ => wfPosition p
  | TrackUpMode.DeviceOrientation (Some a) => inRange a
  | _ => True
  end.

Definition wfEventS (ev : SimpleTrackUp.Event) : Prop :=
  match ev with
  | SimpleTrackUp.PositionUpdate p => wfPosition p
  | _ => True
  end.

(** Both headings of [TrackUpMode] are headings. *)
Definition inRangeT (st : TrackUpMode.State) : Prop :=
  inRange (TrackUpMode.currentHeading st)
  /\ inRange (TrackUpMode.lastValidHeading st).

(** The speed is unknown or above the threshold [t]. *)
Definition unknownOrAbove (v : option Number) (t : R) : Prop :=
  v = None \/ exists x, v = Some (Num x) /\ t < x.

(** A position sample, field by field. *)
Definition sample (lat lng : R) (h v : option Number) : Position :=
  {| coords := {| latitude := lat; longitude := lng; heading := h; speed := v |} |}.

(** The Heading State of each script. *)
Definition headingStateT (st : TrackUpMode.State)
  : R * R * TrackUpMode.Reference :=
  (TrackUpMode.currentHeading st, TrackUpMode.lastValidHeading st,
   TrackUpMode.lastPosition st).

Definition headingStateS (st : SimpleTrackUp.State)
  : R * option SimpleTrackUp.KnownPosition :=
  (SimpleTrackUp.currentHeading st, SimpleTrackUp.lastKnownPosition st).

(** The text the status sink shows, when the page has one. *)
Definition statusText (d : Document) : option string :=
  match getElementById d "track-up-status" with
  | Some i => textOf d i
  | None => None
  end.

(** The spherical bearing formula the specification names: the initial
    bearing of the great circle from (lat1, lng1) to (lat2, lng2), all
    in degrees, as a heading in [0, 360). *)
Definition radians (deg : R) : R := deg * PI / 180.

Definition sphericalBearing (lat1 lng1 lat2 lng2 : R) : R :=
  rem
    (Math_atan2
       (sin (radians (lng2 - lng1)) * cos (radians lat2))
       (cos (radians lat1) * sin (radians lat2)
        - sin (radians lat1) * cos (radians lat2) * cos (radians (lng2 - lng1)))
     * 180 / PI + 360)
    360.

(** The transform of an element is the identity. *)
Definition upright (d : Document) (i : nat) : Prop :=
  denote (styleOf d i "transform") = Some identity.

End Spec.

(* ===================================================================== *)
(** ** A page and some states, for the examples                          *)
(* ===================================================================== *)

Module Page.
Import JS DOM Geolocation.

Definition element (tag name : string) (classes : list string)
  (address : string) (parent : ParentNode) : Element :=
  {| tagName := tag; elementId := name; classList := classes; src := address;
     parentNode := parent; style := ∅; textContent := "" |}.

(** A map page as the mapping library lays it out:
    0 the body, 1 the map container, 2 the marker pane, 3 the marker of
    the user's location, 4 another marker, 5 the zoom control, 6 the
    attribution, 7 a popup, 8 the status text. *)
Definition page : Document :=
  [ element "body" "" [] "" ParentDocument;
    element "div" "map" ["leaflet-container"] "" (ParentElement 0);
    element "div" "" ["leaflet-pane"; "leaflet-marker-pane"] "" (ParentElement 1);
    element "div" "" ["leaflet-marker-icon"; "custom-location-indicator"] ""
      (ParentElement 2);
    element "img" "" ["leaflet-marker-icon"] "images/marker-icon.png"
      (ParentElement 2);
    element "div" "" ["leaflet-control-zoom"; "leaflet-bar"; "leaflet-control"] ""
      (ParentElement 1);
    element "div" "" ["leaflet-control-attribution"; "leaflet-control"] ""
      (ParentElement 1);
    element "div" "" ["leaflet-popup"] "" (ParentElement 1);
    element "span" "track-up-status" [] "" (ParentElement 0) ].

Definition mapContainer : nat := 1.
Definition userMarker : nat := 3.
Definition otherMarker : nat := 4.
Definition zoomControl : nat := 5.
Definition popup : nat := 7.

(** [js/track_up_mode.js] on that page, Track Up on, heading [h]. *)
Definition tracking (h : R) : TrackUpMode.State :=
  {| TrackUpMode.trackUpMode := true;
     TrackUpMode.currentHeading := h;
     TrackUpMode.mapRotationEnabled := true;
     TrackUpMode.lastValidHeading := h;
     TrackUpMode.headingUpdateInterval := true;
     TrackUpMode.lastPosition := TrackUpMode.Unresolvable;
     TrackUpMode.leafletMap := Some (Some mapContainer);
     TrackUpMode.document := page |}.

(** [js/simple_track_up.js] on that page, Track Up on, heading [h],
    the position [last] stored. *)
Definition simpleTracking (h : R) (last : option SimpleTrackUp.KnownPosition)
  : SimpleTrackUp.State :=
  {| SimpleTrackUp.trackUpEnabled := true;
     SimpleTrackUp.currentHeading := h;
     SimpleTrackUp.headingWatchId := Some 1%nat;
     SimpleTrackUp.lastKnownPosition := last;
     SimpleTrackUp.geolocation := true;
     SimpleTrackUp.watches := [1%nat];
     SimpleTrackUp.nextWatchId := 2%nat;
     SimpleTrackUp.leafletMap := Some (Some mapContainer);
     SimpleTrackUp.document := page |}.

(** A sample with the direct heading [h], moving at 2 units. *)
Definition moving (h : R) : Position :=
  Spec.sample 0 0 (Some (Num h)) (Some (Num 2)).

End Page.

(* ===================================================================== *)
(** ** The assignments of a reset, one after the other                    *)
(* ===================================================================== *)

Module Assignments.
Import JS DOM.

(** One assignment of a script to an element: to a style property or to
    the text. *)
Inductive Assignment : Type :=
| SetStyle (i : nat) (prop : string) (v : CssValue)
| SetText (i : nat) (t : string).

Definition assign (a : Assignment) (d : Document) : Document :=
  match a with
  | SetStyle i prop v => setStyle i prop v d
  | SetText i t => setTextContent i t d
  end.

Definition assignAll (l : list Assignment) (d : Document) : Document :=
  fold_left (fun d' a => assign a d') l d.

(** Two assignments write to the same place. *)
Definition sameTarget (a b : Assignment) : bool :=
  match a, b with
  | SetStyle i p _, SetStyle j q _ => Nat.eqb i j && String.eqb p q
  | SetText i _, SetText j _ => Nat.eqb i j
  | _, _ => false
  end.

Definition parses (a : Assignment) : bool :=
  match a with
  | SetStyle _ _ v => css_valid v
  | SetText _ _ => true
  end.

(** What [resetMapRotation] of track_up_mode.js assigns, given the map
    container: the loops over the custom indicators and their containers
    are left out, their values do not parse. *)
Definition resetAssignments (c : nat) (d : Document) : list Assignment :=
  [SetStyle c "transform" (Css_text "none")]
  ++ match parentElement d c with
     | Some p =>
         [ SetStyle p "overflow" (Css_text "");
           SetStyle p "position" (Css_text "");
           SetStyle p "zIndex" (Css_text "");
           SetStyle p "backgroundColor" (Css_text "") ]
     | None => []
     end
  ++ flat_map
       (fun sel =>
          flat_map
            (fun i =>
               [ SetStyle i "transform" (Css_rotate_scale 0 1);
                 SetStyle i "transformOrigin" (Css_text "center center") ])
            (querySelectorAll d [sel]))
       [cls "leaflet-control"; cls "leaflet-popup"]
  ++ match querySelector d [cls "track-up-container-compact"] with
     | Some t => [SetStyle t "transform" (Css_text "none")]
     | None => []
     end
  ++ match querySelector d [cls "controls-compact"] with
     | Some k => [SetStyle k "transform" (Css_text "none")]
     | None => []
     end.

(** What [resetMapRotation] of simple_track_up.js assigns, given what
    [getContainer()] returns. *)
Definition simpleResetAssignments (getContainer : option nat) (d : Document)
  : list Assignment :=
  match getContainer with
  | Some c =>
      [ SetStyle c "transform" (Css_text "none");
        SetStyle c "transition" (Css_text "transform 0.5s ease-out") ]
  | None => []
  end
  ++ flat_map (fun i => [SetStyle i "transform" (Css_text "none")])
       (querySelectorAll d SimpleTrackUp.controlSelectors).

End Assignments.

(* ===================================================================== *)
(** ** Marker clean-up: what is removed and what is kept                  *)
(* ===================================================================== *)

Module Removal.
Import DOM TrackUpMode.

(** The selectors of [removeDefaultLocationMarkers], by name. *)
Definition defaultMarker : Compound :=
  {| sel_tag := None; sel_classes := ["leaflet-marker-icon"];
     sel_not := ["custom-location-indicator"; "custom-user-location"] |}.

Definition imageMarker : Compound :=
  {| sel_tag := Some "img"; sel_classes := ["leaflet-marker-icon"];
     sel_not := [] |}.

Definition markerShadow : Compound :=
  {| sel_tag := None; sel_classes := ["leaflet-marker-shadow"]; sel_not := [] |}.

(** The test its second loop makes on the address of an image. *)
Definition defaultImage (s : string) : bool :=
  includes "marker-icon" s || includes "yellow" s
  || includes "arrow" s || includes "location" s.

(** Everything of an element but its parent. *)
Definition content (e : Element)
  : string * string * list string * string * gmap string CssValue * string :=
  (tagName e, elementId e, classList e, src e, style e, textContent e).

(** [e'] is [e], or [e] removed from its parent. *)
Definition keeps (e e' : Element) : Prop :=
  content e' = content e
  /\ (parentNode e' = parentNode e \/ parentNode e' = NoParent).

(** [d'] is [d] with some elements removed from their parents and
    nothing else changed. *)
Definition detachedFrom (d d' : Document) : Prop :=
  length d' = length d
  /\ forall j e', d' !! j = Some e' -> exists e, d !! j = Some e /\ keeps e e'.

(** The element [j] is in the document [d]. *)
Definition connected (d : Document) (j : nat) : bool :=
  match d !! j with
  | Some e => isConnected d (length d) e
  | None => false
  end.

(** What [removeDefaultLocationMarkers] looks for: a marker icon without
    a custom class, a marker shadow, or an image marker icon with the
    address of a default image. *)
Definition removable (e : Element) : bool :=
  matchesCompound e defaultMarker
  || matchesCompound e markerShadow
  || (matchesCompound e imageMarker && defaultImage (src e)).

(** Its three loops of removals, without the loop that hides. *)
Definition detachMarkers (d : Document) : Document :=
  let d1 :=
    forEach (querySelectorAll d [Sel defaultMarker]) removeIfAttached d in
  let d2 :=
    forEach (querySelectorAll d1 [Sel imageMarker]) removeImageMarker d1 in
  forEach (querySelectorAll d2 [Sel markerShadow]) removeIfAttached d2.

End Removal.

(* ===================================================================== *)
(** ** The status element                                                 *)
(* ===================================================================== *)

Module Sink.
Import DOM.

(** What the status element shows after [updateTrackUpStatus]. *)
Definition shows (d : Document) (i : nat) (text colour weight : string) : Prop :=
  textOf d i = Some text
  /\ styleOf d i "color" = Some (Css_text colour)
  /\ styleOf d i "fontWeight" = Some (Css_text weight).

End Sink.

(* ===================================================================== *)
(** ** The assignments of a rotation                                      *)
(* ===================================================================== *)

Module RotateAssignments.
Import JS DOM Assignments.

(** The place an assignment writes to. *)
Definition target (a : Assignment) : nat * option string :=
  match a with
  | SetStyle i prop _ => (i, Some prop)
  | SetText i _ => (i, None)
  end.

(** What [updateMapRotation] of track_up_mode.js assigns at the heading
    [h], given the map container. *)
Definition rotateAssignments (h : R) (c : nat) (d : Document) : list Assignment :=
  [ SetStyle c "transform" (Css_rotate_scale (- h) TrackUpMode.scale);
    SetStyle c "transformOrigin" (Css_text "center center");
    SetStyle c "transition" (Css_text "transform 0.5s ease-out");
    SetStyle c "background" (Css_text "transparent");
    SetStyle c "position" (Css_text "relative") ]
  ++ match parentElement d c with
     | Some p =>
         [ SetStyle p "background" (Css_text "transparent");
           SetStyle p "overflow" (Css_text "hidden");
           SetStyle p "position" (Css_text "relative") ]
     | None => []
     end
  ++ flat_map
       (fun sel =>
          flat_map
            (fun i =>
               [ SetStyle i "transform"
                   (Css_rotate_scale (- - h) (1 / TrackUpMode.scale));
                 SetStyle i "transformOrigin" (Css_text "center center");
                 SetStyle i "transition" (Css_text "transform 0.5s ease-out") ])
            (querySelectorAll d [sel]))
       TrackUpMode.elementsToCounterRotate.

(** What [rotateMap] of simple_track_up.js assigns at the heading [h]. *)
Definition simpleRotateAssignments (h : R) (c : nat) (d : Document)
  : list Assignment :=
  [ SetStyle c "transform" (Css_rotate_scale (- h) SimpleTrackUp.scale);
    SetStyle c "transformOrigin" (Css_text "center center");
    SetStyle c "transition" (Css_text "transform 0.5s ease-out");
    SetStyle c "overflow" (Css_text "hidden") ]
  ++ flat_map
       (fun i =>
          [ SetStyle i "transform" (Css_rotate_scale h (1 / SimpleTrackUp.scale));
            SetStyle i "transformOrigin" (Css_text "center center") ])
       (querySelectorAll d SimpleTrackUp.controlSelectors).

End RotateAssignments.

(* ===================================================================== *)
(** ** The position watch of js/simple_track_up.js                        *)
(* ===================================================================== *)

Module Watches.
Import SimpleTrackUp.

(** What the script and the location subsystem know of each other: the
    mode, the watch the script holds, and what is registered. *)
Definition registration (st : State) : bool * option nat * bool * list nat * nat :=
  (trackUpEnabled st, headingWatchId st, geolocation st, watches st, nextWatchId st).

(** The toggle of the page is a checkbox: each [change] event carries
    the opposite of the state before.  [on] is the state before
    [evs]. *)
Fixpoint alternating (on : bool) (evs : list Event) : Prop :=
  match evs with
  | [] => True
  | ToggleChange checked :: evs' => checked = negb on /\ alternating checked evs'
  | _ :: evs' => alternating on evs'
  end.

(** The watch the script holds is registered, under an id that is not
    0, and ids are not used twice. *)
Definition held (st : State) : Prop :=
  (1 <= nextWatchId st)%nat
  /\ (forall w, In w (watches st) -> (1 <= w < nextWatchId st)%nat)
  /\ forall w, headingWatchId st = Some w -> In w (watches st).

(** What is registered while Track Up is off and while it is on. *)
Definition oneWatch (st : State) : Prop :=
  if trackUpEnabled st && geolocation st
  then exists w, (1 <= w)%nat /\ watches st = [w] /\ headingWatchId st = Some w
  else watches st = [] /\ headingWatchId st = None.

End Watches.

(* ===================================================================== *)
(** ** js/track_up_mode.js: start-up, interface and clean-up              *)
(* ===================================================================== *)

Module TrackUpLifecycle.
Import JS DOM Geolocation.

(** The rest of the module variables of js/track_up_mode.js, and what
    the page and the platform hold for the script: the [checked]
    property of the toggle input, the listeners and the timer of the
    start-up that are registered, whether [DOMContentLoaded] was
    dispatched, whether [navigator.geolocation] and
    [window.DeviceOrientationEvent] exist, and the position watches of
    the location subsystem. *)
Record State : Type := {
  script : TrackUpMode.State;
  trackUpButton : option nat;
  trackUpStatusElement : option nat;
  watchId : option nat;
  checked : bool;
  changeListener : bool;
  orientationListener : bool;
  mapTimer : bool;
  loaded : bool;
  geolocation : bool;
  deviceOrientationEvent : bool;
  watches : list nat;
  nextWatchId : nat
}.

Definition setScript (st : State) (s : TrackUpMode.State) : State :=
  {| script := s; trackUpButton := trackUpButton st;
     trackUpStatusElement := trackUpStatusElement st; watchId := watchId st;
     checked := checked st; changeListener := changeListener st;
     orientationListener := orientationListener st; mapTimer := mapTimer st;
     loaded := loaded st; geolocation := geolocation st;
     deviceOrientationEvent := deviceOrientationEvent st;
     watches := watches st; nextWatchId := nextWatchId st |}.

Definition setChecked (st : State) (b : bool) : State :=
  {| script := script st; trackUpButton := trackUpButton st;
     trackUpStatusElement := trackUpStatusElement st; watchId := watchId st;
     checked := b; changeListener := changeListener st;
     orientationListener := orientationListener st; mapTimer := mapTimer st;
     loaded := loaded st; geolocation := geolocation st;
     deviceOrientationEvent := deviceOrientationEvent st;
     watches := watches st; nextWatchId := nextWatchId st |}.

Definition setMapTimer (st : State) (b : bool) : State :=
  {| script := script st; trackUpButton := trackUpButton st;
     trackUpStatusElement := trackUpStatusElement st; watchId := watchId st;
     checked := checked st; changeListener := changeListener st;
     orientationListener := orientationListener st; mapTimer := b;
     loaded := loaded st; geolocation := geolocation st;
     deviceOrientationEvent := deviceOrientationEvent st;
     watches := watches st; nextWatchId := nextWatchId st |}.

Definition setLoaded (st : State) (b : bool) : State :=
  {| script := script st; trackUpButton := trackUpButton st;
     trackUpStatusElement := trackUpStatusElement st; watchId := watchId st;
     checked := checked st; changeListener := changeListener st;
     orientationListener := orientationListener st; mapTimer := mapTimer st;
     loaded := b; geolocation := geolocation st;
     deviceOrientationEvent := deviceOrientationEvent st;
     watches := watches st; nextWatchId := nextWatchId st |}.

(** [window.leafletMap = map], by the script that creates the map. *)
Definition setLeafletMap (s : TrackUpMode.State) (map : option (option nat))
  : TrackUpMode.State :=
  {| TrackUpMode.trackUpMode := TrackUpMode.trackUpMode s;
     TrackUpMode.currentHeading := TrackUpMode.currentHeading s;
     TrackUpMode.mapRotationEnabled := TrackUpMode.mapRotationEnabled s;
     TrackUpMode.lastValidHeading := TrackUpMode.lastValidHeading s;
     TrackUpMode.headingUpdateInterval := TrackUpMode.headingUpdateInterval s;
     TrackUpMode.lastPosition := TrackUpMode.lastPosition s;
     TrackUpMode.leafletMap := map;
     TrackUpMode.document := TrackUpMode.document s |}.

(** [setupTrackUpControls()]: without the container, the toggle input
    or the status span nothing is registered and [trackUpButton] stays
    [null]. *)
Definition setupTrackUpControls (st : State) : State :=
  let d := TrackUpMode.document (script st) in
  match querySelector d [cls "track-up-container-compact"] with
  | None => st
  | Some _ =>
      match getElementById d "track-up-toggle",
            getElementById d "track-up-status" with
      | Some toggleInput, Some statusSpan =>
          {| script := script st; trackUpButton := Some toggleInput;
             trackUpStatusElement := Some statusSpan; watchId := watchId st;
             checked := checked st; changeListener := true;
             orientationListener := orientationListener st;
             mapTimer := mapTimer st; loaded := loaded st;
             geolocation := geolocation st;
             deviceOrientationEvent := deviceOrientationEvent st;
             watches := watches st; nextWatchId := nextWatchId st |}
      | _, _ => st
      end
  end.

(** [setupHeadingTracking()]: without [navigator.geolocation] it
    returns before it registers anything, the compass listener
    included. *)
Definition setupHeadingTracking (st : State) : State :=
  if negb (geolocation st) then st
  else
    {| script := script st; trackUpButton := trackUpButton st;
       trackUpStatusElement := trackUpStatusElement st;
       watchId := Some (nextWatchId st);
       checked := checked st; changeListener := changeListener st;
       orientationListener :=
         if deviceOrientationEvent st then true else orientationListener st;
       mapTimer := mapTimer st; loaded := loaded st;
       geolocation := geolocation st;
       deviceOrientationEvent := deviceOrientationEvent st;
       watches := nextWatchId st :: watches st;
       nextWatchId := S (nextWatchId st) |}.

(** [checkMapReady()] of [initializeTrackUpMode]. *)
Definition checkMapReady (st : State) : State :=
  match TrackUpMode.leafletMap (script st) with
  | Some _ => setupHeadingTracking (setupTrackUpControls st)
  | None => setMapTimer st true
  end.

(** [cleanup()]. *)
Definition cleanup (st : State) : State :=
  let st1 :=
    match watchId st with
    | Some w =>
        {| script := script st; trackUpButton := trackUpButton st;
           trackUpStatusElement := trackUpStatusElement st; watchId := None;
           checked := checked st; changeListener := changeListener st;
           orientationListener := orientationListener st;
           mapTimer := mapTimer st; loaded := loaded st;
           geolocation := geolocation st;
           deviceOrientationEvent := deviceOrientationEvent st;
           watches := List.filter (fun v => negb (Nat.eqb v w)) (watches st);
           nextWatchId := nextWatchId st |}
    | None => st
    end in
  let s1 :=
    if TrackUpMode.headingUpdateInterval (script st1)
    then TrackUpMode.setHeadingUpdateInterval (script st1) false
    else script st1 in
  setScript st1 (TrackUpMode.resetMapRotation s1).

(** [window.TrackUpMode.toggle()]. *)
Definition toggle (st : State) : State :=
  match trackUpButton st with
  | Some _ =>
      let st1 := setChecked st (negb (checked st)) in
      setScript st1
        (TrackUpMode.updateTrackUpMode
           (TrackUpMode.setTrackUpMode (script st1) (checked st1)))
  | None => st
  end.

(** [window.TrackUpMode.isEnabled()] and [getCurrentHeading()]. *)
Definition isEnabled (st : State) : bool := TrackUpMode.trackUpMode (script st).

Definition getCurrentHeading (st : State) : R :=
  TrackUpMode.currentHeading (script st).

(** What happens to the page: the document is loaded, the timer of the
    start-up fires, another script sets [window.leafletMap], the user
    switches the toggle input, the location subsystem and the compass
    report, the one-second timer fires, a caller uses the interface
    [window.TrackUpMode], the page is left. *)
Inductive Event : Type :=
| DOMContentLoaded
| MapTimer
| MapCreated (getContainer : option nat)
| Change
| PositionUpdate (position : Position) (now : Z)
| PositionError
| DeviceOrientation (alpha : option R)
| IntervalTick
| CallToggle
| CallCleanup
| BeforeUnload.

(** One event.  A listener or a timer that is not registered does not
    run, the location subsystem calls back only while a watch is
    registered, and [DOMContentLoaded] is dispatched once. *)
Definition step (st : State) (ev : Event) : State :=
  match ev with
  | DOMContentLoaded =>
      if loaded st then st else checkMapReady (setLoaded st true)
  | MapTimer =>
      if mapTimer st then checkMapReady (setMapTimer st false) else st
  | MapCreated getContainer =>
      setScript st (setLeafletMap (script st) (Some getContainer))
  | Change =>
      let st1 := setChecked st (negb (checked st)) in
      if changeListener st1
      then setScript st1 (TrackUpMode.onToggleChange (checked st1) (script st1))
      else st1
  | PositionUpdate position now =>
      match watches st with
      | [] => st
      | _ =>
          setScript st
            (TrackUpMode.step (script st) (TrackUpMode.PositionUpdate position now))
      end
  | PositionError =>
      match watches st with
      | [] => st
      | _ => setScript st (TrackUpMode.errorCallback (script st))
      end
  | DeviceOrientation alpha =>
      if orientationListener st
      then setScript st (TrackUpMode.onDeviceOrientation alpha (script st))
      else st
  | IntervalTick =>
      setScript st (TrackUpMode.step (script st) TrackUpMode.IntervalTick)
  | CallToggle => toggle st
  | CallCleanup => cleanup st
  | BeforeUnload => cleanup st
  end.

Definition run (evs : list Event) (st : State) : State :=
  fold_left step evs st.

(** The state when the script has loaded, over a given page. *)
Definition init (geo orientation box : bool) (map : option (option nat))
  (d : Document) : State :=
  {| script := TrackUpMode.init map d; trackUpButton := None;
     trackUpStatusElement := None; watchId := None; checked := box;
     changeListener := false; orientationListener := false;
     mapTimer := false; loaded := false; geolocation := geo;
     deviceOrientationEvent := orientation; watches := [];
     nextWatchId := 1 |}.

(** The three switches of the script: [mapRotationEnabled], whether the
    one-second timer is set, and [trackUpMode]. *)
Definition switches (s : TrackUpMode.State) : bool * bool * bool :=
  (TrackUpMode.mapRotationEnabled s, TrackUpMode.headingUpdateInterval s,
   TrackUpMode.trackUpMode s).

End TrackUpLifecycle.

(* ===================================================================== *)
(** ** A page with the controls of the compact layout                     *)
(* ===================================================================== *)

Module ControlsPage.
Import DOM.

(** The example page with the controls of the compact layout:
    9 the controls bar, 10 the Track Up container, 11 the toggle
    input. *)
Definition page : Document :=
  Page.page
  ++ [ Page.element "div" "" ["controls-compact"] "" (ParentElement 0);
       Page.element "div" "" ["track-up-container-compact"] "" (ParentElement 9);
       Page.element "input" "track-up-toggle" [] "" (ParentElement 10) ].

Definition statusSpan : nat := 8.
Definition toggleInput : nat := 11.

End ControlsPage.

(* ===================================================================== *)
(** ** The direct location system (unnamed/part_000)                      *)
(* ===================================================================== *)

Module DirectGPS.
Import JS.

(** [position.coords] as this script reads it. *)
Record Fix : Type := {
  latitude : R;
  longitude : R;
  accuracy : R
}.

(** The object [{ lat, lng, accuracy }] the script stores. *)
Record UserPosition : Type := {
  lat : R;
  lng : R;
  up_accuracy : R
}.

(** The button [track-location-btn]. *)
Record Button : Type := {
  textContent : string;
  disabled : bool
}.

(** A circle marker on the map, with the popup bound to it. *)
Record Marker : Type := {
  latlng : R * R;
  popup : string;
  popupOpen : bool
}.

(** The module variables; of the page, the button when it has one; of
    the map, its view and its layers, each under the id it got when it
    was added, and how often its size was invalidated; of the platform,
    whether [navigator.geolocation] exists, the requests for a position
    that are not answered yet, the timers that are set and the alerts
    shown.  A timer of 200 ms holds the position its callback has
    closed over. *)
Record State : Type := {
  userLocationMarker : option nat;
  isTrackingLocation : bool;
  currentUserPosition : option UserPosition;
  button : option Button;
  view : option (R * R * Z);
  layers : list (nat * Marker);
  nextLayer : nat;
  invalidations : nat;
  geolocation : bool;
  requests : nat;
  markerTimers : list UserPosition;
  refreshTimers : nat;
  alerts : list string
}.

Definition newline : string := String (Ascii.ascii_of_nat 10) EmptyString.

(** The pin the texts begin with (U+1F4CD in UTF-8). *)
Definition pin : string :=
  String (Ascii.ascii_of_nat 240) (String (Ascii.ascii_of_nat 159)
    (String (Ascii.ascii_of_nat 147) (String (Ascii.ascii_of_nat 141) EmptyString))).

Definition gettingGPS : Button :=
  {| textContent := "Getting GPS..."; disabled := true |}.

Definition whereAmI : Button :=
  {| textContent := pin ++ " Where Am I"; disabled := false |}.

(** [if (btn) { btn.textContent = ...; btn.disabled = ... }]. *)
Definition setButton (b : Button) (current : option Button) : option Button :=
  match current with
  | Some _ => Some b
  | None => None
  end.

Definition removeLayer (id : nat) (l : list (nat * Marker)) : list (nat * Marker) :=
  List.filter (fun layer => negb (Nat.eqb (fst layer) id)) l.

(** [window.trackUserLocation()], as [setupDirectGPS] overrides it. *)
Definition trackUserLocation (st : State) : State :=
  let layers1 :=
    match userLocationMarker st with
    | Some marker => removeLayer marker (layers st)
    | None => layers st
    end in
  if geolocation st then
    {| userLocationMarker := None;
       isTrackingLocation := isTrackingLocation st;
       currentUserPosition := currentUserPosition st;
       button := setButton gettingGPS (button st);
       view := view st; layers := layers1; nextLayer := nextLayer st;
       invalidations := invalidations st; geolocation := geolocation st;
       requests := S (requests st);
       markerTimers := markerTimers st; refreshTimers := refreshTimers st;
       alerts := alerts st |}
  else
    {| userLocationMarker := None;
       isTrackingLocation := isTrackingLocation st;
       currentUserPosition := currentUserPosition st;
       button := setButton whereAmI (setButton gettingGPS (button st));
       view := view st; layers := layers1; nextLayer := nextLayer st;
       invalidations := invalidations st; geolocation := geolocation st;
       requests := requests st;
       markerTimers := markerTimers st; refreshTimers := refreshTimers st;
       alerts := alerts st ++ ["GPS not supported on this device"] |}.

(** The success callback of [getCurrentPosition]. *)
Definition onSuccess (position : Fix) (st : State) : State :=
  let p := {| lat := latitude position; lng := longitude position;
              up_accuracy := accuracy position |} in
  {| userLocationMarker := userLocationMarker st;
     isTrackingLocation := true;
     currentUserPosition := Some p;
     button := setButton whereAmI (button st);
     view := Some (lat p, lng p, 16%Z);
     layers := layers st; nextLayer := nextLayer st;
     invalidations := invalidations st; geolocation := geolocation st;
     requests := requests st;
     markerTimers := markerTimers st ++ [p];
     refreshTimers := refreshTimers st;
     alerts := alerts st |}.

(** Its error callback; [message] is [error.message]. *)
Definition onError (message : string) (st : State) : State :=
  {| userLocationMarker := userLocationMarker st;
     isTrackingLocation := isTrackingLocation st;
     currentUserPosition := currentUserPosition st;
     button := setButton whereAmI (button st);
     view := view st; layers := layers st; nextLayer := nextLayer st;
     invalidations := invalidations st; geolocation := geolocation st;
     requests := requests st;
     markerTimers := markerTimers st; refreshTimers := refreshTimers st;
     alerts :=
       alerts st
       ++ ["GPS Error: " ++ message ++ newline ++ newline ++ "Please:" ++ newline
           ++ "1. Enable location services" ++ newline
           ++ "2. Allow location access for this website" ++ newline
           ++ "3. Try again"] |}.

(** The callback of the timer of 200 ms: the marker is a circle marker,
    which has no [_icon], so the assignments to the icon's style are
    skipped. *)
Definition onMarkerTimer (p : UserPosition) (st : State) : State :=
  let marker :=
    {| latlng := (lat p, lng p);
       popup := pin ++ " Your Location<br>Accuracy: " ++ toFixed0 (up_accuracy p) ++ "m";
       popupOpen := true |} in
  {| userLocationMarker := Some (nextLayer st);
     isTrackingLocation := isTrackingLocation st;
     currentUserPosition := currentUserPosition st;
     button := button st; view := view st;
     layers := layers st ++ [(nextLayer st, marker)];
     nextLayer := S (nextLayer st);
     invalidations := invalidations st; geolocation := geolocation st;
     requests := requests st;
     markerTimers := markerTimers st;
     refreshTimers := S (refreshTimers st);
     alerts := alerts st |}.

(** [window.getCurrentUserPosition()] and [window.isUserLocationTracked()]. *)
Definition getCurrentUserPosition (st : State) : option UserPosition :=
  currentUserPosition st.

Definition isUserLocationTracked (st : State) : bool :=
  isTrackingLocation st
  && match currentUserPosition st with Some _ => true | None => false end.

Inductive Event : Type :=
| TrackUserLocation
| Success (position : Fix)
| Failure (message : string)
| MarkerTimer
| RefreshTimer.

(** One event.  The platform answers a request once, with a position or
    with an error; a timer fires once, the timers of 200 ms in the order
    they were set. *)
Definition step (st : State) (ev : Event) : State :=
  match ev with
  | TrackUserLocation => trackUserLocation st
  | Success position =>
      match requests st with
      | O => st
      | S n =>
          onSuccess position
            {| userLocationMarker := userLocationMarker st;
               isTrackingLocation := isTrackingLocation st;
               currentUserPosition := currentUserPosition st;
               button := button st; view := view st; layers := layers st;
               nextLayer := nextLayer st; invalidations := invalidations st;
               geolocation := geolocation st; requests := n;
               markerTimers := markerTimers st;
               refreshTimers := refreshTimers st; alerts := alerts st |}
      end
  | Failure message =>
      match requests st with
      | O => st
      | S n =>
          onError message
            {| userLocationMarker := userLocationMarker st;
               isTrackingLocation := isTrackingLocation st;
               currentUserPosition := currentUserPosition st;
               button := button st; view := view st; layers := layers st;
               nextLayer := nextLayer st; invalidations := invalidations st;
               geolocation := geolocation st; requests := n;
               markerTimers := markerTimers st;
               refreshTimers := refreshTimers st; alerts := alerts st |}
      end
  | MarkerTimer =>
      match markerTimers st with
      | [] => st
      | p :: timers =>
          onMarkerTimer p
            {| userLocationMarker := userLocationMarker st;
               isTrackingLocation := isTrackingLocation st;
               currentUserPosition := currentUserPosition st;
               button := button st; view := view st; layers := layers st;
               nextLayer := nextLayer st; invalidations := invalidations st;
               geolocation := geolocation st; requests := requests st;
               markerTimers := timers;
               refreshTimers := refreshTimers st; alerts := alerts st |}
      end
  | RefreshTimer =>
      match refreshTimers st with
      | O => st
      | S n =>
          {| userLocationMarker := userLocationMarker st;
             isTrackingLocation := isTrackingLocation st;
             currentUserPosition := currentUserPosition st;
             button := button st; view := view st; layers := layers st;
             nextLayer := nextLayer st; invalidations := S (invalidations st);
             geolocation := geolocation st; requests := requests st;
             markerTimers := markerTimers st;
             refreshTimers := n; alerts := alerts st |}
      end
  end.

Definition run (evs : list Event) (st : State) : State :=
  fold_left step evs st.

(** The state when the script has loaded and found the map. *)
Definition init (geo : bool) (btn : option Button) : State :=
  {| userLocationMarker := None; isTrackingLocation := false;
     currentUserPosition := None; button := btn; view := None; layers := [];
     nextLayer := 0; invalidations := 0; geolocation := geo; requests := 0;
     markerTimers := []; refreshTimers := 0; alerts := [] |}.

(** Every layer has an id the map has given out, and so has the marker
    the script refers to. *)
Definition fresh (st : State) : Prop :=
  (forall layer, In layer (layers st) -> (fst layer < nextLayer st)%nat)
  /\ forall id, userLocationMarker st = Some id -> (id < nextLayer st)%nat.

End DirectGPS.

(* ===================================================================== *)
(** ** Facts about the number operations                                  *)
(* ===================================================================== *)

Section NumberFacts.
Import JS.

Lemma gtb_true (x y : R) : y < x -> gtb x y = true.
Proof. intros H. unfold gtb. destruct (Rlt_dec y x); [reflexivity | contradiction]. Qed.

Lemma gtb_false (x y : R) : x <= y -> gtb x y = false.
Proof. intros H. unfold gtb. destruct (Rlt_dec y x); [lra | reflexivity]. Qed.

Lemma gtb_iff (x y : R) : gtb x y = true <-> y < x.
Proof.
  unfold gtb. destruct (Rlt_dec y x); split; intros; try easy.
Qed.

Lemma jseqb_true (x y : R) : x = y -> eqb x y = true.
Proof. intros H. unfold eqb. destruct (Req_dec_T x y); [reflexivity | contradiction]. Qed.

Lemma jseqb_false (x y : R) : x <> y -> eqb x y = false.
Proof. intros H. unfold eqb. destruct (Req_dec_T x y); [contradiction | reflexivity]. Qed.

Lemma jseqb_iff (x y : R) : eqb x y = true <-> x = y.
Proof.
  unfold eqb. destruct (Req_dec_T x y); split; intros; try easy.
Qed.

(** The remainder of a non-negative dividend by a positive divisor lies
    between zero and the divisor. *)
Lemma rem_range (x y : R) : 0 <= x -> 0 < y -> 0 <= rem x y < y.
Proof.
  intros Hx Hy. unfold rem, trunc.
  assert (Hq : 0 <= x / y).
  { unfold Rdiv. apply Rmult_le_pos; [assumption |].
    left. apply Rinv_0_lt_compat. assumption. }
  destruct (Rle_dec 0 (x / y)) as [_ | Hn]; [| contradiction].
  destruct (base_Int_part (x / y)) as [Hlo Hhi].
  assert (Hxq : x = y * (x / y)) by (field; lra).
  remember (x / y) as q eqn:Eq. clear Eq.
  set (k := IZR (Int_part q)) in *.
  rewrite Hxq. split; nra.
Qed.

(** Below the divisor the remainder is the dividend itself. *)
Lemma rem_small (x y : R) : 0 <= x < y -> rem x y = x.
Proof.
  intros [Hx Hxy]. unfold rem, trunc.
  assert (Hy : 0 < y) by lra.
  assert (Hq : 0 <= x / y < 1).
  { split.
    - unfold Rdiv. apply Rmult_le_pos; [assumption |].
      left. apply Rinv_0_lt_compat. assumption.
    - apply (Rmult_lt_reg_r y); [assumption |].
      replace (x / y * y) with x by (field; lra). lra. }
  destruct (Rle_dec 0 (x / y)) as [_ | Hn]; [| lra].
  assert (Hk : Int_part (x / y) = 0%Z).
  { symmetry. apply Int_part_spec. simpl. lra. }
  rewrite Hk. simpl. lra.
Qed.

(** [Math.atan2] gives an angle in (-PI, PI]. *)
Lemma Math_atan2_range (y x : R) : - PI < Math_atan2 y x <= PI.
Proof.
  pose proof PI_RGT_0 as Hpi.
  unfold Math_atan2.
  destruct (Rlt_dec 0 x) as [Hx | Hx].
  - pose proof (atan_bound (y / x)). lra.
  - destruct (Rlt_dec x 0) as [Hx' | Hx'].
    + destruct (Rle_dec 0 y) as [Hy | Hy].
      * assert (Hq : y / x <= 0).
        { unfold Rdiv. pose proof (Rinv_lt_0_compat x Hx'). nra. }
        pose proof (atan_bound (y / x)) as Hb.
        assert (Ha : atan (y / x) <= 0).
        { destruct Hq as [Hq | Hq].
          - left. rewrite <- atan_0. apply atan_increasing. assumption.
          - rewrite Hq, atan_0. lra. }
        lra.
      * assert (Hq : 0 < y / x).
        { unfold Rdiv. pose proof (Rinv_lt_0_compat x Hx'). nra. }
        pose proof (atan_bound (y / x)) as Hb.
        assert (Ha : 0 < atan (y / x)).
        { rewrite <- atan_0. apply atan_increasing. assumption. }
        lra.
    + destruct (Rlt_dec 0 y); [lra |].
      destruct (Rlt_dec y 0); lra.
Qed.

(** In degrees, shifted by a full turn and reduced, the angle of
    [Math.atan2] is a heading in [0, 360). *)
Lemma normalized_atan2_range (y x : R) :
  0 <= rem (Math_atan2 y x * 180 / Math_PI + 360) 360 < 360.
Proof.
  pose proof PI_RGT_0 as Hpi.
  pose proof (Math_atan2_range y x) as [Hlo Hhi].
  apply rem_range; [| lra].
  unfold Math_PI.
  assert (Hb : -180 <= Math_atan2 y x * 180 / PI).
  { apply (Rmult_le_reg_r PI); [assumption |].
    replace (Math_atan2 y x * 180 / PI * PI) with (Math_atan2 y x * 180)
      by (field; lra).
    lra. }
  lra.
Qed.

End NumberFacts.

(* ===================================================================== *)
(** ** Facts about the document operations                                *)
(* ===================================================================== *)

Section DomFacts.
Import DOM.

Lemma shape_setProperty (prop : string) (v : CssValue) (e : Element) :
  shape (setProperty prop v e) = shape e.
Proof.
  unfold setProperty. destruct (css_valid v); [| reflexivity].
  destruct v as [[| a s] | a s]; reflexivity.
Qed.

Lemma shape_withText (e : Element) (t : string) : shape (withText e t) = shape e.
Proof. reflexivity. Qed.

Lemma shapes_alter (f : Element -> Element) (i : nat) (d : Document) :
  (forall e, shape (f e) = shape e) -> shapes (alter f i d) = shapes d.
Proof.
  intros Hf. unfold shapes. revert i.
  induction d as [| e d IH]; intros [| i]; simpl; try reflexivity.
  - rewrite Hf. reflexivity.
  - f_equal. apply IH.
Qed.

Lemma shapes_setStyle (i : nat) (prop : string) (v : CssValue) (d : Document) :
  shapes (setStyle i prop v d) = shapes d.
Proof. apply shapes_alter. intros e. apply shape_setProperty. Qed.

Lemma shapes_setTextContent (i : nat) (t : string) (d : Document) :
  shapes (setTextContent i t d) = shapes d.
Proof. apply shapes_alter. intros e. apply shape_withText. Qed.

Lemma shapes_forEach (nodes : list nat) (body : nat -> Document -> Document)
  (d : Document) :
  (forall i d', shapes (body i d') = shapes d') ->
  shapes (forEach nodes body d) = shapes d.
Proof.
  intros Hb. unfold forEach. revert d.
  induction nodes as [| n nodes IH]; intros d; simpl; [reflexivity |].
  rewrite IH. apply Hb.
Qed.

Lemma shapes_length (d d' : Document) :
  shapes d = shapes d' -> length d = length d'.
Proof.
  intros H. unfold shapes in H.
  rewrite <- (length_fmap shape d), <- (length_fmap shape d'), H. reflexivity.
Qed.

Lemma shapes_lookup (d d' : Document) (i : nat) :
  shapes d = shapes d' -> shape <$> (d !! i) = shape <$> (d' !! i).
Proof.
  intros H. unfold shapes in H.
  rewrite <- (list_lookup_fmap shape d i), <- (list_lookup_fmap shape d' i), H.
  reflexivity.
Qed.

(** Two documents with the same shapes give, at every index, elements
    of the same shape or no element. *)
Lemma shapes_lookup_cases (d d' : Document) (i : nat) :
  shapes d = shapes d' ->
  (exists e e', d !! i = Some e /\ d' !! i = Some e' /\ shape e = shape e')
  \/ (d !! i = None /\ d' !! i = None).
Proof.
  intros H. pose proof (shapes_lookup d d' i H) as Hl.
  destruct (d !! i) as [e |], (d' !! i) as [e' |]; simpl in Hl;
    try discriminate.
  - left. exists e, e'. repeat split. congruence.
  - right. split; reflexivity.
Qed.

Lemma shape_parentNode (e e' : Element) :
  shape e = shape e' -> parentNode e = parentNode e'.
Proof. unfold shape. intros H. congruence. Qed.

Lemma shape_matchesCompound (e e' : Element) (c : Compound) :
  shape e = shape e' -> matchesCompound e c = matchesCompound e' c.
Proof.
  unfold shape. intros H.
  assert (Ht : tagName e = tagName e') by congruence.
  assert (Hc : classList e = classList e') by congruence.
  unfold matchesCompound, hasClass. rewrite Ht, Hc. reflexivity.
Qed.

Lemma isConnected_shapes (d d' : Document) (fuel : nat) (e e' : Element) :
  shapes d = shapes d' -> shape e = shape e' ->
  isConnected d fuel e = isConnected d' fuel e'.
Proof.
  intros Hd. revert e e'.
  induction fuel as [| f IH]; intros e e' He; simpl;
    rewrite (shape_parentNode e e' He);
    destruct (parentNode e') as [| j |]; try reflexivity.
  destruct (shapes_lookup_cases d d' j Hd)
    as [(p & p' & Hp & Hp' & Hs) | [Hp Hp']]; rewrite Hp, Hp'.
  - apply IH. assumption.
  - reflexivity.
Qed.

Lemma hasAncestor_shapes (d d' : Document) (a : Compound) (fuel : nat)
  (e e' : Element) :
  shapes d = shapes d' -> shape e = shape e' ->
  hasAncestor d (fun p => matchesCompound p a) fuel e
  = hasAncestor d' (fun p => matchesCompound p a) fuel e'.
Proof.
  intros Hd. revert e e'.
  induction fuel as [| f IH]; intros e e' He; simpl; [reflexivity |].
  rewrite (shape_parentNode e e' He).
  destruct (parentNode e') as [| j |]; try reflexivity.
  destruct (shapes_lookup_cases d d' j Hd)
    as [(p & p' & Hp & Hp' & Hs) | [Hp Hp']]; rewrite Hp, Hp'.
  - rewrite (shape_matchesCompound p p' a Hs), (IH p p' Hs). reflexivity.
  - reflexivity.
Qed.

Lemma matches_shapes (d d' : Document) (s : Selector) (e e' : Element) :
  shapes d = shapes d' -> shape e = shape e' ->
  matches d s e = matches d' s e'.
Proof.
  intros Hd He. destruct s as [c | a c]; simpl.
  - apply shape_matchesCompound. assumption.
  - rewrite (shape_matchesCompound e e' c He).
    rewrite (shapes_length d d' Hd).
    rewrite (hasAncestor_shapes d d' a (length d') e e' Hd He). reflexivity.
Qed.

Lemma selected_shapes (d d' : Document) (sels : list Selector) (i : nat) :
  shapes d = shapes d' -> selected d sels i = selected d' sels i.
Proof.
  intros Hd. unfold selected.
  destruct (shapes_lookup_cases d d' i Hd)
    as [(e & e' & He & He' & Hs) | [He He']]; rewrite He, He'; [| reflexivity].
  rewrite (shapes_length d d' Hd).
  rewrite (isConnected_shapes d d' (length d') e e' Hd Hs).
  f_equal. induction sels as [| s sels IH]; simpl; [reflexivity |].
  rewrite (matches_shapes d d' s e e' Hd Hs), IH. reflexivity.
Qed.

Lemma querySelectorAll_shapes (d d' : Document) (sels : list Selector) :
  shapes d = shapes d' -> querySelectorAll d sels = querySelectorAll d' sels.
Proof.
  intros Hd. unfold querySelectorAll. rewrite (shapes_length d d' Hd).
  apply filter_ext. intros i. apply selected_shapes. assumption.
Qed.

Lemma getElementById_shapes (d d' : Document) (name : string) :
  shapes d = shapes d' -> getElementById d name = getElementById d' name.
Proof.
  intros Hd. unfold getElementById. rewrite (shapes_length d d' Hd).
  f_equal. apply filter_ext. intros i. unfold hasId.
  destruct (shapes_lookup_cases d d' i Hd)
    as [(e & e' & He & He' & Hs) | [He He']]; rewrite He, He'; [| reflexivity].
  rewrite (shapes_length d d' Hd).
  rewrite (isConnected_shapes d d' (length d') e e' Hd Hs).
  unfold shape in Hs. replace (elementId e') with (elementId e) by congruence.
  reflexivity.
Qed.

Lemma parentElement_shapes (d d' : Document) (i : nat) :
  shapes d = shapes d' -> parentElement d i = parentElement d' i.
Proof.
  intros Hd. unfold parentElement.
  destruct (shapes_lookup_cases d d' i Hd)
    as [(e & e' & He & He' & Hs) | [He He']]; rewrite He, He'; [| reflexivity].
  rewrite (shape_parentNode e e' Hs). reflexivity.
Qed.

End DomFacts.

Section StyleFacts.
Import DOM.

Lemma querySelectorAll_In (d : Document) (sels : list Selector) (i : nat) :
  In i (querySelectorAll d sels) <-> selected d sels i = true.
Proof.
  unfold querySelectorAll. rewrite filter_In, in_seq. split.
  - intros [_ H]. exact H.
  - intros H. split; [| exact H].
    unfold selected in H. destruct (d !! i) as [e |] eqn:He; [| discriminate].
    apply lookup_lt_Some in He. lia.
Qed.

Lemma selected_lookup (d : Document) (sels : list Selector) (i : nat) :
  selected d sels i = true -> exists e, d !! i = Some e.
Proof.
  unfold selected. destruct (d !! i) as [e |]; [eauto | discriminate].
Qed.

Lemma getElementById_lookup (d : Document) (name : string) (i : nat) :
  getElementById d name = Some i -> exists e, d !! i = Some e.
Proof.
  unfold getElementById. intros H.
  assert (Hin : In i (List.filter (hasId d name) (seq 0 (length d)))).
  { destruct (List.filter (hasId d name) (seq 0 (length d))) as [| x l];
      simpl in H; [discriminate |]. injection H as ->. left. reflexivity. }
  apply filter_In in Hin. destruct Hin as [_ Hid].
  unfold hasId in Hid. destruct (d !! i) as [e |]; [eauto | discriminate].
Qed.

Lemma styleOf_setStyle_other (d : Document) (i j : nat) (p q : string)
  (v : CssValue) :
  i <> j \/ p <> q -> styleOf (setStyle i p v d) j q = styleOf d j q.
Proof.
  intros H. unfold styleOf, setStyle.
  destruct (Nat.eq_dec i j) as [-> | Hij].
  - rewrite list_lookup_alter_eq. destruct (d !! j) as [e |]; [| reflexivity].
    simpl. destruct H as [H | H]; [contradiction |].
    unfold setProperty. destruct (css_valid v); [| reflexivity].
    destruct v as [[| a s] | a s]; simpl.
    + apply lookup_delete_ne. assumption.
    + apply lookup_insert_ne. assumption.
    + apply lookup_insert_ne. assumption.
  - rewrite list_lookup_alter_ne by assumption. reflexivity.
Qed.

Lemma styleOf_setStyle_rotate (d : Document) (i : nat) (p : string) (a s : R) :
  (exists e, d !! i = Some e) ->
  styleOf (setStyle i p (Css_rotate_scale a s) d) i p
  = Some (Css_rotate_scale a s).
Proof.
  intros [e He]. unfold styleOf, setStyle.
  rewrite list_lookup_alter_eq, He. simpl. apply lookup_insert_eq.
Qed.

Lemma styleOf_setStyle_none (d : Document) (i : nat) (p : string) :
  (exists e, d !! i = Some e) ->
  styleOf (setStyle i p (Css_text "none") d) i p = Some (Css_text "none").
Proof.
  intros [e He]. unfold styleOf, setStyle.
  rewrite list_lookup_alter_eq, He. simpl. apply lookup_insert_eq.
Qed.

(** A value with [!important] changes nothing. *)
Lemma setStyle_invalid (d : Document) (i : nat) (p : string) (v : CssValue) :
  css_valid v = false -> setStyle i p v d = d.
Proof.
  intros H. unfold setStyle. apply list_alter_id. intros e.
  unfold setProperty. rewrite H. reflexivity.
Qed.

Lemma lookup_setStyle (d : Document) (i j : nat) (p : string) (v : CssValue) :
  (exists e, d !! j = Some e) -> exists e, setStyle i p v d !! j = Some e.
Proof.
  intros [e He]. unfold setStyle.
  destruct (Nat.eq_dec i j) as [-> | Hij].
  - rewrite list_lookup_alter_eq, He. simpl. eauto.
  - rewrite list_lookup_alter_ne by assumption. eauto.
Qed.

Lemma textOf_setStyle (d : Document) (i j : nat) (p : string) (v : CssValue) :
  textOf (setStyle i p v d) j = textOf d j.
Proof.
  unfold textOf, setStyle.
  destruct (Nat.eq_dec i j) as [-> | Hij].
  - rewrite list_lookup_alter_eq. destruct (d !! j) as [e |]; [| reflexivity].
    simpl. unfold setProperty. destruct (css_valid v); [| reflexivity].
    destruct v as [[| a s] | a s]; reflexivity.
  - rewrite list_lookup_alter_ne by assumption. reflexivity.
Qed.

Lemma textOf_setTextContent (d : Document) (i : nat) (t : string) :
  (exists e, d !! i = Some e) -> textOf (setTextContent i t d) i = Some t.
Proof.
  intros [e He]. unfold textOf, setTextContent.
  rewrite list_lookup_alter_eq, He. reflexivity.
Qed.

Lemma styleOf_setTextContent (d : Document) (i j : nat) (t q : string) :
  styleOf (setTextContent i t d) j q = styleOf d j q.
Proof.
  unfold styleOf, setTextContent.
  destruct (Nat.eq_dec i j) as [-> | Hij].
  - rewrite list_lookup_alter_eq. destruct (d !! j) as [e |]; reflexivity.
  - rewrite list_lookup_alter_ne by assumption. reflexivity.
Qed.

(** A property that every step of a loop keeps holds after the loop. *)
Lemma forEach_invariant (P : Document -> Prop) (nodes : list nat)
  (body : nat -> Document -> Document) (d : Document) :
  (forall i d', P d' -> P (body i d')) -> P d -> P (forEach nodes body d).
Proof.
  intros Hb. unfold forEach. revert d.
  induction nodes as [| n nodes IH]; intros d Hd; simpl; [assumption |].
  apply IH. apply Hb. assumption.
Qed.

(** A property that the step at [j] brings about (from [Q]) and every
    step keeps holds after a loop that visits [j]. *)
Lemma forEach_reach (P Q : Document -> Prop) (nodes : list nat)
  (body : nat -> Document -> Document) (j : nat) (d : Document) :
  In j nodes ->
  (forall i d', P d' -> P (body i d')) ->
  (forall i d', Q d' -> Q (body i d')) ->
  (forall d', Q d' -> P (body j d')) ->
  Q d -> P (forEach nodes body d).
Proof.
  intros Hin HP HQ Hj. unfold forEach. revert d.
  induction nodes as [| n nodes IH]; intros d Hd; simpl; [destruct Hin |].
  destruct Hin as [-> | Hin].
  - apply (forEach_invariant P nodes body); [assumption |].
    apply Hj. assumption.
  - apply IH; [assumption |]. apply HQ. assumption.
Qed.

Lemma shapes_forEachSelector (sels : list Selector)
  (body : nat -> Document -> Document) (d : Document) :
  (forall i d', shapes (body i d') = shapes d') ->
  shapes (forEachSelector sels body d) = shapes d.
Proof.
  intros Hb. unfold forEachSelector. revert d.
  induction sels as [| s sels IH]; intros d; simpl; [reflexivity |].
  rewrite IH. apply shapes_forEach. assumption.
Qed.

Lemma forEachSelector_invariant (P : Document -> Prop) (sels : list Selector)
  (body : nat -> Document -> Document) (d : Document) :
  (forall i d', P d' -> P (body i d')) -> P d ->
  P (forEachSelector sels body d).
Proof.
  intros Hb. unfold forEachSelector. revert d.
  induction sels as [| s sels IH]; intros d Hd; simpl; [assumption |].
  apply IH. apply forEach_invariant; assumption.
Qed.

(** The same for the nested loops, when the steps keep the shapes (so
    that every inner loop selects as in the first document). *)
Lemma forEachSelector_reach (P Q : Document -> Prop) (sels : list Selector)
  (body : nat -> Document -> Document) (s : Selector) (j : nat)
  (d : Document) :
  In s sels -> selected d [s] j = true ->
  (forall i d', shapes (body i d') = shapes d') ->
  (forall i d', P d' -> P (body i d')) ->
  (forall i d', Q d' -> Q (body i d')) ->
  (forall d', Q d' -> P (body j d')) ->
  Q d -> P (forEachSelector sels body d).
Proof.
  intros Hin Hsel Hshape HP HQ Hj. unfold forEachSelector. revert d Hsel.
  induction sels as [| s' sels IH]; intros d Hsel Hd; simpl; [destruct Hin |].
  destruct Hin as [-> | Hin].
  - apply (forEachSelector_invariant P sels body); [assumption |].
    apply (forEach_reach P Q _ body j); try assumption.
    apply querySelectorAll_In. assumption.
  - apply IH; [assumption | |].
    + rewrite <- Hsel. apply selected_shapes.
      apply shapes_forEach. assumption.
    + apply forEach_invariant; assumption.
Qed.

End StyleFacts.
(* ===================================================================== *)
(** ** js/track_up_mode.js: what each function changes                    *)
(* ===================================================================== *)

(* The document operations stay folded under [simpl]. *)
Arguments DOM.querySelectorAll : simpl never.
Arguments DOM.querySelector : simpl never.
Arguments DOM.getElementById : simpl never.
Arguments DOM.forEach : simpl never.
Arguments DOM.forEachSelector : simpl never.
Arguments DOM.setStyle : simpl never.
Arguments DOM.setTextContent : simpl never.
Arguments DOM.parentElement : simpl never.
Arguments DOM.styleOf : simpl never.
Arguments DOM.textOf : simpl never.

Section TrackUpFrames.
Import JS DOM Geolocation TrackUpMode.

Lemma setDocument_same (st : State) : setDocument st (document st) = st.
Proof. destruct st; reflexivity. Qed.

(** The status sink and the rotation applier write to the document and
    to nothing else. *)
Lemma updateTrackUpStatus_frame (status : string) (st : State) :
  updateTrackUpStatus status st
  = setDocument st (document (updateTrackUpStatus status st)).
Proof.
  unfold updateTrackUpStatus.
  destruct (getElementById (document st) "track-up-status");
    [reflexivity | symmetry; apply setDocument_same].
Qed.

Lemma updateMapRotation_frame (st : State) :
  updateMapRotation st = setDocument st (document (updateMapRotation st)).
Proof.
  unfold updateMapRotation.
  destruct (leafletMap st) as [[c |] |], (trackUpMode st);
    cbn [negb]; try (symmetry; apply setDocument_same); reflexivity.
Qed.

Lemma resetMapRotation_frame (st : State) :
  resetMapRotation st = setDocument st (document (resetMapRotation st)).
Proof.
  unfold resetMapRotation.
  destruct (leafletMap st) as [[c |] |];
    try (symmetry; apply setDocument_same); reflexivity.
Qed.

Lemma shapes_counterRotate (a : R) (i : nat) (d : Document) :
  shapes (counterRotate a i d) = shapes d.
Proof. unfold counterRotate. rewrite !shapes_setStyle. reflexivity. Qed.

Lemma shapes_rotateUIElement (a s : R) (i : nat) (d : Document) :
  shapes (rotateUIElement a s i d) = shapes d.
Proof. unfold rotateUIElement. rewrite !shapes_setStyle. reflexivity. Qed.

(** The loops over the custom indicators and over their containers
    assign values with [!important] only: they change nothing. *)
Lemma protectIndicator_same (i : nat) (d : Document) : protectIndicator i d = d.
Proof.
  unfold protectIndicator. rewrite !setStyle_invalid by reflexivity.
  destruct (parentElement d i); [apply setStyle_invalid |]; reflexivity.
Qed.

Lemma protectMarkerContainer_same (i : nat) (d : Document) :
  protectMarkerContainer i d = d.
Proof.
  unfold protectMarkerContainer.
  destruct (parentElement d i); [apply setStyle_invalid |]; reflexivity.
Qed.

Lemma forEach_same (nodes : list nat) (body : nat -> Document -> Document)
  (d : Document) :
  (forall i d', body i d' = d') -> forEach nodes body d = d.
Proof.
  intros Hb. apply (forEach_invariant (fun d' => d' = d)); [| reflexivity].
  intros i d' ->. apply Hb.
Qed.

(** [updateUIElementsRotation] without its two loops that do nothing. *)
Lemma updateUIElementsRotation_eq (a s : R) (d : Document) :
  updateUIElementsRotation a s d =
  let d1 :=
    forEachSelector [cls "leaflet-control"; cls "leaflet-popup"]
      (rotateUIElement a s) d in
  let d4 :=
    match querySelector d1 [cls "track-up-container-compact"] with
    | Some t => setStyle t "transform" (Css_text "none") d1
    | None => d1
    end in
  match querySelector d4 [cls "controls-compact"] with
  | Some c => setStyle c "transform" (Css_text "none") d4
  | None => d4
  end.
Proof.
  unfold updateUIElementsRotation. cbv zeta.
  rewrite (forEach_same _ protectIndicator) by apply protectIndicator_same.
  rewrite (forEach_same _ protectMarkerContainer)
    by apply protectMarkerContainer_same.
  reflexivity.
Qed.

Lemma shapes_updateUIElementsRotation (a s : R) (d : Document) :
  shapes (updateUIElementsRotation a s d) = shapes d.
Proof.
  rewrite updateUIElementsRotation_eq. cbv zeta.
  repeat match goal with
         | |- context [match ?x with Some _ => _ | None => _ end] => destruct x
         end;
    rewrite ?shapes_setStyle;
    apply shapes_forEachSelector; intros; apply shapes_rotateUIElement.
Qed.

Lemma shapes_updateTrackUpStatus (status : string) (st : State) :
  shapes (document (updateTrackUpStatus status st)) = shapes (document st).
Proof.
  unfold updateTrackUpStatus.
  destruct (getElementById (document st) "track-up-status"); [| reflexivity].
  cbn [document setDocument].
  destruct (String.eqb status "Track Up Active");
    [| destruct (String.eqb status "GPS Error")];
    rewrite !shapes_setStyle; apply shapes_setTextContent.
Qed.

Lemma shapes_updateMapRotation (st : State) :
  shapes (document (updateMapRotation st)) = shapes (document st).
Proof.
  unfold updateMapRotation.
  destruct (leafletMap st) as [[c |] |];
    [| destruct (trackUpMode st); reflexivity | reflexivity].
  destruct (trackUpMode st); [| reflexivity].
  cbn [negb document setDocument].
  rewrite shapes_forEachSelector by (intros; apply shapes_counterRotate).
  destruct (parentElement _ c); rewrite !shapes_setStyle; reflexivity.
Qed.

Lemma shapes_resetMapRotation (st : State) :
  shapes (document (resetMapRotation st)) = shapes (document st).
Proof.
  unfold resetMapRotation.
  destruct (leafletMap st) as [[c |] |]; [| reflexivity | reflexivity].
  cbn [document setDocument].
  rewrite shapes_updateUIElementsRotation.
  destruct (parentElement _ c); rewrite !shapes_setStyle; reflexivity.
Qed.

End TrackUpFrames.

(* ===================================================================== *)
(** ** js/track_up_mode.js: the heading estimator                         *)
(* ===================================================================== *)

Section TrackUpHeading.
Import JS DOM Geolocation TrackUpMode Spec.

Lemma currentHeading_updateMapRotation (st : State) :
  currentHeading (updateMapRotation st) = currentHeading st.
Proof. rewrite updateMapRotation_frame. reflexivity. Qed.

Lemma headingStateT_updateMapRotation (st : State) :
  headingStateT (updateMapRotation st) = headingStateT st.
Proof. rewrite updateMapRotation_frame. reflexivity. Qed.

Lemma headingStateT_resetMapRotation (st : State) :
  headingStateT (resetMapRotation st) = headingStateT st.
Proof. rewrite resetMapRotation_frame. reflexivity. Qed.

Lemma headingStateT_updateTrackUpStatus (status : string) (st : State) :
  headingStateT (updateTrackUpStatus status st) = headingStateT st.
Proof. rewrite updateTrackUpStatus_frame. reflexivity. Qed.

Lemma trackUpMode_updateMapRotation (st : State) :
  trackUpMode (updateMapRotation st) = trackUpMode st.
Proof. rewrite updateMapRotation_frame. reflexivity. Qed.

Lemma trackUpMode_resetMapRotation (st : State) :
  trackUpMode (resetMapRotation st) = trackUpMode st.
Proof. rewrite resetMapRotation_frame. reflexivity. Qed.

Lemma trackUpMode_updateTrackUpStatus (status : string) (st : State) :
  trackUpMode (updateTrackUpStatus status st) = trackUpMode st.
Proof. rewrite updateTrackUpStatus_frame. reflexivity. Qed.

(** A mode change sets the mode and leaves the Heading State alone. *)
Lemma headingStateT_onToggleChange (checked : bool) (st : State) :
  headingStateT (onToggleChange checked st) = headingStateT st.
Proof.
  unfold onToggleChange, updateTrackUpMode.
  destruct checked; cbn [trackUpMode setTrackUpMode].
  - rewrite headingStateT_updateMapRotation.
    match goal with
    | |- context [if ?b then _ else _] => destruct b
    end; cbn [headingStateT currentHeading lastValidHeading lastPosition
                setHeadingUpdateInterval setDocument setMapRotationEnabled];
      apply (headingStateT_updateTrackUpStatus _ (setTrackUpMode st true)).
  - rewrite headingStateT_resetMapRotation.
    match goal with
    | |- context [if ?b then _ else _] => destruct b
    end; cbn [headingStateT currentHeading lastValidHeading lastPosition
                setHeadingUpdateInterval setDocument setMapRotationEnabled];
      apply (headingStateT_updateTrackUpStatus _ (setTrackUpMode st false)).
Qed.

Lemma trackUpMode_onToggleChange (checked : bool) (st : State) :
  trackUpMode (onToggleChange checked st) = checked.
Proof.
  unfold onToggleChange, updateTrackUpMode.
  destruct checked; cbn [trackUpMode setTrackUpMode].
  - rewrite trackUpMode_updateMapRotation.
    match goal with
    | |- context [if ?b then _ else _] => destruct b
    end; cbn [trackUpMode setHeadingUpdateInterval setDocument
                setMapRotationEnabled];
      apply (trackUpMode_updateTrackUpStatus _ (setTrackUpMode st true)).
  - rewrite trackUpMode_resetMapRotation.
    match goal with
    | |- context [if ?b then _ else _] => destruct b
    end; cbn [trackUpMode setHeadingUpdateInterval setDocument
                setMapRotationEnabled];
      apply (trackUpMode_updateTrackUpStatus _ (setTrackUpMode st false)).
Qed.

Lemma headingStateT_onInterval (st : State) :
  headingStateT (onInterval st) = headingStateT st.
Proof.
  unfold onInterval. destruct (trackUpMode st); [| reflexivity].
  cbn [headingStateT currentHeading lastValidHeading lastPosition setDocument].
  apply headingStateT_updateMapRotation.
Qed.

Lemma trackUpMode_onInterval (st : State) :
  trackUpMode (onInterval st) = trackUpMode st.
Proof.
  unfold onInterval. destruct (trackUpMode st) eqn:E; [| assumption].
  cbn [trackUpMode setDocument].
  rewrite trackUpMode_updateMapRotation. assumption.
Qed.

(** *** Method 1 *)

(** With a direct heading that is a number the callback never reads
    [lastPosition]: the heading is adopted and cached when the speed is
    unknown or above 0.3, and otherwise [newHeading] stays what it was. *)
Lemma selectHeading_direct (position : Position) (st : State) (h : R) :
  heading (coords position) = Some (Num h) ->
  selectHeading position st =
  if nullOrAbove (speed (coords position)) 0.3
  then Normal h (setLastValidHeading st h)
  else Normal (currentHeading st) st.
Proof.
  intros Hh. unfold selectHeading, bind, get. rewrite Hh.
  destruct (nullOrAbove (speed (coords position)) 0.3); reflexivity.
Qed.

(** Without one, the first thing the callback does is read
    [lastPosition]. *)
Lemma selectHeading_unresolvable (position : Position) (st : State) :
  (forall h, heading (coords position) <> Some (Num h)) ->
  lastPosition st = Unresolvable ->
  selectHeading position st = Throw (ReferenceError "lastPosition" GetValue) st.
Proof.
  intros Hh Hl. unfold selectHeading, bind, get, readLastPosition.
  destruct (heading (coords position)) as [[| h] |].
  - rewrite Hl. reflexivity.
  - exfalso. apply (Hh h). reflexivity.
  - rewrite Hl. reflexivity.
Qed.

(** *** The jitter gate *)

Lemma currentHeading_commitHeading (newHeading : R) (st : State) :
  currentHeading (commitHeading newHeading st) =
  if gtb (Math_abs (newHeading - currentHeading st)) 3
  then newHeading else currentHeading st.
Proof.
  unfold commitHeading.
  destruct (gtb (Math_abs (newHeading - currentHeading st)) 3); [| reflexivity].
  destruct (trackUpMode (setCurrentHeading st newHeading)); [| reflexivity].
  rewrite updateTrackUpStatus_frame. cbn [currentHeading setDocument].
  rewrite currentHeading_updateMapRotation. reflexivity.
Qed.

Lemma lastValidHeading_commitHeading (newHeading : R) (st : State) :
  lastValidHeading (commitHeading newHeading st) = lastValidHeading st.
Proof.
  unfold commitHeading.
  destruct (gtb (Math_abs (newHeading - currentHeading st)) 3); [| reflexivity].
  destruct (trackUpMode (setCurrentHeading st newHeading)); [| reflexivity].
  rewrite updateTrackUpStatus_frame. cbn [lastValidHeading setDocument].
  rewrite updateMapRotation_frame. reflexivity.
Qed.

Lemma lastPosition_commitHeading (newHeading : R) (st : State) :
  lastPosition (commitHeading newHeading st) = lastPosition st.
Proof.
  unfold commitHeading.
  destruct (gtb (Math_abs (newHeading - currentHeading st)) 3); [| reflexivity].
  destruct (trackUpMode (setCurrentHeading st newHeading)); [| reflexivity].
  rewrite updateTrackUpStatus_frame. cbn [lastPosition setDocument].
  rewrite updateMapRotation_frame. reflexivity.
Qed.

Lemma trackUpMode_commitHeading (newHeading : R) (st : State) :
  trackUpMode (commitHeading newHeading st) = trackUpMode st.
Proof.
  unfold commitHeading.
  destruct (gtb (Math_abs (newHeading - currentHeading st)) 3); [| reflexivity].
  destruct (trackUpMode (setCurrentHeading st newHeading)) eqn:E; [| reflexivity].
  rewrite updateTrackUpStatus_frame. cbn [trackUpMode setDocument].
  rewrite updateMapRotation_frame. reflexivity.
Qed.

(** The last statement of the callback: it completes or raises, and
    leaves the two headings as they are. *)
Lemma assignLastPosition_cases (v : StoredPosition) (st : State) :
  (lastPosition st = Unresolvable
   /\ assignLastPosition v st = Throw (ReferenceError "lastPosition" PutValue) st)
  \/ (exists w, lastPosition st = Bound w
      /\ assignLastPosition v st = Normal tt (setLastPosition st (Bound (Some v)))).
Proof.
  unfold assignLastPosition. destruct (lastPosition st) as [| w].
  - left. split; reflexivity.
  - right. exists w. split; reflexivity.
Qed.

Lemma currentHeading_assignLastPosition (v : StoredPosition) (st : State) :
  currentHeading (stateOf (assignLastPosition v st)) = currentHeading st.
Proof. unfold assignLastPosition. destruct (lastPosition st); reflexivity. Qed.

Lemma lastValidHeading_assignLastPosition (v : StoredPosition) (st : State) :
  lastValidHeading (stateOf (assignLastPosition v st)) = lastValidHeading st.
Proof. unfold assignLastPosition. destruct (lastPosition st); reflexivity. Qed.

Lemma trackUpMode_assignLastPosition (v : StoredPosition) (st : State) :
  trackUpMode (stateOf (assignLastPosition v st)) = trackUpMode st.
Proof. unfold assignLastPosition. destruct (lastPosition st); reflexivity. Qed.

(** The callback, once the value of [newHeading] is known. *)
Lemma positionCallback_selected (position : Position) (now : Z)
  (st st1 : State) (newHeading : R) :
  selectHeading position st = Normal newHeading st1 ->
  positionCallback position now st =
  assignLastPosition
    {| sp_latitude := latitude (coords position);
       sp_longitude := longitude (coords position);
       sp_timestamp := now |}
    (commitHeading newHeading st1).
Proof.
  intros H. unfold positionCallback, bind, modify. rewrite H. reflexivity.
Qed.

Lemma positionCallback_thrown (position : Position) (now : Z)
  (st st1 : State) (e : Error) :
  selectHeading position st = Throw e st1 ->
  positionCallback position now st = Throw e st1.
Proof.
  intros H. unfold positionCallback, bind. rewrite H. reflexivity.
Qed.

End TrackUpHeading.

Section TrackUpRange.
Import JS DOM Geolocation TrackUpMode Spec.

(** Whatever method gives [newHeading], it is a heading when the two
    stored headings and the sample's direct heading are. *)
Lemma selectHeading_range (position : Position) (st : State) :
  inRangeT st -> wfPosition position ->
  match selectHeading position st with
  | Normal newHeading st1 =>
      inRange newHeading /\ inRangeT st1
      /\ currentHeading st1 = currentHeading st
      /\ trackUpMode st1 = trackUpMode st
  | Throw _ st1 => st1 = st
  end.
Proof.
  intros [[Hc1 Hc2] [Hl1 Hl2]] Hwf. unfold wfPosition in Hwf.
  unfold selectHeading, bind, get, modify, ret, readLastPosition.
  destruct (heading (coords position)) as [[| h] |];
    [ destruct (lastPosition st) as [| [lp |]]; [reflexivity | |]
    | | destruct (lastPosition st) as [| [lp |]]; [reflexivity | |] ];
    repeat match goal with
           | |- context [if ?b then _ else _] => destruct b
           end;
    unfold inRangeT, inRange in *;
    cbn [currentHeading lastValidHeading trackUpMode setLastValidHeading];
    repeat split; try reflexivity; try lra;
    unfold bearing; apply normalized_atan2_range.
Qed.

Lemma inRangeT_commitHeading (newHeading : R) (st : State) :
  inRange newHeading -> inRangeT st -> inRangeT (commitHeading newHeading st).
Proof.
  intros Hn [Hc Hl]. split.
  - rewrite currentHeading_commitHeading. destruct (gtb _ 3); assumption.
  - rewrite lastValidHeading_commitHeading. assumption.
Qed.

Lemma inRangeT_headingState (st st' : State) :
  headingStateT st' = headingStateT st -> inRangeT st -> inRangeT st'.
Proof.
  unfold headingStateT, inRangeT. intros H [Hc Hl].
  injection H as H1 H2 H3. rewrite H1, H2. split; assumption.
Qed.

(** The compass heading is a heading when [alpha] is. *)
Lemma compass_range (a : R) : inRange a -> inRange (rem (360 - a) 360).
Proof. intros [Hlo Hhi]. apply rem_range; lra. Qed.

Lemma inRangeT_onDeviceOrientation (alpha : option R) (st : State) :
  match alpha with Some a => inRange a | None => True end ->
  inRangeT st -> inRangeT (onDeviceOrientation alpha st).
Proof.
  intros Ha [Hc Hl]. unfold onDeviceOrientation.
  destruct alpha as [a |]; [| split; assumption].
  destruct (trackUpMode st && eqb (currentHeading st) 0); [| split; assumption].
  unfold inRangeT. rewrite updateMapRotation_frame.
  cbn [currentHeading lastValidHeading setDocument setCurrentHeading].
  split; [apply compass_range |]; assumption.
Qed.

(** Every event keeps the headings in range. *)
Lemma inRangeT_step (st : State) (ev : Event) :
  wfEventT ev -> inRangeT st -> inRangeT (step st ev).
Proof.
  intros Hwf Hst. destruct ev as [position now | | alpha | checked |];
    cbn [step].
  - pose proof (selectHeading_range position st Hst Hwf) as Hs.
    destruct (selectHeading position st) as [newHeading st1 | e st1] eqn:E.
    + destruct Hs as (Hn & Hr & _).
      rewrite (positionCallback_selected position now st st1 newHeading E).
      pose proof (inRangeT_commitHeading newHeading st1 Hn Hr) as [H1 H2].
      split.
      * rewrite currentHeading_assignLastPosition. assumption.
      * rewrite lastValidHeading_assignLastPosition. assumption.
    + rewrite (positionCallback_thrown position now st st1 e E).
      subst st1. assumption.
  - apply (inRangeT_headingState st); [| assumption].
    apply headingStateT_updateTrackUpStatus.
  - apply inRangeT_onDeviceOrientation; [| assumption].
    destruct alpha; exact Hwf.
  - apply (inRangeT_headingState st); [| assumption].
    apply headingStateT_onToggleChange.
  - destruct (headingUpdateInterval st); [| assumption].
    apply (inRangeT_headingState st); [| assumption].
    apply headingStateT_onInterval.
Qed.

Lemma committed_inRange (evs : list Event) (st : State) :
  Forall wfEventT evs -> inRangeT st -> Forall inRange (committed evs st).
Proof.
  revert st. induction evs as [| ev evs IH]; intros st Hwf Hst; simpl.
  - constructor.
  - inversion Hwf as [| ? ? Hev Hevs]; subst.
    pose proof (inRangeT_step st ev Hev Hst) as Hst'.
    constructor; [apply Hst' | apply IH; assumption].
Qed.

(** The name [lastPosition] stays unresolvable: strict code cannot
    create the binding. *)
Lemma lastPosition_selectHeading (position : Position) (st : State) :
  lastPosition st = Unresolvable ->
  lastPosition (stateOf (selectHeading position st)) = Unresolvable.
Proof.
  intros Hl. destruct (heading (coords position)) as [[| h] |] eqn:Hh.
  - rewrite selectHeading_unresolvable; [assumption | | assumption].
    intros h. rewrite Hh. discriminate.
  - rewrite (selectHeading_direct position st h Hh).
    destruct (nullOrAbove _ _); assumption.
  - rewrite selectHeading_unresolvable; [assumption | | assumption].
    intros h. rewrite Hh. discriminate.
Qed.

Lemma lastPosition_step (st : State) (ev : Event) :
  lastPosition st = Unresolvable -> lastPosition (step st ev) = Unresolvable.
Proof.
  intros Hl.
  assert (Hf : forall st', headingStateT st' = headingStateT st ->
                           lastPosition st' = Unresolvable).
  { intros st' H. unfold headingStateT in H. injection H as _ _ H.
    congruence. }
  destruct ev as [position now | | alpha | checked |]; cbn [step].
  - pose proof (lastPosition_selectHeading position st Hl) as Hs.
    destruct (selectHeading position st) as [newHeading st1 | e st1] eqn:E;
      cbn [stateOf] in Hs.
    + rewrite (positionCallback_selected position now st st1 newHeading E).
      unfold assignLastPosition. rewrite lastPosition_commitHeading, Hs.
      cbn [stateOf]. rewrite lastPosition_commitHeading. assumption.
    + rewrite (positionCallback_thrown position now st st1 e E). assumption.
  - apply Hf. apply headingStateT_updateTrackUpStatus.
  - unfold onDeviceOrientation. destruct alpha as [a |]; [| assumption].
    destruct (trackUpMode st && eqb (currentHeading st) 0); [| assumption].
    rewrite updateMapRotation_frame. assumption.
  - apply Hf. apply headingStateT_onToggleChange.
  - destruct (headingUpdateInterval st); [| assumption].
    apply Hf. apply headingStateT_onInterval.
Qed.

Lemma lastPosition_run (evs : list Event) (st : State) :
  lastPosition st = Unresolvable -> lastPosition (run evs st) = Unresolvable.
Proof.
  unfold run. revert st.
  induction evs as [| ev evs IH]; intros st H; simpl; [assumption |].
  apply IH. apply lastPosition_step. assumption.
Qed.

End TrackUpRange.

(* ===================================================================== *)
(** ** js/simple_track_up.js                                              *)
(* ===================================================================== *)

Section SimpleFacts.
Import JS DOM Geolocation SimpleTrackUp Spec.

Lemma simple_setDocument_same (st : State) : setDocument st (document st) = st.
Proof. destruct st; reflexivity. Qed.

Lemma updateStatus_frame (text : string) (st : State) :
  updateStatus text st = setDocument st (document (updateStatus text st)).
Proof.
  unfold updateStatus.
  destruct (getElementById (document st) "track-up-status");
    [reflexivity | symmetry; apply simple_setDocument_same].
Qed.

Lemma rotateMap_frame (st : State) :
  rotateMap st = setDocument st (document (rotateMap st)).
Proof.
  unfold rotateMap.
  destruct (leafletMap st) as [[c |] |], (trackUpEnabled st);
    cbn [negb]; try (symmetry; apply simple_setDocument_same); reflexivity.
Qed.

Lemma simple_resetMapRotation_frame (st : State) :
  resetMapRotation st = setDocument st (document (resetMapRotation st)).
Proof.
  unfold resetMapRotation.
  destruct (leafletMap st) as [[c |] |];
    try (symmetry; apply simple_setDocument_same); reflexivity.
Qed.

Lemma headingStateS_updateStatus (text : string) (st : State) :
  headingStateS (updateStatus text st) = headingStateS st.
Proof. rewrite updateStatus_frame. reflexivity. Qed.

Lemma headingStateS_rotateMap (st : State) :
  headingStateS (rotateMap st) = headingStateS st.
Proof. rewrite rotateMap_frame. reflexivity. Qed.

Lemma headingStateS_resetMapRotation (st : State) :
  headingStateS (resetMapRotation st) = headingStateS st.
Proof. rewrite simple_resetMapRotation_frame. reflexivity. Qed.

Lemma currentHeading_updateStatus (text : string) (st : State) :
  currentHeading (updateStatus text st) = currentHeading st.
Proof. rewrite updateStatus_frame. reflexivity. Qed.

Lemma currentHeading_rotateMap (st : State) :
  currentHeading (rotateMap st) = currentHeading st.
Proof. rewrite rotateMap_frame. reflexivity. Qed.

Lemma watches_updateStatus (text : string) (st : State) :
  watches (updateStatus text st) = watches st.
Proof. rewrite updateStatus_frame. reflexivity. Qed.

Lemma watches_rotateMap (st : State) : watches (rotateMap st) = watches st.
Proof. rewrite rotateMap_frame. reflexivity. Qed.

Lemma currentHeading_clearWatch (st : State) :
  currentHeading (clearWatch st) = currentHeading st.
Proof. unfold clearWatch. destruct (headingWatchId st) as [[| n] |]; reflexivity. Qed.

Lemma currentHeading_onToggleChange (checked : bool) (st : State) :
  currentHeading (onToggleChange checked st) = currentHeading st.
Proof.
  unfold onToggleChange. destruct checked; cbn [trackUpEnabled setTrackUpEnabled].
  - unfold startTrackUp.
    destruct (geolocation _);
      [unfold watchPosition; cbn [currentHeading]
      | rewrite currentHeading_updateStatus ];
      apply (currentHeading_updateStatus _ (setTrackUpEnabled st true)).
  - unfold stopTrackUp. rewrite currentHeading_updateStatus.
    rewrite simple_resetMapRotation_frame. cbn [currentHeading setDocument].
    apply (currentHeading_clearWatch (setTrackUpEnabled st false)).
Qed.

(** Method 1: the direct heading is committed as it comes. *)
Lemma simple_direct (position : Position) (st : State) (h : R) :
  heading (coords position) = Some (Num h) ->
  currentHeading (positionCallback position st) =
  if nullOrAbove (speed (coords position)) 0.5 then h else currentHeading st.
Proof.
  intros Hh. unfold positionCallback. rewrite Hh.
  cbn [currentHeading setLastKnownPosition].
  destruct (nullOrAbove (speed (coords position)) 0.5); [| reflexivity].
  rewrite currentHeading_updateStatus, currentHeading_rotateMap. reflexivity.
Qed.

(** Method 2: the planar bearing of the raw coordinate differences. *)
Lemma simple_computed (position : Position) (st : State) (last : KnownPosition) :
  (forall h, heading (coords position) <> Some (Num h)) ->
  lastKnownPosition st = Some last ->
  truthy (speed (coords position)) && above (speed (coords position)) 1.0 = true ->
  gtb (Math_abs (latitude (coords position) - kp_latitude last)) 0.0001
  || gtb (Math_abs (longitude (coords position) - kp_longitude last)) 0.0001
  = true ->
  currentHeading (positionCallback position st)
  = rem (planarBearing last (coords position) + 360) 360.
Proof.
  intros Hh Hl Hv Hm. unfold positionCallback.
  cbn [currentHeading setLastKnownPosition].
  destruct (heading (coords position)) as [[| h] |];
    try (exfalso; apply (Hh h); reflexivity);
    rewrite Hl, Hv, Hm;
    rewrite currentHeading_updateStatus, currentHeading_rotateMap; reflexivity.
Qed.

(** The callback keeps the committed heading a heading. *)
Lemma inRange_positionCallback (position : Position) (st : State) :
  wfPosition position -> inRange (currentHeading st) ->
  inRange (currentHeading (positionCallback position st)).
Proof.
  intros Hwf Hc. unfold wfPosition in Hwf. unfold positionCallback.
  cbn [currentHeading setLastKnownPosition].
  destruct (heading (coords position)) as [[| h] |];
    repeat match goal with
           | |- context [match ?b with _ => _ end] => destruct b
           end;
    rewrite ?currentHeading_updateStatus, ?currentHeading_rotateMap;
    cbn [currentHeading setCurrentHeading];
    try assumption;
    unfold planarBearing; apply normalized_atan2_range.
Qed.

Lemma simple_inRange_step (st : State) (ev : Event) :
  wfEventS ev -> inRange (currentHeading st) -> inRange (currentHeading (step st ev)).
Proof.
  intros Hwf Hc. destruct ev as [position | | checked]; cbn [step].
  - destruct (watches st); [assumption |].
    apply inRange_positionCallback; assumption.
  - destruct (watches st); [assumption |].
    unfold errorCallback. rewrite currentHeading_updateStatus. assumption.
  - rewrite currentHeading_onToggleChange. assumption.
Qed.

Lemma simple_committed_inRange (evs : list Event) (st : State) :
  Forall wfEventS evs -> inRange (currentHeading st) ->
  Forall inRange (committed evs st).
Proof.
  revert st. induction evs as [| ev evs IH]; intros st Hwf Hst; simpl.
  - constructor.
  - inversion Hwf as [| ? ? Hev Hevs]; subst.
    pose proof (simple_inRange_step st ev Hev Hst) as Hst'.
    constructor; [apply Hst' | apply IH; assumption].
Qed.

End SimpleFacts.

(* ===================================================================== *)
(** ** The rotation applier: which elements get which transform          *)
(* ===================================================================== *)

Section LoopFacts.
Import DOM.

(** A loop whose steps change the visited element only leaves an
    element it does not visit as it was. *)
Lemma forEach_untouched (nodes : list nat) (body : nat -> Document -> Document)
  (j : nat) (d : Document) :
  ~ In j nodes ->
  (forall i d', i <> j -> body i d' !! j = d' !! j) ->
  forEach nodes body d !! j = d !! j.
Proof.
  intros Hn Hb. unfold forEach. revert d.
  induction nodes as [| n nodes IH]; intros d; simpl; [reflexivity |].
  rewrite IH.
  - apply Hb. intros ->. apply Hn. left. reflexivity.
  - intros H. apply Hn. right. assumption.
Qed.

Lemma selected_single (d : Document) (sels : list Selector) (s : Selector)
  (j : nat) :
  In s sels -> selected d sels j = false -> selected d [s] j = false.
Proof.
  intros Hin. unfold selected. destruct (d !! j) as [e |]; [| reflexivity].
  destruct (isConnected d (length d) e); [| reflexivity].
  cbn [andb existsb]. intros H. rewrite orb_false_r.
  destruct (matches d s e) eqn:Hm; [| reflexivity].
  rewrite <- H. symmetry. apply existsb_exists. exists s. split; assumption.
Qed.

Lemma forEachSelector_untouched (sels : list Selector)
  (body : nat -> Document -> Document) (j : nat) (d : Document) :
  selected d sels j = false ->
  (forall i d', shapes (body i d') = shapes d') ->
  (forall i d', i <> j -> body i d' !! j = d' !! j) ->
  forEachSelector sels body d !! j = d !! j.
Proof.
  intros Hsel Hshape Hb.
  assert (Hall : forall s, In s sels -> selected d [s] j = false).
  { intros s Hs. apply (selected_single d sels); assumption. }
  clear Hsel. unfold forEachSelector. revert d Hall.
  induction sels as [| s sels IH]; intros d Hall; simpl; [reflexivity |].
  rewrite IH.
  - apply forEach_untouched; [| assumption].
    rewrite querySelectorAll_In, Hall; [discriminate |]. left. reflexivity.
  - intros s' Hs'. rewrite <- (Hall s'); [| right; assumption].
    apply selected_shapes. apply shapes_forEach. assumption.
Qed.

Lemma setStyle_lookup_ne (d : Document) (i j : nat) (p : string) (v : CssValue) :
  i <> j -> setStyle i p v d !! j = d !! j.
Proof. intros H. unfold setStyle. apply list_lookup_alter_ne. assumption. Qed.

Lemma styleOf_lookup (d d' : Document) (j : nat) (p : string) :
  d' !! j = d !! j -> styleOf d' j p = styleOf d j p.
Proof. intros H. unfold styleOf. rewrite H. reflexivity. Qed.

Lemma styleOf_Some_lookup (d : Document) (j : nat) (p : string) (v : CssValue) :
  styleOf d j p = Some v -> exists e, d !! j = Some e.
Proof.
  unfold styleOf. destruct (d !! j) as [e |]; [eauto | discriminate].
Qed.

End LoopFacts.

Section TrackUpApplier.
Import JS DOM Geolocation TrackUpMode Spec.

Lemma counterRotate_lookup_ne (a : R) (i j : nat) (d : Document) :
  i <> j -> counterRotate a i d !! j = d !! j.
Proof.
  intros H. unfold counterRotate. rewrite !setStyle_lookup_ne by assumption.
  reflexivity.
Qed.

Lemma counterRotate_transform (a : R) (j : nat) (d : Document) :
  (exists e, d !! j = Some e) ->
  styleOf (counterRotate a j d) j "transform"
  = Some (Css_rotate_scale (- a) (1 / scale)).
Proof.
  intros H. unfold counterRotate.
  rewrite !styleOf_setStyle_other by (right; discriminate).
  apply styleOf_setStyle_rotate. assumption.
Qed.

Lemma counterRotate_keeps (a : R) (i j : nat) (d : Document) :
  styleOf d j "transform" = Some (Css_rotate_scale (- a) (1 / scale)) ->
  styleOf (counterRotate a i d) j "transform"
  = Some (Css_rotate_scale (- a) (1 / scale)).
Proof.
  intros H. destruct (Nat.eq_dec i j) as [-> | Hij].
  - apply counterRotate_transform. apply (styleOf_Some_lookup _ _ _ _ H).
  - rewrite <- H. apply styleOf_lookup. apply counterRotate_lookup_ne.
    assumption.
Qed.

Lemma counterRotate_exists (a : R) (i j : nat) (d : Document) :
  (exists e, d !! j = Some e) -> exists e, counterRotate a i d !! j = Some e.
Proof.
  intros H. unfold counterRotate. repeat apply lookup_setStyle. assumption.
Qed.

(** The document on which the loops of [updateMapRotation] start has
    the shapes of the one the function was called on. *)
Lemma updateMapRotation_document (st : State) (c : nat) :
  trackUpMode st = true -> leafletMap st = Some (Some c) ->
  exists d2,
    document (updateMapRotation st)
    = forEachSelector elementsToCounterRotate
        (counterRotate (- currentHeading st)) d2
    /\ shapes d2 = shapes (document st)
    /\ (forall j, (exists e, document st !! j = Some e) ->
                  exists e, d2 !! j = Some e)
    /\ ((exists e, document st !! c = Some e) ->
        styleOf d2 c "transform"
        = Some (Css_rotate_scale (- currentHeading st) scale))
    /\ (forall j, j <> c ->
                  styleOf d2 j "transform" = styleOf (document st) j "transform").
Proof.
  intros Hm Hl. unfold updateMapRotation. rewrite Hl, Hm.
  cbn [negb document setDocument].
  eexists. split; [reflexivity |].
  destruct (parentElement _ c) as [mapParent |].
  - split; [rewrite !shapes_setStyle; reflexivity |].
    split; [intros j Hj; repeat apply lookup_setStyle; assumption |].
    split.
    + intros Hc. rewrite !styleOf_setStyle_other by (right; discriminate).
      apply styleOf_setStyle_rotate. assumption.
    + intros j Hj.
      rewrite 3 styleOf_setStyle_other by (right; discriminate).
      rewrite !styleOf_setStyle_other by (left; congruence). reflexivity.
  - split; [rewrite !shapes_setStyle; reflexivity |].
    split; [intros j Hj; repeat apply lookup_setStyle; assumption |].
    split.
    + intros Hc. rewrite !styleOf_setStyle_other by (right; discriminate).
      apply styleOf_setStyle_rotate. assumption.
    + intros j Hj.
      rewrite !styleOf_setStyle_other by (left; congruence). reflexivity.
Qed.

(** Every element one of the four selectors matches gets the rotation
    by the heading and the reciprocal scale. *)
Lemma updateMapRotation_overlay (st : State) (c j : nat) (s : Selector) :
  trackUpMode st = true -> leafletMap st = Some (Some c) ->
  In s elementsToCounterRotate -> selected (document st) [s] j = true ->
  styleOf (document (updateMapRotation st)) j "transform"
  = Some (Css_rotate_scale (currentHeading st) (1 / scale)).
Proof.
  intros Hm Hl Hs Hsel.
  destruct (updateMapRotation_document st c Hm Hl)
    as (d2 & -> & Hshape & Hex & _ & _).
  rewrite <- (Ropp_involutive (currentHeading st)) at 2.
  apply (forEachSelector_reach
           (fun d => styleOf d j "transform"
                     = Some (Css_rotate_scale (- - currentHeading st) (1 / scale)))
           (fun d => exists e, d !! j = Some e)
           elementsToCounterRotate _ s j d2); try assumption.
  - rewrite <- Hsel. apply selected_shapes. assumption.
  - intros i d'. apply shapes_counterRotate.
  - intros i d'. apply counterRotate_keeps.
  - intros i d'. apply counterRotate_exists.
  - intros d'. apply counterRotate_transform.
  - apply Hex. apply (selected_lookup _ _ _ Hsel).
Qed.

(** An element none of them matches keeps its transform, unless it is
    the map container. *)
Lemma updateMapRotation_untouched (st : State) (c j : nat) :
  trackUpMode st = true -> leafletMap st = Some (Some c) ->
  selected (document st) elementsToCounterRotate j = false -> j <> c ->
  styleOf (document (updateMapRotation st)) j "transform"
  = styleOf (document st) j "transform".
Proof.
  intros Hm Hl Hsel Hjc.
  destruct (updateMapRotation_document st c Hm Hl)
    as (d2 & -> & Hshape & _ & _ & Hother).
  rewrite <- (Hother j Hjc). apply styleOf_lookup.
  apply forEachSelector_untouched.
  - rewrite <- Hsel. apply selected_shapes. assumption.
  - intros i d'. apply shapes_counterRotate.
  - intros i d'. apply counterRotate_lookup_ne.
Qed.

(** The map container gets the rotation by the negated heading and the
    scale, when no selector matches it. *)
Lemma updateMapRotation_surface (st : State) (c : nat) :
  trackUpMode st = true -> leafletMap st = Some (Some c) ->
  (exists e, document st !! c = Some e) ->
  selected (document st) elementsToCounterRotate c = false ->
  styleOf (document (updateMapRotation st)) c "transform"
  = Some (Css_rotate_scale (- currentHeading st) scale).
Proof.
  intros Hm Hl Hc Hsel.
  destruct (updateMapRotation_document st c Hm Hl)
    as (d2 & -> & Hshape & _ & Hsurf & _).
  rewrite <- (Hsurf Hc). apply styleOf_lookup.
  apply forEachSelector_untouched.
  - rewrite <- Hsel. apply selected_shapes. assumption.
  - intros i d'. apply shapes_counterRotate.
  - intros i d'. apply counterRotate_lookup_ne.
Qed.

End TrackUpApplier.

Section TrackUpReset.
Import JS DOM Geolocation TrackUpMode Spec.

Lemma querySelector_shapes (d d' : Document) (sels : list Selector) :
  shapes d = shapes d' -> querySelector d sels = querySelector d' sels.
Proof.
  intros H. unfold querySelector. rewrite (querySelectorAll_shapes d d' sels H).
  reflexivity.
Qed.

Lemma rotateUIElement_lookup_ne (a s : R) (i j : nat) (d : Document) :
  i <> j -> rotateUIElement a s i d !! j = d !! j.
Proof.
  intros H. unfold rotateUIElement. rewrite !setStyle_lookup_ne by assumption.
  reflexivity.
Qed.

(** The status sink does not touch any transform. *)
Lemma updateTrackUpStatus_transform (status : string) (st : State) (j : nat) :
  styleOf (document (updateTrackUpStatus status st)) j "transform"
  = styleOf (document st) j "transform".
Proof.
  unfold updateTrackUpStatus.
  destruct (getElementById (document st) "track-up-status"); [| reflexivity].
  cbn [document setDocument].
  destruct (String.eqb status "Track Up Active");
    [| destruct (String.eqb status "GPS Error")];
    rewrite !styleOf_setStyle_other by (right; discriminate);
    apply styleOf_setTextContent.
Qed.

(** What [updateUIElementsRotation] leaves alone: an element that is
    neither a control nor a popup, nor the first element of class
    [track-up-container-compact] or [controls-compact]. *)
Lemma updateUIElementsRotation_untouched (a s : R) (d : Document) (j : nat) :
  selected d [cls "leaflet-control"; cls "leaflet-popup"] j = false ->
  querySelector d [cls "track-up-container-compact"] <> Some j ->
  querySelector d [cls "controls-compact"] <> Some j ->
  updateUIElementsRotation a s d !! j = d !! j.
Proof.
  intros Hsel Ht Hc. rewrite updateUIElementsRotation_eq. cbv zeta.
  set (d1 := forEachSelector _ _ d).
  assert (Hs1 : shapes d1 = shapes d).
  { apply shapes_forEachSelector. intros. apply shapes_rotateUIElement. }
  assert (H1 : d1 !! j = d !! j).
  { apply forEachSelector_untouched; [assumption | |].
    - intros. apply shapes_rotateUIElement.
    - intros. apply rotateUIElement_lookup_ne. assumption. }
  rewrite (querySelector_shapes d1 d _ Hs1).
  destruct (querySelector d [cls "track-up-container-compact"]) as [t |] eqn:Et.
  - rewrite (querySelector_shapes (setStyle t _ _ d1) d).
    2:{ rewrite shapes_setStyle. assumption. }
    destruct (querySelector d [cls "controls-compact"]) as [k |] eqn:Ek.
    + rewrite !setStyle_lookup_ne by congruence. assumption.
    + rewrite !setStyle_lookup_ne by congruence. assumption.
  - rewrite (querySelector_shapes d1 d _ Hs1).
    destruct (querySelector d [cls "controls-compact"]) as [k |] eqn:Ek.
    + rewrite !setStyle_lookup_ne by congruence. assumption.
    + assumption.
Qed.

(** What [resetMapRotation] leaves alone. *)
Lemma resetMapRotation_untouched (st : State) (c j : nat) :
  leafletMap st = Some (Some c) -> j <> c ->
  selected (document st) [cls "leaflet-control"; cls "leaflet-popup"] j = false ->
  querySelector (document st) [cls "track-up-container-compact"] <> Some j ->
  querySelector (document st) [cls "controls-compact"] <> Some j ->
  styleOf (document (resetMapRotation st)) j "transform"
  = styleOf (document st) j "transform".
Proof.
  intros Hl Hjc Hsel Ht Hc. unfold resetMapRotation. rewrite Hl.
  cbn [document setDocument].
  set (d2 := match parentElement _ c with Some _ => _ | None => _ end).
  assert (Hs2 : shapes d2 = shapes (document st)).
  { subst d2. destruct (parentElement _ c); rewrite !shapes_setStyle; reflexivity. }
  assert (H2 : styleOf d2 j "transform" = styleOf (document st) j "transform").
  { subst d2. destruct (parentElement _ c).
    - rewrite 4 styleOf_setStyle_other by (right; discriminate).
      apply styleOf_setStyle_other. left. congruence.
    - apply styleOf_setStyle_other. left. congruence. }
  rewrite <- H2. apply styleOf_lookup.
  apply updateUIElementsRotation_untouched.
  - rewrite (selected_shapes d2 (document st) _ j Hs2). assumption.
  - rewrite (querySelector_shapes d2 (document st) _ Hs2). assumption.
  - rewrite (querySelector_shapes d2 (document st) _ Hs2). assumption.
Qed.

(** The same for the whole handler of switching the toggle off. *)
Lemma toggle_off_untouched (st : State) (c j : nat) :
  leafletMap st = Some (Some c) -> j <> c ->
  selected (document st) [cls "leaflet-control"; cls "leaflet-popup"] j = false ->
  querySelector (document st) [cls "track-up-container-compact"] <> Some j ->
  querySelector (document st) [cls "controls-compact"] <> Some j ->
  styleOf (document (onToggleChange false st)) j "transform"
  = styleOf (document st) j "transform".
Proof.
  intros Hl Hjc Hsel Ht Hc. unfold onToggleChange, updateTrackUpMode.
  cbn [trackUpMode setTrackUpMode].
  set (st0 := setTrackUpMode st false).
  set (st1 := setMapRotationEnabled (updateTrackUpStatus "North Up" st0) false).
  assert (Hd1 : shapes (document st1) = shapes (document st)).
  { subst st1. cbn [document setMapRotationEnabled].
    apply (shapes_updateTrackUpStatus "North Up" st0). }
  assert (Hl1 : leafletMap st1 = Some (Some c)).
  { subst st1. cbn [leafletMap setMapRotationEnabled].
    rewrite updateTrackUpStatus_frame. exact Hl. }
  assert (Ht1 : styleOf (document st1) j "transform"
                = styleOf (document st) j "transform").
  { subst st1. cbn [document setMapRotationEnabled].
    apply (updateTrackUpStatus_transform "North Up" st0). }
  rewrite <- Ht1.
  destruct (headingUpdateInterval st1);
    [apply (resetMapRotation_untouched (setHeadingUpdateInterval st1 false) c j)
    | apply (resetMapRotation_untouched st1 c j)];
    cbn [document leafletMap setHeadingUpdateInterval];
    try assumption;
    try (rewrite (selected_shapes (document st1) (document st) _ j Hd1);
         assumption);
    rewrite (querySelector_shapes (document st1) (document st) _ Hd1); assumption.
Qed.

(** Every transform that [resetMapRotation] writes is the identity: an
    element that was upright stays so, and the container becomes so. *)
Lemma upright_setStyle (d : Document) (i j : nat) (p : string) (v : CssValue) :
  (p = "transform" -> denote (Some v) = Some identity) ->
  upright d j -> upright (setStyle i p v d) j.
Proof.
  intros Hv Hu. unfold upright in *.
  destruct (string_dec p "transform") as [-> | Hp].
  - destruct (Nat.eq_dec i j) as [-> | Hij].
    + unfold styleOf, setStyle in *. rewrite list_lookup_alter_eq.
      destruct (d !! j) as [e |]; [| exact Hu]. cbn [fmap option_fmap option_map].
      unfold setProperty. destruct (css_valid v); [| exact Hu].
      specialize (Hv eq_refl).
      destruct v as [[| a s] | a s]; cbn [style withStyle].
      * rewrite lookup_delete_eq. reflexivity.
      * rewrite lookup_insert_eq. exact Hv.
      * rewrite lookup_insert_eq. exact Hv.
    + rewrite styleOf_setStyle_other by (left; assumption). exact Hu.
  - rewrite styleOf_setStyle_other by (right; assumption). exact Hu.
Qed.

Lemma upright_updateUIElementsRotation (d : Document) (j : nat) :
  upright d j -> upright (updateUIElementsRotation 0 1 d) j.
Proof.
  intros Hu. rewrite updateUIElementsRotation_eq. cbv zeta.
  assert (H1 : upright (forEachSelector [cls "leaflet-control"; cls "leaflet-popup"]
                          (rotateUIElement 0 1) d) j).
  { apply (forEachSelector_invariant (fun d' => upright d' j)); [| assumption].
    intros i d' Hd'. unfold rotateUIElement.
    repeat apply upright_setStyle; try discriminate; try assumption.
    reflexivity. }
  repeat match goal with
         | |- context [match ?x with Some _ => _ | None => _ end] => destruct x
         end;
    repeat apply upright_setStyle; try assumption; reflexivity.
Qed.

Lemma resetMapRotation_surface (st : State) (c : nat) :
  leafletMap st = Some (Some c) ->
  (exists e, document st !! c = Some e) ->
  upright (document (resetMapRotation st)) c.
Proof.
  intros Hl Hc. unfold resetMapRotation. rewrite Hl.
  cbn [document setDocument].
  apply upright_updateUIElementsRotation.
  assert (H1 : upright (setStyle c "transform" (Css_text "none") (document st)) c).
  { unfold upright. rewrite styleOf_setStyle_none by assumption. reflexivity. }
  destruct (parentElement _ c);
    [do 4 (apply upright_setStyle; [intros ?; discriminate |]) |]; exact H1.
Qed.

(** So do the controls and the popups. *)
Lemma resetMapRotation_controls (st : State) (c j : nat) (s : Selector) :
  leafletMap st = Some (Some c) ->
  In s [cls "leaflet-control"; cls "leaflet-popup"] ->
  selected (document st) [s] j = true ->
  upright (document (resetMapRotation st)) j.
Proof.
  intros Hl Hs Hsel. unfold resetMapRotation. rewrite Hl.
  cbn [document setDocument].
  set (d2 := match parentElement _ c with Some _ => _ | None => _ end).
  assert (Hs2 : shapes d2 = shapes (document st)).
  { subst d2. destruct (parentElement _ c); rewrite !shapes_setStyle; reflexivity. }
  assert (Hex : exists e, d2 !! j = Some e).
  { apply selected_lookup with (sels := [s]).
    rewrite (selected_shapes d2 (document st) _ j Hs2). assumption. }
  rewrite updateUIElementsRotation_eq. cbv zeta.
  assert (H1 : upright (forEachSelector [cls "leaflet-control"; cls "leaflet-popup"]
                          (rotateUIElement 0 1) d2) j).
  { apply (forEachSelector_reach
             (fun d => upright d j) (fun d => exists e, d !! j = Some e)
             _ _ s j d2); try assumption.
    - rewrite (selected_shapes d2 (document st) _ j Hs2). assumption.
    - intros i d'. apply shapes_rotateUIElement.
    - intros i d' Hd'. unfold rotateUIElement.
      repeat apply upright_setStyle; try (intros ?; discriminate);
        try assumption. reflexivity.
    - intros i d' Hd'. unfold rotateUIElement.
      repeat apply lookup_setStyle. assumption.
    - intros d' Hd'. unfold rotateUIElement, upright.
      rewrite styleOf_setStyle_other by (right; discriminate).
      rewrite styleOf_setStyle_rotate by assumption. reflexivity. }
  repeat match goal with
         | |- context [match ?x with Some _ => _ | None => _ end] => destruct x
         end;
    repeat apply upright_setStyle; try assumption; reflexivity.
Qed.

Lemma shapes_exists (d d' : Document) (j : nat) :
  shapes d' = shapes d -> (exists e, d !! j = Some e) -> exists e, d' !! j = Some e.
Proof.
  intros H [e He].
  destruct (shapes_lookup_cases d' d j H) as [(e1 & e2 & H1 & _) | [_ H2]].
  - eauto.
  - congruence.
Qed.

(** Switching the toggle off brings the map container back to the
    identity. *)
Lemma toggle_off_surface (st : State) (c : nat) :
  leafletMap st = Some (Some c) ->
  (exists e, document st !! c = Some e) ->
  upright (document (onToggleChange false st)) c.
Proof.
  intros Hl Hc. unfold onToggleChange, updateTrackUpMode.
  cbn [trackUpMode setTrackUpMode].
  set (st0 := setTrackUpMode st false).
  set (st1 := setMapRotationEnabled
                (updateTrackUpStatus "North Up" st0) false).
  assert (Hd1 : shapes (document st1) = shapes (document st)).
  { subst st1. cbn [document setMapRotationEnabled].
    apply (shapes_updateTrackUpStatus "North Up" st0). }
  assert (Hl1 : leafletMap st1 = Some (Some c)).
  { subst st1. cbn [leafletMap setMapRotationEnabled].
    rewrite updateTrackUpStatus_frame. exact Hl. }
  assert (Hc1 : exists e, document st1 !! c = Some e).
  { apply (shapes_exists (document st)); assumption. }
  destruct (headingUpdateInterval st1);
    [apply (resetMapRotation_surface (setHeadingUpdateInterval st1 false) c)
    | apply (resetMapRotation_surface st1 c)];
    assumption.
Qed.

End TrackUpReset.

Section SimpleApplier.
Import JS DOM Geolocation SimpleTrackUp Spec.

(** The body of the loop of [rotateMap], and what it does to the
    transform of an element. *)
Lemma rotateControl_transform (h : R) (j : nat) (d : Document) :
  (exists e, d !! j = Some e) ->
  styleOf
    (setStyle j "transformOrigin" (Css_text "center center")
       (setStyle j "transform" (Css_rotate_scale h (1 / scale)) d))
    j "transform"
  = Some (Css_rotate_scale h (1 / scale)).
Proof.
  intros H. rewrite styleOf_setStyle_other by (right; discriminate).
  apply styleOf_setStyle_rotate. assumption.
Qed.

Lemma rotateMap_document (st : State) (c : nat) :
  trackUpEnabled st = true -> leafletMap st = Some (Some c) ->
  exists d1,
    document (rotateMap st)
    = forEach (querySelectorAll d1 controlSelectors)
        (fun control d =>
           setStyle control "transformOrigin" (Css_text "center center")
             (setStyle control "transform"
                (Css_rotate_scale (currentHeading st) (1 / scale)) d))
        d1
    /\ shapes d1 = shapes (document st)
    /\ (forall j, (exists e, document st !! j = Some e) ->
                  exists e, d1 !! j = Some e)
    /\ ((exists e, document st !! c = Some e) ->
        styleOf d1 c "transform"
        = Some (Css_rotate_scale (- currentHeading st) scale))
    /\ (forall j, j <> c ->
                  styleOf d1 j "transform" = styleOf (document st) j "transform").
Proof.
  intros Hm Hl. unfold rotateMap. rewrite Hl, Hm.
  cbn [negb document setDocument].
  eexists. split; [reflexivity |].
  split; [rewrite !shapes_setStyle; reflexivity |].
  split; [intros j Hj; repeat apply lookup_setStyle; assumption |].
  split.
  - intros Hc. rewrite !styleOf_setStyle_other by (right; discriminate).
    apply styleOf_setStyle_rotate. assumption.
  - intros j Hj.
    rewrite !styleOf_setStyle_other by (left; congruence). reflexivity.
Qed.

(** The zoom and attribution controls get the rotation by the heading
    and the reciprocal scale. *)
Lemma rotateMap_overlay (st : State) (c j : nat) :
  trackUpEnabled st = true -> leafletMap st = Some (Some c) ->
  selected (document st) controlSelectors j = true ->
  styleOf (document (rotateMap st)) j "transform"
  = Some (Css_rotate_scale (currentHeading st) (1 / scale)).
Proof.
  intros Hm Hl Hsel.
  destruct (rotateMap_document st c Hm Hl) as (d1 & -> & Hshape & Hex & _ & _).
  apply (forEach_reach
           (fun d => styleOf d j "transform"
                     = Some (Css_rotate_scale (currentHeading st) (1 / scale)))
           (fun d => exists e, d !! j = Some e) _ _ j d1).
  - apply querySelectorAll_In.
    rewrite (selected_shapes d1 (document st) _ j Hshape). assumption.
  - intros i d' Hd'. destruct (Nat.eq_dec i j) as [-> | Hij].
    + apply rotateControl_transform. apply (styleOf_Some_lookup _ _ _ _ Hd').
    + rewrite !styleOf_setStyle_other by (left; assumption). assumption.
  - intros i d' Hd'. repeat apply lookup_setStyle. assumption.
  - intros d'. apply rotateControl_transform.
  - apply Hex. apply (selected_lookup _ _ _ Hsel).
Qed.

Lemma rotateMap_untouched (st : State) (c j : nat) :
  trackUpEnabled st = true -> leafletMap st = Some (Some c) ->
  selected (document st) controlSelectors j = false -> j <> c ->
  styleOf (document (rotateMap st)) j "transform"
  = styleOf (document st) j "transform".
Proof.
  intros Hm Hl Hsel Hjc.
  destruct (rotateMap_document st c Hm Hl) as (d1 & -> & Hshape & _ & _ & Hother).
  rewrite <- (Hother j Hjc). apply styleOf_lookup.
  apply forEach_untouched.
  - rewrite querySelectorAll_In.
    rewrite (selected_shapes d1 (document st) _ j Hshape), Hsel. discriminate.
  - intros i d' Hij. rewrite !setStyle_lookup_ne by assumption. reflexivity.
Qed.

(** The map container gets the rotation by the negated heading and the
    scale, when it is not itself one of the controls. *)
Lemma rotateMap_surface (st : State) (c : nat) :
  trackUpEnabled st = true -> leafletMap st = Some (Some c) ->
  (exists e, document st !! c = Some e) ->
  selected (document st) controlSelectors c = false ->
  styleOf (document (rotateMap st)) c "transform"
  = Some (Css_rotate_scale (- currentHeading st) scale).
Proof.
  intros Hm Hl Hc Hsel.
  destruct (rotateMap_document st c Hm Hl) as (d1 & -> & Hshape & _ & Hsurf & _).
  rewrite <- (Hsurf Hc). apply styleOf_lookup.
  apply forEach_untouched.
  - rewrite querySelectorAll_In.
    rewrite (selected_shapes d1 (document st) _ c Hshape), Hsel. discriminate.
  - intros i d' Hij. rewrite !setStyle_lookup_ne by assumption. reflexivity.
Qed.

(** [resetMapRotation] sets the transform of the container and of every
    control to [none]. *)
Lemma simple_reset_overlay (st : State) (c j : nat) :
  leafletMap st = Some (Some c) ->
  selected (document st) controlSelectors j = true ->
  styleOf (document (resetMapRotation st)) j "transform" = Some (Css_text "none").
Proof.
  intros Hl Hsel. unfold resetMapRotation. rewrite Hl.
  cbn [document setDocument].
  set (d1 := setStyle c "transition" _ _).
  assert (Hs1 : shapes d1 = shapes (document st)).
  { subst d1. rewrite !shapes_setStyle. reflexivity. }
  apply (forEach_reach
           (fun d => styleOf d j "transform" = Some (Css_text "none"))
           (fun d => exists e, d !! j = Some e) _ _ j d1).
  - apply querySelectorAll_In.
    rewrite (selected_shapes d1 (document st) _ j Hs1). assumption.
  - intros i d' Hd'. destruct (Nat.eq_dec i j) as [-> | Hij].
    + apply styleOf_setStyle_none. apply (styleOf_Some_lookup _ _ _ _ Hd').
    + rewrite styleOf_setStyle_other by (left; assumption). assumption.
  - intros i d' Hd'. apply lookup_setStyle. assumption.
  - intros d'. apply styleOf_setStyle_none.
  - subst d1. repeat apply lookup_setStyle. apply (selected_lookup _ _ _ Hsel).
Qed.

Lemma simple_reset_surface (st : State) (c : nat) :
  leafletMap st = Some (Some c) ->
  (exists e, document st !! c = Some e) ->
  styleOf (document (resetMapRotation st)) c "transform" = Some (Css_text "none").
Proof.
  intros Hl Hc. unfold resetMapRotation. rewrite Hl.
  cbn [document setDocument].
  apply (forEach_invariant
           (fun d => styleOf d c "transform" = Some (Css_text "none"))).
  - intros i d' Hd'. destruct (Nat.eq_dec i c) as [-> | Hic].
    + apply styleOf_setStyle_none. apply (styleOf_Some_lookup _ _ _ _ Hd').
    + rewrite styleOf_setStyle_other by (left; assumption). assumption.
  - rewrite styleOf_setStyle_other by (right; discriminate).
    apply styleOf_setStyle_none. assumption.
Qed.

End SimpleApplier.

(* ===================================================================== *)
(** ** The heading estimator: direct headings, the jitter gate, errors    *)
(* ===================================================================== *)

Section EstimatorFacts.
Import JS DOM Geolocation Spec.

Lemma nullOrAbove_iff (v : option Number) (t : R) :
  nullOrAbove v t = true <-> unknownOrAbove v t.
Proof.
  unfold nullOrAbove, above, unknownOrAbove. destruct v as [[| x] |]; simpl.
  - split; [discriminate |]. intros [H | (x & H & _)]; discriminate.
  - rewrite gtb_iff. split.
    + intros H. right. exists x. split; [reflexivity | assumption].
    + intros [H | (y & H & Hy)]; [discriminate |]. injection H as ->. assumption.
  - split; [intros _; left; reflexivity | reflexivity].
Qed.

Lemma abs_gtb_true (x y : R) : y < x \/ y < - x -> gtb (Math_abs x) y = true.
Proof.
  intros H. apply gtb_true. unfold Math_abs, Rabs.
  destruct (Rcase_abs x); lra.
Qed.

Lemma abs_gtb_false (x y : R) : - y <= x <= y -> gtb (Math_abs x) y = false.
Proof.
  intros H. apply gtb_false. unfold Math_abs, Rabs.
  destruct (Rcase_abs x); lra.
Qed.

(** Choosing [newHeading] does not commit anything. *)
Lemma selectHeading_currentHeading (position : Position)
  (st st1 : TrackUpMode.State) (newHeading : R) :
  TrackUpMode.selectHeading position st = TrackUpMode.Normal newHeading st1 ->
  TrackUpMode.currentHeading st1 = TrackUpMode.currentHeading st
  /\ TrackUpMode.trackUpMode st1 = TrackUpMode.trackUpMode st.
Proof.
  unfold TrackUpMode.selectHeading, TrackUpMode.bind, TrackUpMode.get,
    TrackUpMode.modify, TrackUpMode.ret, TrackUpMode.readLastPosition.
  destruct (heading (coords position)) as [[| h] |];
    [ destruct (TrackUpMode.lastPosition st) as [| [lp |]]; [discriminate | |]
    | | destruct (TrackUpMode.lastPosition st) as [| [lp |]]; [discriminate | |] ];
    repeat match goal with
           | |- context [if ?b then _ else _] => destruct b
           end;
    intros H; injection H as _ <-; split; reflexivity.
Qed.

(** The committed heading after a position callback, from the value
    the three methods gave. *)
Lemma step_gate (position : Position) (now : Z)
  (st st1 : TrackUpMode.State) (newHeading : R) :
  TrackUpMode.selectHeading position st = TrackUpMode.Normal newHeading st1 ->
  TrackUpMode.currentHeading
    (TrackUpMode.step st (TrackUpMode.PositionUpdate position now))
  = if gtb (Math_abs (newHeading - TrackUpMode.currentHeading st)) 3
    then newHeading else TrackUpMode.currentHeading st.
Proof.
  intros H. cbn [TrackUpMode.step].
  rewrite (positionCallback_selected position now st st1 newHeading H).
  rewrite currentHeading_assignLastPosition, currentHeading_commitHeading.
  destruct (selectHeading_currentHeading position st st1 newHeading H) as [-> _].
  reflexivity.
Qed.

Lemma step_mode (position : Position) (now : Z) (st : TrackUpMode.State) :
  TrackUpMode.trackUpMode
    (TrackUpMode.step st (TrackUpMode.PositionUpdate position now))
  = TrackUpMode.trackUpMode st.
Proof.
  cbn [TrackUpMode.step].
  destruct (TrackUpMode.selectHeading position st) as [nh st1 | e st1] eqn:E.
  - rewrite (positionCallback_selected position now st st1 nh E).
    rewrite trackUpMode_assignLastPosition, trackUpMode_commitHeading.
    apply (selectHeading_currentHeading position st st1 nh E).
  - rewrite (positionCallback_thrown position now st st1 e E).
    revert E.
    unfold TrackUpMode.selectHeading, TrackUpMode.bind, TrackUpMode.get,
      TrackUpMode.modify, TrackUpMode.ret, TrackUpMode.readLastPosition.
    destruct (heading (coords position)) as [[| h] |];
      [ destruct (TrackUpMode.lastPosition st) as [| [lp |]]
      | | destruct (TrackUpMode.lastPosition st) as [| [lp |]] ];
      repeat match goal with
             | |- context [if ?b then _ else _] => destruct b
             end;
      try discriminate; intros H; injection H as _ <-; reflexivity.
Qed.

(** A sample moving at 2 units with the direct heading [h]. *)
Lemma step_moving (h : R) (now : Z) (st : TrackUpMode.State) :
  TrackUpMode.currentHeading
    (TrackUpMode.step st (TrackUpMode.PositionUpdate (Page.moving h) now))
  = if gtb (Math_abs (h - TrackUpMode.currentHeading st)) 3
    then h else TrackUpMode.currentHeading st.
Proof.
  apply (step_gate _ _ _ (TrackUpMode.setLastValidHeading st h)).
  rewrite (selectHeading_direct _ _ h) by reflexivity.
  cbn [speed coords Page.moving sample nullOrAbove above Number_gtb].
  rewrite gtb_true by lra. reflexivity.
Qed.

End EstimatorFacts.

Section DirectHeading.
Import JS DOM Geolocation Spec.

(** C2.  A sample whose heading is a valid number, with the speed
    unknown or above the movement threshold (0.3 in track_up_mode.js,
    0.5 in simple_track_up.js): track_up_mode.js takes the sample's
    heading as the new heading and caches it as the last valid
    heading, and commits it once it differs from the committed heading
    by more than 3; simple_track_up.js, which has no gate, commits it
    at once. *)
Theorem C2_direct_heading_adopted
  (t : TrackUpMode.State) (s : SimpleTrackUp.State)
  (position : Position) (now : Z) (h : R) :
  heading (coords position) = Some (Num h) ->
  (unknownOrAbove (speed (coords position)) 0.3 ->
   let t' := TrackUpMode.step t (TrackUpMode.PositionUpdate position now) in
   TrackUpMode.selectHeading position t
   = TrackUpMode.Normal h (TrackUpMode.setLastValidHeading t h)
   /\ TrackUpMode.lastValidHeading t' = h
   /\ (Rabs (h - TrackUpMode.currentHeading t) > 3 ->
       TrackUpMode.currentHeading t' = h))
  /\ (unknownOrAbove (speed (coords position)) 0.5 ->
      SimpleTrackUp.currentHeading (SimpleTrackUp.positionCallback position s) = h).
Proof.
  intros Hh. split.
  - intros Hv. apply nullOrAbove_iff in Hv.
    assert (Hs : TrackUpMode.selectHeading position t
                 = TrackUpMode.Normal h (TrackUpMode.setLastValidHeading t h)).
    { rewrite (selectHeading_direct position t h Hh), Hv. reflexivity. }
    cbv zeta. split; [exact Hs |]. split.
    + cbn [TrackUpMode.step].
      rewrite (positionCallback_selected position now t _ h Hs).
      rewrite lastValidHeading_assignLastPosition, lastValidHeading_commitHeading.
      reflexivity.
    + intros Hgt. rewrite (step_gate position now t _ h Hs).
      rewrite gtb_true; [reflexivity | exact Hgt].
  - intros Hv. apply nullOrAbove_iff in Hv.
    rewrite (simple_direct position s h Hh), Hv. reflexivity.
Qed.

(** C2 on the example page: the heading 47 at speed 2, from the
    committed heading 0. *)
Lemma C2_direct_heading_adopted_witness :
  let t := Page.tracking 0 in
  let t' := TrackUpMode.step t (TrackUpMode.PositionUpdate (Page.moving 47) 0) in
  TrackUpMode.lastValidHeading t' = 47
  /\ TrackUpMode.currentHeading t' = 47
  /\ SimpleTrackUp.currentHeading
       (SimpleTrackUp.positionCallback (Page.moving 47) (Page.simpleTracking 0 None))
     = 47.
Proof.
  assert (Hv3 : unknownOrAbove (speed (coords (Page.moving 47))) 0.3).
  { right. exists 2. split; [reflexivity | lra]. }
  assert (Hv5 : unknownOrAbove (speed (coords (Page.moving 47))) 0.5).
  { right. exists 2. split; [reflexivity | lra]. }
  destruct (C2_direct_heading_adopted (Page.tracking 0)
              (Page.simpleTracking 0 None) (Page.moving 47) 0 47 eq_refl)
    as [HT HS].
  destruct (HT Hv3) as (_ & Hl & Hc).
  split; [exact Hl |]. split; [| exact (HS Hv5)].
  apply Hc. cbn [TrackUpMode.currentHeading Page.tracking].
  unfold Rabs. destruct (Rcase_abs (47 - 0)); lra.
Defined.

End DirectHeading.

Section JitterGate.
Import JS DOM Geolocation Spec.

(** In simple_track_up.js every adopted heading is committed. *)
Lemma simple_step_moving (h : R) (st : SimpleTrackUp.State) :
  SimpleTrackUp.watches st <> [] ->
  SimpleTrackUp.currentHeading
    (SimpleTrackUp.step st (SimpleTrackUp.PositionUpdate (Page.moving h))) = h
  /\ SimpleTrackUp.watches
       (SimpleTrackUp.step st (SimpleTrackUp.PositionUpdate (Page.moving h)))
     = SimpleTrackUp.watches st.
Proof.
  intros Hw. cbn [SimpleTrackUp.step].
  destruct (SimpleTrackUp.watches st) as [| w ws] eqn:E; [contradiction |].
  split.
  - rewrite (simple_direct _ _ h) by reflexivity.
    cbn [speed coords Page.moving sample nullOrAbove above Number_gtb].
    rewrite gtb_true by lra. reflexivity.
  - unfold SimpleTrackUp.positionCallback.
    cbn [heading speed coords Page.moving sample nullOrAbove above Number_gtb
           SimpleTrackUp.watches SimpleTrackUp.setLastKnownPosition].
    rewrite gtb_true by lra.
    rewrite watches_updateStatus, watches_rotateMap. exact E.
Qed.

(** Two headings between 3 and 357 apart, the first above the second,
    are more than 3 degrees from each other. *)
Lemma angularDifference_far (a b : R) :
  3 < a - b < 357 -> angularDifference a b > 3.
Proof.
  intros H. unfold angularDifference.
  rewrite (Rabs_pos_eq (a - b)) by lra.
  unfold Rmin. destruct (Rle_dec _ _); lra.
Qed.

(** C3, as amended.  In track_up_mode.js the heading the three methods
    gave is committed when the angle between it and the committed
    heading is more than 3 degrees, and the committed heading is kept
    when the two differ by at most 3 without north between them (their
    plain difference is at most 3); with the headings 10, 11, 50 at
    speed 2 from the committed heading 0 the committed headings are
    10, 10, 50.  Nothing is said of two headings within 3 degrees of
    each other across north. *)
Theorem C3_jitter_gate_track_up
  (t t1 : TrackUpMode.State) (position : Position) (now : Z) (newHeading : R) :
  TrackUpMode.selectHeading position t = TrackUpMode.Normal newHeading t1 ->
  let t' := TrackUpMode.step t (TrackUpMode.PositionUpdate position now) in
  (angularDifference newHeading (TrackUpMode.currentHeading t) > 3 ->
   TrackUpMode.currentHeading t' = newHeading)
  /\ (Rabs (newHeading - TrackUpMode.currentHeading t) <= 3 ->
      TrackUpMode.currentHeading t' = TrackUpMode.currentHeading t)
  /\ (forall (t0 : TrackUpMode.State) (n1 n2 n3 : Z),
        TrackUpMode.currentHeading t0 = 0 ->
        TrackUpMode.committed
          [ TrackUpMode.PositionUpdate (Page.moving 10) n1;
            TrackUpMode.PositionUpdate (Page.moving 11) n2;
            TrackUpMode.PositionUpdate (Page.moving 50) n3 ] t0
        = [10; 10; 50]).
Proof.
  intros Hs. cbv zeta. rewrite (step_gate position now t t1 newHeading Hs).
  split; [| split].
  - intros H. rewrite gtb_true; [reflexivity |].
    unfold angularDifference in H.
    pose proof (Rmin_l (Rabs (newHeading - TrackUpMode.currentHeading t))
                  (360 - Rabs (newHeading - TrackUpMode.currentHeading t))) as Hm.
    unfold Math_abs. lra.
  - intros H. rewrite gtb_false; [reflexivity | exact H].
  - intros t0 n1 n2 n3 H0. cbn [TrackUpMode.committed].
    set (s1 := TrackUpMode.step t0 _).
    assert (H1 : TrackUpMode.currentHeading s1 = 10).
    { subst s1. rewrite step_moving, H0.
      rewrite abs_gtb_true by lra. reflexivity. }
    set (s2 := TrackUpMode.step s1 _).
    assert (H2 : TrackUpMode.currentHeading s2 = 10).
    { subst s2. rewrite step_moving, H1.
      rewrite abs_gtb_false by lra. reflexivity. }
    set (s3 := TrackUpMode.step s2 _).
    assert (H3 : TrackUpMode.currentHeading s3 = 50).
    { subst s3. rewrite step_moving, H2.
      rewrite abs_gtb_true by lra. reflexivity. }
    rewrite H1, H2, H3. reflexivity.
Qed.

(** C3 in track_up_mode.js on the example page: from 10 the heading 50
    is committed and 11 is held back, and the three samples give
    10, 10, 50. *)
Lemma C3_jitter_gate_track_up_witness :
  TrackUpMode.currentHeading
    (TrackUpMode.step (Page.tracking 10)
       (TrackUpMode.PositionUpdate (Page.moving 50) 0)) = 50
  /\ TrackUpMode.currentHeading
       (TrackUpMode.step (Page.tracking 10)
          (TrackUpMode.PositionUpdate (Page.moving 11) 0)) = 10
  /\ TrackUpMode.committed
       [ TrackUpMode.PositionUpdate (Page.moving 10) 0;
         TrackUpMode.PositionUpdate (Page.moving 11) 1;
         TrackUpMode.PositionUpdate (Page.moving 50) 2 ] (Page.tracking 0)
     = [10; 10; 50].
Proof.
  assert (Hs : forall h,
             TrackUpMode.selectHeading (Page.moving h) (Page.tracking 10)
             = TrackUpMode.Normal h
                 (TrackUpMode.setLastValidHeading (Page.tracking 10) h)).
  { intros h. rewrite (selectHeading_direct _ _ h) by reflexivity.
    cbn [speed coords Page.moving sample nullOrAbove above Number_gtb].
    rewrite gtb_true by lra. reflexivity. }
  destruct (C3_jitter_gate_track_up (Page.tracking 10) _ (Page.moving 50) 0 50 (Hs 50))
    as (Hcommit & _ & _).
  destruct (C3_jitter_gate_track_up (Page.tracking 10) _ (Page.moving 11) 0 11 (Hs 11))
    as (_ & Hkeep & Hrun).
  split; [| split].
  - apply Hcommit. cbn [TrackUpMode.currentHeading Page.tracking].
    apply angularDifference_far. lra.
  - apply Hkeep. cbn [TrackUpMode.currentHeading Page.tracking].
    unfold Rabs. destruct (Rcase_abs (11 - 10)); lra.
  - apply Hrun. reflexivity.
Defined.

(** The test at line 127 compares the two numbers, not the two
    directions: from the committed heading 359 the heading 1, two
    degrees from it across north, is committed, where the comment of
    that line has the test reduce jitter. *)
Remark gate_across_north (now : Z) :
  angularDifference 1 359 = 2
  /\ TrackUpMode.committed
       [TrackUpMode.PositionUpdate (Page.moving 1) now] (Page.tracking 359)
     = [1].
Proof.
  split.
  - unfold angularDifference.
    unfold Rabs. destruct (Rcase_abs (1 - 359)); [| lra].
    unfold Rmin. destruct (Rle_dec _ _); lra.
  - cbn [TrackUpMode.committed]. rewrite step_moving.
    cbn [TrackUpMode.currentHeading Page.tracking].
    rewrite abs_gtb_true by lra. reflexivity.
Qed.

(** C3 as the claim states it fails on simple_track_up.js, which has no
    jitter gate: the same samples from the committed heading 0 give
    10, 11, 50. *)
Lemma C3_simple_has_no_gate :
  SimpleTrackUp.committed
    [ SimpleTrackUp.PositionUpdate (Page.moving 10);
      SimpleTrackUp.PositionUpdate (Page.moving 11);
      SimpleTrackUp.PositionUpdate (Page.moving 50) ]
    (Page.simpleTracking 0 None)
  = [10; 11; 50]
  /\ SimpleTrackUp.committed
       [ SimpleTrackUp.PositionUpdate (Page.moving 10);
         SimpleTrackUp.PositionUpdate (Page.moving 11);
         SimpleTrackUp.PositionUpdate (Page.moving 50) ]
       (Page.simpleTracking 0 None)
     <> [10; 10; 50].
Proof.
  assert (H : SimpleTrackUp.committed
                [ SimpleTrackUp.PositionUpdate (Page.moving 10);
                  SimpleTrackUp.PositionUpdate (Page.moving 11);
                  SimpleTrackUp.PositionUpdate (Page.moving 50) ]
                (Page.simpleTracking 0 None)
              = [10; 11; 50]).
  { cbn [SimpleTrackUp.committed].
    set (s1 := SimpleTrackUp.step (Page.simpleTracking 0 None) _).
    destruct (simple_step_moving 10 (Page.simpleTracking 0 None)) as [H1 W1];
      [discriminate |]. fold s1 in H1, W1.
    set (s2 := SimpleTrackUp.step s1 _).
    destruct (simple_step_moving 11 s1) as [H2 W2];
      [rewrite W1; discriminate |]. fold s2 in H2, W2.
    set (s3 := SimpleTrackUp.step s2 _).
    destruct (simple_step_moving 50 s2) as [H3 W3];
      [rewrite W2, W1; discriminate |]. fold s3 in H3.
    rewrite H1, H2, H3. reflexivity. }
  split; [exact H |].
  rewrite H. intros E. injection E as E. lra.
Qed.

End JitterGate.

Section LocationError.
Import JS DOM Geolocation Spec.

Lemma statusText_updateTrackUpStatus (status : string) (st : TrackUpMode.State)
  (i : nat) :
  getElementById (TrackUpMode.document st) "track-up-status" = Some i ->
  statusText (TrackUpMode.document (TrackUpMode.updateTrackUpStatus status st))
  = Some status.
Proof.
  intros Hi. unfold statusText.
  rewrite (getElementById_shapes _ (TrackUpMode.document st))
    by apply shapes_updateTrackUpStatus.
  rewrite Hi. unfold TrackUpMode.updateTrackUpStatus. rewrite Hi.
  cbn [TrackUpMode.document TrackUpMode.setDocument].
  destruct (String.eqb status "Track Up Active");
    [| destruct (String.eqb status "GPS Error")];
    rewrite !textOf_setStyle;
    apply textOf_setTextContent; apply (getElementById_lookup _ _ _ Hi).
Qed.

Lemma statusText_updateStatus (text : string) (st : SimpleTrackUp.State)
  (i : nat) :
  getElementById (SimpleTrackUp.document st) "track-up-status" = Some i ->
  statusText (SimpleTrackUp.document (SimpleTrackUp.updateStatus text st))
  = Some text.
Proof.
  intros Hi. unfold statusText, SimpleTrackUp.updateStatus. rewrite Hi.
  cbn [SimpleTrackUp.document SimpleTrackUp.setDocument].
  rewrite (getElementById_shapes _ (SimpleTrackUp.document st))
    by apply shapes_setTextContent.
  rewrite Hi. apply textOf_setTextContent. apply (getElementById_lookup _ _ _ Hi).
Qed.

(** C5.  The error callback of the position watch, in both scripts,
    writes "GPS Error" to the status element of the page and leaves
    the committed heading as it is. *)
Theorem C5_location_error_keeps_heading
  (t : TrackUpMode.State) (s : SimpleTrackUp.State) (i j : nat) :
  getElementById (TrackUpMode.document t) "track-up-status" = Some i ->
  getElementById (SimpleTrackUp.document s) "track-up-status" = Some j ->
  statusText (TrackUpMode.document (TrackUpMode.step t TrackUpMode.PositionError))
  = Some "GPS Error"
  /\ TrackUpMode.currentHeading (TrackUpMode.step t TrackUpMode.PositionError)
     = TrackUpMode.currentHeading t
  /\ statusText (SimpleTrackUp.document (SimpleTrackUp.errorCallback s))
     = Some "GPS Error"
  /\ SimpleTrackUp.currentHeading (SimpleTrackUp.errorCallback s)
     = SimpleTrackUp.currentHeading s.
Proof.
  intros Hi Hj. cbn [TrackUpMode.step].
  unfold TrackUpMode.errorCallback, SimpleTrackUp.errorCallback.
  split; [apply (statusText_updateTrackUpStatus _ _ i Hi) |].
  split; [rewrite updateTrackUpStatus_frame; reflexivity |].
  split; [apply (statusText_updateStatus _ _ j Hj) |].
  apply currentHeading_updateStatus.
Qed.

(** C5 on the example page, with the heading committed at 80. *)
Lemma C5_location_error_keeps_heading_witness :
  statusText
    (TrackUpMode.document
       (TrackUpMode.step (Page.tracking 80) TrackUpMode.PositionError))
  = Some "GPS Error"
  /\ TrackUpMode.currentHeading
       (TrackUpMode.step (Page.tracking 80) TrackUpMode.PositionError) = 80
  /\ statusText
       (SimpleTrackUp.document
          (SimpleTrackUp.errorCallback (Page.simpleTracking 80 None)))
     = Some "GPS Error"
  /\ SimpleTrackUp.currentHeading
       (SimpleTrackUp.errorCallback (Page.simpleTracking 80 None)) = 80.
Proof.
  apply (C5_location_error_keeps_heading
           (Page.tracking 80) (Page.simpleTracking 80 None) 8 8);
    vm_compute; reflexivity.
Defined.

End LocationError.

Section UndeclaredName.
Import JS DOM Geolocation Spec TrackUpMode.

(** C10, as the code has it.  After any events from the start, every
    position callback ends in a [ReferenceError] for [lastPosition]:
    with a direct heading that is a number, on the assignment at its
    end, after the jitter test, [newHeading] being that heading or the
    committed one; without one, already on the read in the test of
    Method 2, with nothing changed.  Method 2 gives no heading in
    either case. *)
Theorem C10_every_position_callback_raises
  (map : option (option nat)) (d : Document) (evs : list Event)
  (position : Position) (now : Z) :
  let st := run evs (init map d) in
  match heading (coords position) with
  | Some (Num h) =>
      exists newHeading st1,
        selectHeading position st = Normal newHeading st1
        /\ (newHeading = h \/ newHeading = currentHeading st)
        /\ positionCallback position now st
           = Throw (ReferenceError "lastPosition" PutValue)
               (commitHeading newHeading st1)
  | _ =>
      positionCallback position now st
      = Throw (ReferenceError "lastPosition" GetValue) st
  end.
Proof.
  cbv zeta.
  pose proof (lastPosition_run evs (init map d) eq_refl) as Hl.
  set (st := run evs (init map d)) in *.
  destruct (heading (coords position)) as [[| h] |] eqn:Hh.
  - apply positionCallback_thrown. apply selectHeading_unresolvable; [| exact Hl].
    intros h. rewrite Hh. discriminate.
  - pose proof (selectHeading_direct position st h Hh) as Hs.
    destruct (nullOrAbove (speed (coords position)) 0.3).
    + exists h, (setLastValidHeading st h).
      split; [exact Hs |]. split; [left; reflexivity |].
      rewrite (positionCallback_selected position now st _ h Hs).
      unfold assignLastPosition. rewrite lastPosition_commitHeading.
      cbn [lastPosition setLastValidHeading]. rewrite Hl. reflexivity.
    + exists (currentHeading st), st.
      split; [exact Hs |]. split; [right; reflexivity |].
      rewrite (positionCallback_selected position now st _ _ Hs).
      unfold assignLastPosition. rewrite lastPosition_commitHeading, Hl.
      reflexivity.
  - apply positionCallback_thrown. apply selectHeading_unresolvable; [| exact Hl].
    intros h. rewrite Hh. discriminate.
Qed.

(** C10 as the claim states it fails for a sample without a direct
    heading: the error is raised by the read of [lastPosition] in
    Method 2, before the jitter test, not by the assignment that ends
    the callback. *)
Lemma C10_error_is_raised_on_the_read :
  positionCallback (sample 0 0 None (Some (Num 2))) 0 (init None [])
  = Throw (ReferenceError "lastPosition" GetValue) (init None [])
  /\ ~ (exists st',
           positionCallback (sample 0 0 None (Some (Num 2))) 0 (init None [])
           = Throw (ReferenceError "lastPosition" PutValue) st').
Proof.
  assert (H : positionCallback (sample 0 0 None (Some (Num 2))) 0 (init None [])
              = Throw (ReferenceError "lastPosition" GetValue) (init None [])).
  { reflexivity. }
  split; [exact H |]. intros [st' E]. rewrite H in E. discriminate.
Qed.

End UndeclaredName.

Section HeadingInvariant.
Import JS DOM Geolocation Spec.

(** C4, as amended.  Fed with what the platform delivers (direct
    headings and compass angles in [0, 360)), from headings in [0, 360)
    (as the initial 0 is), the committed heading is in [0, 360) after
    every event, in both scripts; and the functions that apply and
    reset the map rotation leave the Heading State of any state as it
    is. *)
Theorem C4_heading_in_range_applier_frame
  (evsT : list TrackUpMode.Event) (t : TrackUpMode.State)
  (evsS : list SimpleTrackUp.Event) (s : SimpleTrackUp.State) :
  Forall wfEventT evsT -> inRangeT t ->
  Forall wfEventS evsS -> inRange (SimpleTrackUp.currentHeading s) ->
  Forall inRange (TrackUpMode.committed evsT t)
  /\ Forall inRange (SimpleTrackUp.committed evsS s)
  /\ (forall t0, headingStateT (TrackUpMode.updateMapRotation t0) = headingStateT t0)
  /\ (forall t0, headingStateT (TrackUpMode.resetMapRotation t0) = headingStateT t0)
  /\ (forall s0, headingStateS (SimpleTrackUp.rotateMap s0) = headingStateS s0)
  /\ (forall s0, headingStateS (SimpleTrackUp.resetMapRotation s0) = headingStateS s0).
Proof.
  intros HwT HT HwS HS.
  split; [apply committed_inRange; assumption |].
  split; [apply simple_committed_inRange; assumption |].
  split; [exact headingStateT_updateMapRotation |].
  split; [exact headingStateT_resetMapRotation |].
  split; [exact headingStateS_rotateMap | exact headingStateS_resetMapRotation].
Qed.

(** C4 on two runs over the example page, from the start of each
    script. *)
Lemma C4_heading_in_range_applier_frame_witness :
  Forall inRange
    (TrackUpMode.committed
       [ TrackUpMode.ToggleChange true;
         TrackUpMode.PositionUpdate (Page.moving 350) 0;
         TrackUpMode.DeviceOrientation (Some 90);
         TrackUpMode.PositionError;
         TrackUpMode.IntervalTick;
         TrackUpMode.ToggleChange false ]
       (TrackUpMode.init (Some (Some Page.mapContainer)) Page.page))
  /\ Forall inRange
       (SimpleTrackUp.committed
          [ SimpleTrackUp.ToggleChange true;
            SimpleTrackUp.PositionUpdate (Page.moving 350);
            SimpleTrackUp.PositionUpdate (sample 1 1 None (Some (Num 2)));
            SimpleTrackUp.ToggleChange false ]
          (SimpleTrackUp.init true (Some (Some Page.mapContainer)) Page.page)).
Proof.
  assert (H0 : inRange 0) by (unfold inRange; lra).
  assert (H350 : inRange 350) by (unfold inRange; lra).
  assert (H90 : inRange 90) by (unfold inRange; lra).
  destruct (C4_heading_in_range_applier_frame
              [ TrackUpMode.ToggleChange true;
                TrackUpMode.PositionUpdate (Page.moving 350) 0;
                TrackUpMode.DeviceOrientation (Some 90);
                TrackUpMode.PositionError;
                TrackUpMode.IntervalTick;
                TrackUpMode.ToggleChange false ]
              (TrackUpMode.init (Some (Some Page.mapContainer)) Page.page)
              [ SimpleTrackUp.ToggleChange true;
                SimpleTrackUp.PositionUpdate (Page.moving 350);
                SimpleTrackUp.PositionUpdate (sample 1 1 None (Some (Num 2)));
                SimpleTrackUp.ToggleChange false ]
              (SimpleTrackUp.init true (Some (Some Page.mapContainer)) Page.page))
    as (HT & HS & _).
  - repeat (apply List.Forall_cons; [first [exact I | exact H350 | exact H90] |]).
    apply List.Forall_nil.
  - split; exact H0.
  - repeat (apply List.Forall_cons; [first [exact I | exact H350] |]).
    apply List.Forall_nil.
  - exact H0.
  - split; assumption.
Defined.

(** C4 as the claim states it, for every sequence of samples, fails:
    neither script normalises a direct heading, so a sample that
    carries the heading 400 has 400 committed, from the start of either
    script. *)
Lemma C4_direct_heading_is_not_normalised :
  ~ Forall inRange
      (TrackUpMode.committed
         [ TrackUpMode.PositionUpdate (Page.moving 400) 0 ]
         (TrackUpMode.init (Some (Some Page.mapContainer)) Page.page))
  /\ ~ Forall inRange
         (SimpleTrackUp.committed
            [ SimpleTrackUp.ToggleChange true;
              SimpleTrackUp.PositionUpdate (Page.moving 400) ]
            (SimpleTrackUp.init true (Some (Some Page.mapContainer)) Page.page)).
Proof.
  assert (Hno : ~ inRange 400) by (unfold inRange; lra).
  split.
  - cbn [TrackUpMode.committed]. rewrite step_moving.
    cbn [TrackUpMode.currentHeading TrackUpMode.init].
    rewrite abs_gtb_true by lra.
    intros H. apply Hno. inversion H. assumption.
  - cbn [SimpleTrackUp.committed].
    set (s1 := SimpleTrackUp.step _ (SimpleTrackUp.ToggleChange true)).
    destruct (simple_step_moving 400 s1) as [H1 _].
    { subst s1. discriminate. }
    rewrite H1. intros H. inversion H as [| ? ? _ H2]. inversion H2. contradiction.
Qed.

End HeadingInvariant.

Section Compass.
Import JS DOM Geolocation Spec TrackUpMode.

Lemma step_toggle (checked : bool) (st : State) :
  currentHeading (step st (ToggleChange checked)) = currentHeading st
  /\ trackUpMode (step st (ToggleChange checked)) = checked.
Proof.
  cbn [step]. split; [| apply trackUpMode_onToggleChange].
  pose proof (headingStateT_onToggleChange checked st) as H.
  unfold headingStateT in H. injection H as H _ _. exact H.
Qed.

Lemma step_orientation (a : R) (st : State) :
  currentHeading (step st (DeviceOrientation (Some a)))
  = if trackUpMode st && eqb (currentHeading st) 0
    then rem (360 - a) 360 else currentHeading st.
Proof.
  cbn [step onDeviceOrientation].
  destruct (trackUpMode st && eqb (currentHeading st) 0); [| reflexivity].
  rewrite currentHeading_updateMapRotation. reflexivity.
Qed.

(** While the committed heading is not 0 the compass changes nothing. *)
Lemma compass_blocked (alpha : option R) (st : State) :
  currentHeading st <> 0 -> step st (DeviceOrientation alpha) = st.
Proof.
  intros H. destruct alpha as [a |]; [| reflexivity].
  cbn [step onDeviceOrientation].
  rewrite (jseqb_false _ _ H), andb_false_r. reflexivity.
Qed.

(** A first heading within 3 of 0 is cached but never committed, so the
    compass takes over as well: the heading 2 from the location
    subsystem, then [alpha] 90. *)
Lemma compass_overrides_uncommitted_heading
  (map : option (option nat)) (d : Document) :
  committed
    [ ToggleChange true;
      PositionUpdate (Page.moving 2) 0;
      DeviceOrientation (Some 90) ]
    (init map d)
  = [0; 0; 270].
Proof.
  cbn [committed].
  set (s1 := step (init map d) _).
  destruct (step_toggle true (init map d)) as [H1 M1]. fold s1 in H1, M1.
  cbn [currentHeading init] in H1.
  set (s2 := step s1 _).
  assert (H2 : currentHeading s2 = 0).
  { subst s2. rewrite step_moving, H1. rewrite abs_gtb_false by lra. reflexivity. }
  assert (M2 : trackUpMode s2 = true).
  { subst s2. rewrite step_mode. exact M1. }
  rewrite step_orientation, M2, H2, H1.
  rewrite jseqb_true by reflexivity. cbn [andb].
  replace (360 - 90) with 270 by lra.
  rewrite rem_small by lra. reflexivity.
Qed.

(** C9 fails on the code.  With Track Up on, the location subsystem
    gives the heading 50 and then the heading 0 (due north), both
    committed; the next compass event, [alpha] 90, replaces the
    committed heading by 270, because the listener takes the committed
    heading 0 for "no heading yet". *)
Theorem C9_compass_overrides_gps_heading_zero
  (map : option (option nat)) (d : Document) :
  committed
    [ ToggleChange true;
      PositionUpdate (Page.moving 50) 0;
      PositionUpdate (Page.moving 0) 1;
      DeviceOrientation (Some 90) ]
    (init map d)
  = [0; 50; 0; 270]
  /\ lastValidHeading
       (run [ ToggleChange true;
              PositionUpdate (Page.moving 50) 0;
              PositionUpdate (Page.moving 0) 1 ] (init map d)) = 0.
Proof.
  cbn [committed run fold_left].
  set (s1 := step (init map d) _).
  destruct (step_toggle true (init map d)) as [H1 M1]. fold s1 in H1, M1.
  cbn [currentHeading init] in H1.
  set (s2 := step s1 _).
  assert (H2 : currentHeading s2 = 50).
  { subst s2. rewrite step_moving, H1. rewrite abs_gtb_true by lra. reflexivity. }
  assert (M2 : trackUpMode s2 = true).
  { subst s2. rewrite step_mode. exact M1. }
  set (s3 := step s2 _).
  assert (H3 : currentHeading s3 = 0).
  { subst s3. rewrite step_moving, H2. rewrite abs_gtb_true by lra. reflexivity. }
  assert (M3 : trackUpMode s3 = true).
  { subst s3. rewrite step_mode. exact M2. }
  assert (L3 : lastValidHeading s3 = 0).
  { subst s3.
    assert (Hv : unknownOrAbove (speed (coords (Page.moving 0))) 0.3).
    { right. exists 2. split; [reflexivity | lra]. }
    pose proof (selectHeading_direct (Page.moving 0) s2 0 eq_refl) as Hs.
    apply nullOrAbove_iff in Hv. rewrite Hv in Hs.
    cbn [step]. rewrite (positionCallback_selected _ 1%Z s2 _ 0 Hs).
    rewrite lastValidHeading_assignLastPosition, lastValidHeading_commitHeading.
    reflexivity. }
  split; [| exact L3].
  rewrite step_orientation, M3, H3, H1, H2.
  rewrite jseqb_true by reflexivity. cbn [andb].
  replace (360 - 90) with 270 by lra.
  rewrite rem_small by lra. reflexivity.
Qed.

End Compass.

Section Bearing.
Import JS DOM Geolocation Spec.

(** A full turn more does not change the remainder. *)
Lemma rem_shift (x y : R) : 0 <= x < y -> rem (x + y) y = x.
Proof.
  intros [Hx Hxy]. unfold rem, trunc.
  assert (Hy : 0 < y) by lra.
  assert (Hq : (x + y) / y = x / y + 1) by (field; lra).
  assert (Hb : 0 <= x / y < 1).
  { split.
    - unfold Rdiv. apply Rmult_le_pos; [assumption |].
      left. apply Rinv_0_lt_compat. assumption.
    - apply (Rmult_lt_reg_r y); [assumption |].
      replace (x / y * y) with x by (field; lra). lra. }
  rewrite Hq.
  destruct (Rle_dec 0 (x / y + 1)) as [_ | Hn]; [| lra].
  assert (Hk : Int_part (x / y + 1) = 1%Z).
  { symmetry. apply Int_part_spec. simpl. lra. }
  rewrite Hk. simpl. lra.
Qed.

(** The bearing track_up_mode.js has in its Method 2 is the spherical
    bearing formula. *)
Lemma bearing_is_spherical (last : TrackUpMode.StoredPosition) (c : Coordinates) :
  rem (TrackUpMode.bearing last c + 360) 360
  = sphericalBearing (TrackUpMode.sp_latitude last) (TrackUpMode.sp_longitude last)
      (latitude c) (longitude c).
Proof. reflexivity. Qed.

(** It would be what the callback commits, were the name
    [lastPosition] bound to a stored position. *)
Lemma selectHeading_bound (position : Position) (st : TrackUpMode.State)
  (last : TrackUpMode.StoredPosition) :
  (forall h, heading (coords position) <> Some (Num h)) ->
  TrackUpMode.lastPosition st = TrackUpMode.Bound (Some last) ->
  nullOrAbove (speed (coords position)) 0.5 = true ->
  gtb (Math_abs (latitude (coords position) - TrackUpMode.sp_latitude last)) 0.00001
  || gtb (Math_abs (longitude (coords position) - TrackUpMode.sp_longitude last))
       0.00001 = true ->
  exists st1,
    TrackUpMode.selectHeading position st
    = TrackUpMode.Normal
        (sphericalBearing (TrackUpMode.sp_latitude last)
           (TrackUpMode.sp_longitude last)
           (latitude (coords position)) (longitude (coords position)))
        st1.
Proof.
  intros Hh Hl Hv Hm.
  unfold TrackUpMode.selectHeading, TrackUpMode.bind, TrackUpMode.get,
    TrackUpMode.modify, TrackUpMode.ret, TrackUpMode.readLastPosition.
  destruct (heading (coords position)) as [[| h] |];
    try (exfalso; apply (Hh h); reflexivity);
    rewrite Hl, Hv, Hm; eexists; reflexivity.
Qed.

(** C1, as the code has it, in simple_track_up.js.  For a sample
    without a direct heading, with a stored position, a speed above
    1.0 and a latitude or longitude that moved by more than 0.0001,
    the committed heading is the planar bearing of the raw coordinate
    differences, atan2(deltaLng, deltaLat) in degrees plus 360 modulo
    360, and it lies in [0, 360). *)
Theorem C1_bearing_from_movement_simple
  (s : SimpleTrackUp.State) (position : Position)
  (last : SimpleTrackUp.KnownPosition) (v : R) :
  (forall h, heading (coords position) <> Some (Num h)) ->
  SimpleTrackUp.lastKnownPosition s = Some last ->
  speed (coords position) = Some (Num v) -> 1.0 < v ->
  Rabs (latitude (coords position) - SimpleTrackUp.kp_latitude last) > 0.0001
  \/ Rabs (longitude (coords position) - SimpleTrackUp.kp_longitude last) > 0.0001 ->
  SimpleTrackUp.currentHeading (SimpleTrackUp.positionCallback position s)
  = rem (Math_atan2
           (longitude (coords position) - SimpleTrackUp.kp_longitude last)
           (latitude (coords position) - SimpleTrackUp.kp_latitude last)
         * 180 / PI + 360) 360
  /\ inRange (SimpleTrackUp.currentHeading (SimpleTrackUp.positionCallback position s)).
Proof.
  intros Hh Hl Hv Hv1 Hm.
  assert (E : SimpleTrackUp.currentHeading (SimpleTrackUp.positionCallback position s)
              = rem (SimpleTrackUp.planarBearing last (coords position) + 360) 360).
  { apply simple_computed; try assumption.
    - rewrite Hv. cbn [truthy above Number_gtb].
      rewrite jseqb_false by lra. rewrite gtb_true by lra. reflexivity.
    - apply orb_true_iff. destruct Hm as [Hm | Hm]; [left | right];
        apply gtb_true; exact Hm. }
  rewrite E. split; [reflexivity |].
  unfold SimpleTrackUp.planarBearing. apply normalized_atan2_range.
Qed.

(** C1 in simple_track_up.js from (0, 0) to (90, 90) at speed 2. *)
Lemma C1_bearing_from_movement_simple_witness :
  SimpleTrackUp.currentHeading
    (SimpleTrackUp.positionCallback (sample 90 90 None (Some (Num 2)))
       (Page.simpleTracking 0
          (Some {| SimpleTrackUp.kp_latitude := 0;
                   SimpleTrackUp.kp_longitude := 0 |})))
  = rem (Math_atan2 (90 - 0) (90 - 0) * 180 / PI + 360) 360.
Proof.
  apply (C1_bearing_from_movement_simple
           (Page.simpleTracking 0
              (Some {| SimpleTrackUp.kp_latitude := 0;
                       SimpleTrackUp.kp_longitude := 0 |}))
           (sample 90 90 None (Some (Num 2)))
           {| SimpleTrackUp.kp_latitude := 0; SimpleTrackUp.kp_longitude := 0 |}
           2).
  - intros h. discriminate.
  - reflexivity.
  - reflexivity.
  - lra.
  - left. cbn [latitude coords sample SimpleTrackUp.kp_latitude].
    unfold Rabs. destruct (Rcase_abs (90 - 0)); lra.
Defined.

(** C1 as the claim states it fails on simple_track_up.js: from
    (0, 0) to (90, 90) the script commits the heading 45, while the
    spherical bearing is 0 (due north, towards the pole). *)
Lemma C1_simple_bearing_is_not_spherical :
  SimpleTrackUp.currentHeading
    (SimpleTrackUp.positionCallback (sample 90 90 None (Some (Num 2)))
       (Page.simpleTracking 0
          (Some {| SimpleTrackUp.kp_latitude := 0;
                   SimpleTrackUp.kp_longitude := 0 |})))
  = 45
  /\ sphericalBearing 0 0 90 90 = 0
  /\ SimpleTrackUp.currentHeading
       (SimpleTrackUp.positionCallback (sample 90 90 None (Some (Num 2)))
          (Page.simpleTracking 0
             (Some {| SimpleTrackUp.kp_latitude := 0;
                      SimpleTrackUp.kp_longitude := 0 |})))
     <> sphericalBearing 0 0 90 90.
Proof.
  pose proof PI_RGT_0 as Hpi.
  cut (SimpleTrackUp.currentHeading
         (SimpleTrackUp.positionCallback (sample 90 90 None (Some (Num 2)))
            (Page.simpleTracking 0
               (Some {| SimpleTrackUp.kp_latitude := 0;
                        SimpleTrackUp.kp_longitude := 0 |})))
       = 45
       /\ sphericalBearing 0 0 90 90 = 0).
  { intros [H1 H2]. rewrite H1, H2. repeat split. lra. }
  split.
  - rewrite simple_computed
      with (last := {| SimpleTrackUp.kp_latitude := 0;
                       SimpleTrackUp.kp_longitude := 0 |}).
    + unfold SimpleTrackUp.planarBearing.
      cbn [latitude longitude coords sample SimpleTrackUp.kp_latitude
             SimpleTrackUp.kp_longitude].
      assert (Ha : Math_atan2 (90 - 0) (90 - 0) = PI / 4).
      { unfold Math_atan2. destruct (Rlt_dec 0 (90 - 0)) as [_ | Hn]; [| lra].
        replace ((90 - 0) / (90 - 0)) with 1 by (field; lra). apply atan_1. }
      rewrite Ha. unfold Math_PI.
      replace (PI / 4 * 180 / PI) with 45 by (field; lra).
      apply rem_shift. lra.
    + intros h. discriminate.
    + reflexivity.
    + cbn [speed coords sample truthy above Number_gtb].
      rewrite jseqb_false by lra. rewrite gtb_true by lra. reflexivity.
    + cbn [latitude longitude coords sample SimpleTrackUp.kp_latitude
             SimpleTrackUp.kp_longitude].
      rewrite abs_gtb_true by lra. reflexivity.
  - unfold sphericalBearing, radians.
    replace ((90 - 0) * PI / 180) with (PI / 2) by (field; lra).
    replace (90 * PI / 180) with (PI / 2) by (field; lra).
    replace (0 * PI / 180) with 0 by (field; lra).
    rewrite sin_PI2, cos_PI2, sin_0, cos_0.
    assert (Ha : Math_atan2 (1 * 0) (1 * 1 - 0 * 0 * 0) = 0).
    { unfold Math_atan2.
      destruct (Rlt_dec 0 (1 * 1 - 0 * 0 * 0)) as [_ | Hn]; [| lra].
      replace (1 * 0 / (1 * 1 - 0 * 0 * 0)) with 0 by (field; lra).
      apply atan_0. }
    rewrite Ha.
    replace (0 * 180 / PI + 360) with (0 + 360) by (field; lra).
    apply rem_shift. lra.
Qed.

End Bearing.

(* ===================================================================== *)
(** ** Resetting twice is resetting once                                  *)
(* ===================================================================== *)

Section AssignmentFacts.
Import JS DOM Assignments.

Lemma withStyle_withStyle (e : Element) (m1 m2 : gmap string CssValue) :
  withStyle (withStyle e m1) m2 = withStyle e m2.
Proof. reflexivity. Qed.

(** A later assignment to a property that parses replaces an earlier
    one. *)
Lemma setProperty_overwrite (p : string) (v w : CssValue) (e : Element) :
  css_valid v = true ->
  setProperty p v (setProperty p w e) = setProperty p v e.
Proof.
  intros Hv. unfold setProperty. rewrite Hv.
  destruct (css_valid w); [| reflexivity].
  destruct v as [[| a s] | a s], w as [[| b t] | b t];
    cbn [style withStyle]; rewrite withStyle_withStyle; f_equal;
    first [ apply delete_delete_eq | apply delete_insert_eq
          | apply insert_delete_eq | apply insert_insert_eq ].
Qed.

Lemma setProperty_commute (p q : string) (v w : CssValue) (e : Element) :
  p <> q ->
  setProperty p v (setProperty q w e) = setProperty q w (setProperty p v e).
Proof.
  intros Hpq. unfold setProperty.
  destruct (css_valid v), (css_valid w); try reflexivity.
  destruct v as [[| a s] | a s], w as [[| b t] | b t];
    cbn [style withStyle]; rewrite !withStyle_withStyle; f_equal;
    first [ apply delete_delete
          | apply delete_insert_ne; assumption
          | symmetry; apply delete_insert_ne; congruence
          | apply insert_insert_ne; assumption ].
Qed.

Lemma setProperty_withText (p : string) (v : CssValue) (t : string) (e : Element) :
  setProperty p v (withText e t) = withText (setProperty p v e) t.
Proof.
  unfold setProperty. destruct (css_valid v); [| reflexivity].
  destruct v as [[| a s] | a s]; reflexivity.
Qed.

Lemma sameTarget_sym (a b : Assignment) : sameTarget a b = sameTarget b a.
Proof.
  destruct a as [i p v | i t], b as [j q w | j u]; cbn [sameTarget];
    try reflexivity.
  - rewrite (Nat.eqb_sym i j), (String.eqb_sym p q). reflexivity.
  - apply Nat.eqb_sym.
Qed.

Lemma assign_overwrite (a b : Assignment) (d : Document) :
  parses b = true -> sameTarget a b = true -> assign b (assign a d) = assign b d.
Proof.
  destruct a as [i p v | i t], b as [j q w | j u]; cbn [sameTarget parses assign];
    intros Hb Hs; try discriminate.
  - apply andb_true_iff in Hs. destruct Hs as [Hi Hp].
    apply Nat.eqb_eq in Hi. apply String.eqb_eq in Hp. subst j q.
    unfold setStyle. rewrite list_alter_alter_eq.
    apply list_alter_ext; [| reflexivity].
    intros e _. apply setProperty_overwrite. assumption.
  - apply Nat.eqb_eq in Hs. subst j.
    unfold setTextContent. rewrite list_alter_alter_eq.
    apply list_alter_ext; [| reflexivity]. intros e _. reflexivity.
Qed.

Lemma assign_commute (a b : Assignment) (d : Document) :
  sameTarget a b = false -> assign b (assign a d) = assign a (assign b d).
Proof.
  destruct a as [i p v | i t], b as [j q w | j u]; cbn [sameTarget assign];
    intros Hs; unfold setStyle, setTextContent;
    destruct (Nat.eq_dec i j) as [-> | Hij];
    try (apply list_alter_alter_ne; congruence);
    rewrite ?Nat.eqb_refl in Hs; try discriminate;
    rewrite !list_alter_alter_eq; apply list_alter_ext; try reflexivity;
    intros e _; cbn [compose].
  - cbn [andb] in Hs. apply String.eqb_neq in Hs.
    apply setProperty_commute. congruence.
  - symmetry. apply setProperty_withText.
  - apply setProperty_withText.
Qed.

Lemma assign_twice (a : Assignment) (d : Document) :
  parses a = true -> assign a (assign a d) = assign a d.
Proof.
  intros Ha. apply assign_overwrite; [assumption |].
  destruct a as [i p v | i t]; cbn [sameTarget].
  - rewrite Nat.eqb_refl, String.eqb_refl. reflexivity.
  - apply Nat.eqb_refl.
Qed.

Lemma assignAll_cons (a : Assignment) (l : list Assignment) (d : Document) :
  assignAll (a :: l) d = assignAll l (assign a d).
Proof. reflexivity. Qed.

Lemma assignAll_app (l1 l2 : list Assignment) (d : Document) :
  assignAll (l1 ++ l2) d = assignAll l2 (assignAll l1 d).
Proof. unfold assignAll. apply fold_left_app. Qed.

(** An assignment made before a run of assignments either moves behind
    it, or is lost when the run writes to the same place. *)
Lemma assignAll_after (a : Assignment) (l : list Assignment) (d : Document) :
  forallb parses l = true ->
  assignAll l (assign a d) =
  if existsb (sameTarget a) l then assignAll l d else assign a (assignAll l d).
Proof.
  revert d. induction l as [| b l IH]; intros d Hl; [reflexivity |].
  cbn [forallb] in Hl. apply andb_true_iff in Hl. destruct Hl as [Hb Hl].
  cbn [existsb]. rewrite !assignAll_cons.
  destruct (sameTarget a b) eqn:Hs; cbn [orb].
  - rewrite (assign_overwrite a b d Hb Hs). reflexivity.
  - rewrite (assign_commute a b d Hs). apply IH. assumption.
Qed.

(** Running the same assignments a second time changes nothing. *)
Lemma assignAll_twice (l : list Assignment) (d : Document) :
  forallb parses l = true -> assignAll l (assignAll l d) = assignAll l d.
Proof.
  revert d. induction l as [| a l IH]; intros d Hl; [reflexivity |].
  cbn [forallb] in Hl. apply andb_true_iff in Hl. destruct Hl as [Ha Hl].
  rewrite !assignAll_cons.
  rewrite (assignAll_after a l (assignAll l (assign a d)) Hl).
  destruct (existsb (sameTarget a) l) eqn:He.
  - apply IH. assumption.
  - rewrite (IH (assign a d) Hl).
    rewrite (assignAll_after a l d Hl), He.
    apply assign_twice. assumption.
Qed.

Lemma shapes_assignAll (l : list Assignment) (d : Document) :
  shapes (assignAll l d) = shapes d.
Proof.
  revert d. induction l as [| a l IH]; intros d; [reflexivity |].
  rewrite assignAll_cons.
  rewrite IH. destruct a; [apply shapes_setStyle | apply shapes_setTextContent].
Qed.

(** A loop that assigns to each node is the run of its assignments. *)
Lemma forEach_assignAll (nodes : list nat) (body : nat -> Document -> Document)
  (ops : nat -> list Assignment) (d : Document) :
  (forall i d', body i d' = assignAll (ops i) d') ->
  forEach nodes body d = assignAll (flat_map ops nodes) d.
Proof.
  intros Hb. unfold forEach. revert d.
  induction nodes as [| n nodes IH]; intros d; [reflexivity |].
  cbn [fold_left flat_map]. rewrite assignAll_app, IH, Hb. reflexivity.
Qed.

Lemma forEachSelector_assignAll (sels : list Selector)
  (body : nat -> Document -> Document) (ops : nat -> list Assignment)
  (d0 d : Document) :
  (forall i d', body i d' = assignAll (ops i) d') ->
  shapes d = shapes d0 ->
  forEachSelector sels body d
  = assignAll
      (flat_map (fun sel => flat_map ops (querySelectorAll d0 [sel])) sels) d.
Proof.
  intros Hb. unfold forEachSelector. revert d.
  induction sels as [| s sels IH]; intros d Hd; [reflexivity |].
  cbn [fold_left flat_map]. rewrite assignAll_app.
  rewrite (querySelectorAll_shapes d0 d [s]) by (symmetry; assumption).
  rewrite <- (forEach_assignAll _ body ops d Hb).
  apply IH. rewrite shapes_forEach; [assumption |].
  intros i d'. rewrite Hb. apply shapes_assignAll.
Qed.

End AssignmentFacts.

Section ResetTwice.
Import JS DOM Assignments Spec.

Lemma forallb_flat_map {A B : Type} (f : B -> bool) (g : A -> list B) (l : list A) :
  (forall x, forallb f (g x) = true) -> forallb f (flat_map g l) = true.
Proof.
  intros H. induction l as [| x l IH]; [reflexivity |].
  cbn [flat_map]. rewrite forallb_app, H, IH. reflexivity.
Qed.

Lemma resetAssignments_parse (c : nat) (d : Document) :
  forallb parses (resetAssignments c d) = true.
Proof.
  unfold resetAssignments. rewrite !forallb_app.
  apply andb_true_iff. split; [reflexivity |].
  apply andb_true_iff. split; [destruct (parentElement d c); reflexivity |].
  apply andb_true_iff. split.
  { apply forallb_flat_map. intros sel. apply forallb_flat_map. intros i.
    reflexivity. }
  apply andb_true_iff. split; destruct (querySelector d _); reflexivity.
Qed.

Lemma resetAssignments_shapes (c : nat) (d d' : Document) :
  shapes d' = shapes d -> resetAssignments c d' = resetAssignments c d.
Proof.
  intros H. unfold resetAssignments.
  rewrite (parentElement_shapes d' d c H).
  rewrite !(querySelector_shapes d' d _ H).
  cbn [flat_map]. rewrite !(querySelectorAll_shapes d' d _ H). reflexivity.
Qed.

(** [resetMapRotation] of track_up_mode.js is the run of its
    assignments. *)
Lemma resetMapRotation_assignments (st : TrackUpMode.State) (c : nat) :
  TrackUpMode.leafletMap st = Some (Some c) ->
  TrackUpMode.document (TrackUpMode.resetMapRotation st)
  = assignAll (resetAssignments c (TrackUpMode.document st)) (TrackUpMode.document st).
Proof.
  intros Hl. unfold TrackUpMode.resetMapRotation. rewrite Hl.
  cbn [TrackUpMode.document TrackUpMode.setDocument].
  set (d := TrackUpMode.document st).
  unfold resetAssignments. rewrite !assignAll_app.
  set (d1 := setStyle c "transform" (Css_text "none") d).
  change (assignAll [SetStyle c "transform" (Css_text "none")] d) with d1.
  assert (Hs1 : shapes d1 = shapes d) by apply shapes_setStyle.
  rewrite (parentElement_shapes d1 d c Hs1).
  set (d2 := match parentElement d c with Some _ => _ | None => _ end).
  assert (E2 : assignAll
                 match parentElement d c with
                 | Some p =>
                     [ SetStyle p "overflow" (Css_text "");
                       SetStyle p "position" (Css_text "");
                       SetStyle p "zIndex" (Css_text "");
                       SetStyle p "backgroundColor" (Css_text "") ]
                 | None => []
                 end d1 = d2).
  { subst d2. destruct (parentElement d c); reflexivity. }
  rewrite E2.
  assert (Hs2 : shapes d2 = shapes d).
  { rewrite <- E2, shapes_assignAll. assumption. }
  rewrite updateUIElementsRotation_eq. cbv zeta.
  rewrite (forEachSelector_assignAll _ _
             (fun i => [ SetStyle i "transform" (Css_rotate_scale 0 1);
                         SetStyle i "transformOrigin" (Css_text "center center") ])
             d d2) by (reflexivity || assumption).
  set (d3 := assignAll (flat_map _ _) d2).
  assert (Hs3 : shapes d3 = shapes d).
  { subst d3. rewrite shapes_assignAll. assumption. }
  rewrite (querySelector_shapes d3 d _ Hs3).
  destruct (querySelector d [cls "track-up-container-compact"]) as [t |].
  - rewrite (querySelector_shapes (setStyle t _ _ d3) d)
      by (rewrite shapes_setStyle; assumption).
    destruct (querySelector d [cls "controls-compact"]); reflexivity.
  - rewrite (querySelector_shapes d3 d _ Hs3).
    destruct (querySelector d [cls "controls-compact"]); reflexivity.
Qed.

(** Resetting the rotation twice in a row gives exactly the state of
    resetting it once, in track_up_mode.js. *)
Lemma resetMapRotation_idempotent (st : TrackUpMode.State) :
  TrackUpMode.resetMapRotation (TrackUpMode.resetMapRotation st)
  = TrackUpMode.resetMapRotation st.
Proof.
  destruct (TrackUpMode.leafletMap st) as [[c |] |] eqn:Hl.
  - assert (Hl' : TrackUpMode.leafletMap (TrackUpMode.resetMapRotation st)
                  = Some (Some c)).
    { rewrite resetMapRotation_frame. exact Hl. }
    rewrite (resetMapRotation_frame (TrackUpMode.resetMapRotation st)).
    rewrite (resetMapRotation_assignments _ c Hl').
    rewrite (resetAssignments_shapes c (TrackUpMode.document st))
      by apply shapes_resetMapRotation.
    rewrite (resetMapRotation_assignments st c Hl).
    rewrite assignAll_twice by apply resetAssignments_parse.
    rewrite <- (resetMapRotation_assignments st c Hl).
    rewrite (resetMapRotation_frame st) at 1.
    rewrite (resetMapRotation_frame st) at 3.
    reflexivity.
  - unfold TrackUpMode.resetMapRotation. rewrite Hl. cbv beta iota. rewrite Hl.
    reflexivity.
  - unfold TrackUpMode.resetMapRotation. rewrite Hl. cbv beta iota. rewrite Hl.
    reflexivity.
Qed.

Lemma simple_shapes_resetMapRotation (st : SimpleTrackUp.State) :
  shapes (SimpleTrackUp.document (SimpleTrackUp.resetMapRotation st))
  = shapes (SimpleTrackUp.document st).
Proof.
  unfold SimpleTrackUp.resetMapRotation.
  destruct (SimpleTrackUp.leafletMap st) as [g |]; [| reflexivity].
  cbn [SimpleTrackUp.document SimpleTrackUp.setDocument].
  rewrite shapes_forEach by (intros; apply shapes_setStyle).
  destruct g; rewrite ?shapes_setStyle; reflexivity.
Qed.

Lemma simple_resetMapRotation_assignments (st : SimpleTrackUp.State)
  (g : option nat) :
  SimpleTrackUp.leafletMap st = Some g ->
  SimpleTrackUp.document (SimpleTrackUp.resetMapRotation st)
  = assignAll (simpleResetAssignments g (SimpleTrackUp.document st))
      (SimpleTrackUp.document st).
Proof.
  intros Hl. unfold SimpleTrackUp.resetMapRotation. rewrite Hl.
  cbn [SimpleTrackUp.document SimpleTrackUp.setDocument].
  set (d := SimpleTrackUp.document st).
  unfold simpleResetAssignments. rewrite assignAll_app.
  set (d1 := match g with Some _ => _ | None => d end).
  assert (E1 : assignAll
                 match g with
                 | Some c =>
                     [ SetStyle c "transform" (Css_text "none");
                       SetStyle c "transition" (Css_text "transform 0.5s ease-out") ]
                 | None => []
                 end d = d1).
  { subst d1. destruct g; reflexivity. }
  rewrite E1.
  assert (Hs1 : shapes d1 = shapes d).
  { rewrite <- E1. apply shapes_assignAll. }
  rewrite (querySelectorAll_shapes d1 d _ Hs1).
  apply forEach_assignAll. reflexivity.
Qed.

(** The same in simple_track_up.js. *)
Lemma simple_resetMapRotation_idempotent (st : SimpleTrackUp.State) :
  SimpleTrackUp.resetMapRotation (SimpleTrackUp.resetMapRotation st)
  = SimpleTrackUp.resetMapRotation st.
Proof.
  destruct (SimpleTrackUp.leafletMap st) as [g |] eqn:Hl.
  - assert (Hl' : SimpleTrackUp.leafletMap (SimpleTrackUp.resetMapRotation st)
                  = Some g).
    { rewrite simple_resetMapRotation_frame. exact Hl. }
    rewrite (simple_resetMapRotation_frame (SimpleTrackUp.resetMapRotation st)).
    rewrite (simple_resetMapRotation_assignments _ g Hl').
    assert (Ha : simpleResetAssignments g
                   (SimpleTrackUp.document (SimpleTrackUp.resetMapRotation st))
                 = simpleResetAssignments g (SimpleTrackUp.document st)).
    { unfold simpleResetAssignments.
      rewrite (querySelectorAll_shapes _ (SimpleTrackUp.document st))
        by apply simple_shapes_resetMapRotation.
      reflexivity. }
    rewrite Ha.
    rewrite (simple_resetMapRotation_assignments st g Hl).
    rewrite assignAll_twice.
    + rewrite <- (simple_resetMapRotation_assignments st g Hl).
      rewrite (simple_resetMapRotation_frame st) at 1.
      rewrite (simple_resetMapRotation_frame st) at 3.
      reflexivity.
    + unfold simpleResetAssignments. rewrite forallb_app.
      apply andb_true_iff. split; [destruct g; reflexivity |].
      apply forallb_flat_map. intros i. reflexivity.
  - unfold SimpleTrackUp.resetMapRotation. rewrite Hl. cbv beta iota. rewrite Hl.
    reflexivity.
Qed.

End ResetTwice.

(* ===================================================================== *)
(** ** The rotation applier: surface, overlays, reset                     *)
(* ===================================================================== *)

Section Rotation.
Import JS DOM Geolocation Spec.

(** The counter-rotation undoes the rotation of the surface. *)
Lemma compose_inverse (h k : R) :
  k <> 0 -> compose (- h, k) (h, 1 / k) = identity.
Proof.
  intros Hk. unfold compose, identity. cbn [fst snd]. f_equal.
  - lra.
  - field. assumption.
Qed.

(** C6, as the code has it.  With rotation on and the map container in
    the page (and not itself matched by the overlay selectors), the
    container gets the rotation by the negated heading and a scale
    above 1 (1.1 in track_up_mode.js, 1.5 in simple_track_up.js); each
    zoom control and attribution, and in track_up_mode.js each marker
    icon other than a custom location indicator, gets the rotation by
    the heading and the reciprocal scale; the two compose to the
    identity. *)
Theorem C6_surface_and_overlay_transforms
  (t : TrackUpMode.State) (s : SimpleTrackUp.State) (ct cs : nat) :
  TrackUpMode.trackUpMode t = true ->
  TrackUpMode.leafletMap t = Some (Some ct) ->
  (exists e, TrackUpMode.document t !! ct = Some e) ->
  selected (TrackUpMode.document t) TrackUpMode.elementsToCounterRotate ct = false ->
  SimpleTrackUp.trackUpEnabled s = true ->
  SimpleTrackUp.leafletMap s = Some (Some cs) ->
  (exists e, SimpleTrackUp.document s !! cs = Some e) ->
  selected (SimpleTrackUp.document s) SimpleTrackUp.controlSelectors cs = false ->
  let ht := TrackUpMode.currentHeading t in
  let hs := SimpleTrackUp.currentHeading s in
  let dt := TrackUpMode.document (TrackUpMode.updateMapRotation t) in
  let ds := SimpleTrackUp.document (SimpleTrackUp.rotateMap s) in
  (styleOf dt ct "transform" = Some (Css_rotate_scale (- ht) TrackUpMode.scale)
   /\ TrackUpMode.scale > 1
   /\ forall j sel,
        In sel [ cls "leaflet-control-zoom"; cls "leaflet-control-attribution";
                 cls "leaflet-marker-icon" ] ->
        selected (TrackUpMode.document t) [sel] j = true ->
        selected (TrackUpMode.document t) [cls "custom-location-indicator"] j
        = false ->
        styleOf dt j "transform"
        = Some (Css_rotate_scale ht (1 / TrackUpMode.scale))
        /\ compose (- ht, TrackUpMode.scale) (ht, 1 / TrackUpMode.scale) = identity)
  /\ (styleOf ds cs "transform" = Some (Css_rotate_scale (- hs) SimpleTrackUp.scale)
      /\ SimpleTrackUp.scale > 1
      /\ forall j,
           selected (SimpleTrackUp.document s) SimpleTrackUp.controlSelectors j
           = true ->
           styleOf ds j "transform"
           = Some (Css_rotate_scale hs (1 / SimpleTrackUp.scale))
           /\ compose (- hs, SimpleTrackUp.scale) (hs, 1 / SimpleTrackUp.scale)
              = identity).
Proof.
  intros Hm Hl Hc Hn Hm' Hl' Hc' Hn'. cbv zeta. split.
  - split; [apply updateMapRotation_surface; assumption |].
    split; [unfold TrackUpMode.scale; lra |].
    intros j sel Hsel Hj _. split.
    + apply (updateMapRotation_overlay t ct j sel); try assumption.
      unfold TrackUpMode.elementsToCounterRotate.
      cbn [In] in *. tauto.
    + apply compose_inverse. unfold TrackUpMode.scale. lra.
  - split; [apply rotateMap_surface; assumption |].
    split; [unfold SimpleTrackUp.scale; lra |].
    intros j Hj. split.
    + apply (rotateMap_overlay s cs j); assumption.
    + apply compose_inverse. unfold SimpleTrackUp.scale. lra.
Qed.

(** C6 on the example page at the heading 47. *)
Lemma C6_surface_and_overlay_transforms_witness :
  styleOf (TrackUpMode.document (TrackUpMode.updateMapRotation (Page.tracking 47)))
    Page.mapContainer "transform"
  = Some (Css_rotate_scale (- 47) TrackUpMode.scale)
  /\ styleOf (TrackUpMode.document (TrackUpMode.updateMapRotation (Page.tracking 47)))
       Page.otherMarker "transform"
     = Some (Css_rotate_scale 47 (1 / TrackUpMode.scale))
  /\ styleOf
       (SimpleTrackUp.document (SimpleTrackUp.rotateMap (Page.simpleTracking 47 None)))
       Page.mapContainer "transform"
     = Some (Css_rotate_scale (- 47) SimpleTrackUp.scale)
  /\ styleOf
       (SimpleTrackUp.document (SimpleTrackUp.rotateMap (Page.simpleTracking 47 None)))
       Page.zoomControl "transform"
     = Some (Css_rotate_scale 47 (1 / SimpleTrackUp.scale)).
Proof.
  destruct (C6_surface_and_overlay_transforms
              (Page.tracking 47) (Page.simpleTracking 47 None)
              Page.mapContainer Page.mapContainer)
    as [(HT1 & _ & HT2) (HS1 & _ & HS2)].
  - reflexivity.
  - reflexivity.
  - eexists. reflexivity.
  - vm_compute. reflexivity.
  - reflexivity.
  - reflexivity.
  - eexists. reflexivity.
  - vm_compute. reflexivity.
  - split; [exact HT1 |]. split.
    + apply (HT2 Page.otherMarker (cls "leaflet-marker-icon")).
      * right. right. left. reflexivity.
      * vm_compute. reflexivity.
      * vm_compute. reflexivity.
    + split; [exact HS1 |].
      apply (HS2 Page.zoomControl). vm_compute. reflexivity.
Defined.

(** C6 as the claim states it fails for the popups, which the
    specification lists among the overlays: neither script touches
    their transform when it rotates the map. *)
Lemma C6_popup_is_not_counter_rotated :
  selected Page.page [cls "leaflet-popup"] Page.popup = true
  /\ styleOf (TrackUpMode.document (TrackUpMode.updateMapRotation (Page.tracking 47)))
       Page.mapContainer "transform"
     = Some (Css_rotate_scale (- 47) TrackUpMode.scale)
  /\ styleOf (TrackUpMode.document (TrackUpMode.updateMapRotation (Page.tracking 47)))
       Page.popup "transform"
     = None
  /\ styleOf
       (SimpleTrackUp.document (SimpleTrackUp.rotateMap (Page.simpleTracking 47 None)))
       Page.popup "transform"
     = None.
Proof.
  split; [vm_compute; reflexivity |].
  split.
  { apply updateMapRotation_surface;
      [reflexivity | reflexivity | eexists; reflexivity | vm_compute; reflexivity]. }
  split.
  - rewrite (updateMapRotation_untouched (Page.tracking 47) Page.mapContainer);
      [reflexivity | reflexivity | reflexivity | vm_compute; reflexivity
      | discriminate].
  - rewrite (rotateMap_untouched (Page.simpleTracking 47 None) Page.mapContainer);
      [reflexivity | reflexivity | reflexivity | vm_compute; reflexivity
      | discriminate].
Qed.

(** C8 fails on the code.  With Track Up on at the heading 47,
    [updateMapRotation] gives the marker of the user's location, a
    custom location indicator, the counter-rotation of the other
    overlays: its transform is not the identity. *)
Theorem C8_indicator_is_counter_rotated :
  selected Page.page [cls "custom-location-indicator"] Page.userMarker = true
  /\ styleOf (TrackUpMode.document (TrackUpMode.updateMapRotation (Page.tracking 47)))
       Page.userMarker "transform"
     = Some (Css_rotate_scale 47 (1 / TrackUpMode.scale))
  /\ ~ upright (TrackUpMode.document (TrackUpMode.updateMapRotation (Page.tracking 47)))
         Page.userMarker.
Proof.
  assert (H : styleOf
                (TrackUpMode.document (TrackUpMode.updateMapRotation (Page.tracking 47)))
                Page.userMarker "transform"
              = Some (Css_rotate_scale 47 (1 / TrackUpMode.scale))).
  { apply (updateMapRotation_overlay (Page.tracking 47) Page.mapContainer
             Page.userMarker (cls "custom-location-indicator"));
      [reflexivity | reflexivity | | vm_compute; reflexivity].
    right. right. left. reflexivity. }
  split; [vm_compute; reflexivity |]. split; [exact H |].
  unfold upright. rewrite H. cbn [denote]. unfold identity.
  intros E. injection E as E _. lra.
Qed.

(** C7 fails on the code, in track_up_mode.js.  After rotating the
    page to the heading 47, switching the toggle off brings the map
    container back to the identity but leaves the two markers with the
    counter-rotation by 47 degrees: the reset loops visit controls and
    popups only, and what they assign to the custom indicators does
    not parse.  (The reset is idempotent all the same, see
    [resetMapRotation_idempotent].) *)
Theorem C7_reset_leaves_markers_rotated :
  let rotated := TrackUpMode.updateMapRotation (Page.tracking 47) in
  let disabled := TrackUpMode.onToggleChange false rotated in
  TrackUpMode.trackUpMode disabled = false
  /\ upright (TrackUpMode.document disabled) Page.mapContainer
  /\ styleOf (TrackUpMode.document disabled) Page.otherMarker "transform"
     = Some (Css_rotate_scale 47 (1 / TrackUpMode.scale))
  /\ styleOf (TrackUpMode.document disabled) Page.userMarker "transform"
     = Some (Css_rotate_scale 47 (1 / TrackUpMode.scale))
  /\ ~ upright (TrackUpMode.document disabled) Page.otherMarker
  /\ ~ upright (TrackUpMode.document disabled) Page.userMarker.
Proof.
  cbv zeta.
  set (rotated := TrackUpMode.updateMapRotation (Page.tracking 47)).
  assert (Hshape : shapes (TrackUpMode.document rotated) = shapes Page.page).
  { apply (shapes_updateMapRotation (Page.tracking 47)). }
  assert (Hl : TrackUpMode.leafletMap rotated = Some (Some Page.mapContainer)).
  { subst rotated. rewrite updateMapRotation_frame. reflexivity. }
  assert (H4 : styleOf (TrackUpMode.document rotated) Page.otherMarker "transform"
               = Some (Css_rotate_scale 47 (1 / TrackUpMode.scale))).
  { apply (updateMapRotation_overlay (Page.tracking 47) Page.mapContainer
             Page.otherMarker (cls "leaflet-marker-icon"));
      [reflexivity | reflexivity | | vm_compute; reflexivity].
    right. right. right. left. reflexivity. }
  assert (H3 : styleOf (TrackUpMode.document rotated) Page.userMarker "transform"
               = Some (Css_rotate_scale 47 (1 / TrackUpMode.scale))).
  { apply (updateMapRotation_overlay (Page.tracking 47) Page.mapContainer
             Page.userMarker (cls "custom-location-indicator"));
      [reflexivity | reflexivity | | vm_compute; reflexivity].
    right. right. left. reflexivity. }
  clearbody rotated.
  assert (Hkeep : forall j,
             j <> Page.mapContainer ->
             selected Page.page [cls "leaflet-control"; cls "leaflet-popup"] j = false ->
             styleOf (TrackUpMode.document (TrackUpMode.onToggleChange false rotated))
               j "transform"
             = styleOf (TrackUpMode.document rotated) j "transform").
  { intros j Hj Hsel.
    apply (toggle_off_untouched rotated Page.mapContainer j Hl Hj).
    - rewrite (selected_shapes _ Page.page _ j Hshape). exact Hsel.
    - rewrite (querySelector_shapes _ Page.page _ Hshape). vm_compute. discriminate.
    - rewrite (querySelector_shapes _ Page.page _ Hshape). vm_compute. discriminate. }
  assert (K4 : styleOf (TrackUpMode.document (TrackUpMode.onToggleChange false rotated))
                 Page.otherMarker "transform"
               = Some (Css_rotate_scale 47 (1 / TrackUpMode.scale))).
  { rewrite <- H4. apply Hkeep; [discriminate | vm_compute; reflexivity]. }
  assert (K3 : styleOf (TrackUpMode.document (TrackUpMode.onToggleChange false rotated))
                 Page.userMarker "transform"
               = Some (Css_rotate_scale 47 (1 / TrackUpMode.scale))).
  { rewrite <- H3. apply Hkeep; [discriminate | vm_compute; reflexivity]. }
  split; [apply trackUpMode_onToggleChange |].
  split.
  { apply toggle_off_surface; [exact Hl |].
    apply (shapes_exists Page.page); [exact Hshape |]. eexists. reflexivity. }
  split; [exact K4 |]. split; [exact K3 |].
  unfold upright. rewrite K4, K3. cbn [denote]. unfold identity.
  split; intros E; injection E as E _; lra.
Qed.

End Rotation.

(* ===================================================================== *)
(** ** js/track_up_mode.js: the events, one at a time                     *)
(* ===================================================================== *)

Section TrackUpEvents.
Import JS DOM Geolocation TrackUpMode Spec.

Lemma commitHeading_same (st : State) : commitHeading (currentHeading st) st = st.
Proof.
  unfold commitHeading. rewrite abs_gtb_false; [reflexivity |]. lra.
Qed.

Lemma document_assignLastPosition (v : StoredPosition) (st : State) :
  document (stateOf (assignLastPosition v st)) = document st.
Proof. unfold assignLastPosition. destruct (lastPosition st); reflexivity. Qed.

(** The whole position callback where [lastPosition] is unresolvable. *)
Lemma step_position_unresolvable (position : Position) (now : Z) (st : State) :
  lastPosition st = Unresolvable ->
  step st (PositionUpdate position now) =
  match heading (coords position) with
  | Some (Num h) =>
      if nullOrAbove (speed (coords position)) 0.3
      then commitHeading h (setLastValidHeading st h)
      else st
  | _ => st
  end.
Proof.
  intros Hl. cbn [step].
  assert (Hno : (forall h, heading (coords position) <> Some (Num h)) ->
                stateOf (positionCallback position now st) = st).
  { intros Hh.
    rewrite (positionCallback_thrown position now st st _
               (selectHeading_unresolvable position st Hh Hl)).
    reflexivity. }
  destruct (heading (coords position)) as [[| h] |] eqn:Hh.
  - apply Hno. intros h. discriminate.
  - pose proof (selectHeading_direct position st h Hh) as Hs.
    destruct (nullOrAbove (speed (coords position)) 0.3).
    + rewrite (positionCallback_selected position now st _ h Hs).
      unfold assignLastPosition.
      rewrite lastPosition_commitHeading. cbn [lastPosition setLastValidHeading].
      rewrite Hl. reflexivity.
    + rewrite (positionCallback_selected position now st _ _ Hs).
      rewrite commitHeading_same. unfold assignLastPosition. rewrite Hl.
      reflexivity.
  - apply Hno. intros h. discriminate.
Qed.

Lemma document_selectHeading (position : Position) (st : State) :
  document (stateOf (selectHeading position st)) = document st.
Proof.
  unfold selectHeading, bind, get, modify, ret, readLastPosition.
  destruct (heading (coords position)) as [[| h] |];
    [ destruct (lastPosition st) as [| [lp |]]; [reflexivity | |]
    | | destruct (lastPosition st) as [| [lp |]]; [reflexivity | |] ];
    repeat match goal with
           | |- context [if ?b then _ else _] => destruct b
           end;
    reflexivity.
Qed.

(** The two flags that follow the mode, after one event. *)
Lemma flags_step (st : State) (ev : Event) :
  (mapRotationEnabled (step st ev), headingUpdateInterval (step st ev))
  = match ev with
    | ToggleChange checked => (checked, checked)
    | _ => (mapRotationEnabled st, headingUpdateInterval st)
    end.
Proof.
  assert (Hc : forall h s,
             (mapRotationEnabled (commitHeading h s),
              headingUpdateInterval (commitHeading h s))
             = (mapRotationEnabled s, headingUpdateInterval s)).
  { intros h s. unfold commitHeading.
    destruct (gtb _ 3); [| reflexivity].
    destruct (trackUpMode _); [| reflexivity].
    rewrite updateTrackUpStatus_frame.
    cbn [mapRotationEnabled headingUpdateInterval setDocument].
    rewrite updateMapRotation_frame. reflexivity. }
  assert (Ha : forall v s,
             (mapRotationEnabled (stateOf (assignLastPosition v s)),
              headingUpdateInterval (stateOf (assignLastPosition v s)))
             = (mapRotationEnabled s, headingUpdateInterval s)).
  { intros v s. unfold assignLastPosition. destruct (lastPosition s); reflexivity. }
  assert (Hs : forall p s,
             (mapRotationEnabled (stateOf (selectHeading p s)),
              headingUpdateInterval (stateOf (selectHeading p s)))
             = (mapRotationEnabled s, headingUpdateInterval s)).
  { intros p s. unfold selectHeading, bind, get, modify, ret, readLastPosition.
    destruct (heading (coords p)) as [[| h] |];
      [ destruct (lastPosition s) as [| [lp |]]; [reflexivity | |]
      | | destruct (lastPosition s) as [| [lp |]]; [reflexivity | |] ];
      repeat match goal with
             | |- context [if ?b then _ else _] => destruct b
             end;
      reflexivity. }
  destruct ev as [position now | | alpha | checked |]; cbn [step].
  - pose proof (Hs position st) as Hsel.
    destruct (selectHeading position st) as [newHeading st1 | e st1] eqn:E;
      cbn [stateOf] in Hsel.
    + rewrite (positionCallback_selected position now st st1 newHeading E).
      rewrite Ha, Hc. exact Hsel.
    + rewrite (positionCallback_thrown position now st st1 e E). exact Hsel.
  - unfold errorCallback. rewrite updateTrackUpStatus_frame. reflexivity.
  - unfold onDeviceOrientation. destruct alpha as [a |]; [| reflexivity].
    destruct (trackUpMode st && eqb (currentHeading st) 0); [| reflexivity].
    rewrite updateMapRotation_frame. reflexivity.
  - unfold onToggleChange, updateTrackUpMode.
    destruct checked; cbn [trackUpMode setTrackUpMode].
    + rewrite updateMapRotation_frame.
      cbn [mapRotationEnabled headingUpdateInterval setDocument].
      match goal with
      | |- context [if ?b then _ else _] => destruct b eqn:Eb
      end; cbn [mapRotationEnabled headingUpdateInterval setHeadingUpdateInterval
                  setDocument setMapRotationEnabled]; [reflexivity |].
      cbn [headingUpdateInterval setDocument setMapRotationEnabled] in Eb.
      apply negb_false_iff in Eb. rewrite Eb. reflexivity.
    + rewrite resetMapRotation_frame.
      cbn [mapRotationEnabled headingUpdateInterval setDocument].
      match goal with
      | |- context [if ?b then _ else _] => destruct b eqn:Eb
      end; cbn [mapRotationEnabled headingUpdateInterval setHeadingUpdateInterval
                  setDocument setMapRotationEnabled]; [reflexivity |].
      cbn [headingUpdateInterval setMapRotationEnabled] in Eb.
      rewrite Eb. reflexivity.
  - assert (Hi : (mapRotationEnabled (onInterval st),
                  headingUpdateInterval (onInterval st))
                 = (mapRotationEnabled st, headingUpdateInterval st)).
    { unfold onInterval. destruct (trackUpMode st); [| reflexivity].
      cbn [mapRotationEnabled headingUpdateInterval setDocument].
      rewrite updateMapRotation_frame. reflexivity. }
    destruct (headingUpdateInterval st) eqn:Ei; [| rewrite Ei; reflexivity].
    rewrite Hi; try rewrite Ei; reflexivity.
Qed.

End TrackUpEvents.

(* ===================================================================== *)
(** ** js/track_up_mode.js: the marker clean-up                           *)
(* ===================================================================== *)

Section RemovalFacts.
Import JS DOM Geolocation TrackUpMode Spec Removal.

Lemma keeps_refl (e : Element) : keeps e e.
Proof. split; [reflexivity | left; reflexivity]. Qed.

Lemma keeps_trans (e1 e2 e3 : Element) : keeps e1 e2 -> keeps e2 e3 -> keeps e1 e3.
Proof.
  intros [Hc1 Hp1] [Hc2 Hp2]. split; [congruence |].
  destruct Hp2 as [Hp2 | Hp2]; [| right; assumption].
  destruct Hp1 as [Hp1 | Hp1]; [left | right]; congruence.
Qed.

Lemma keeps_withParent (e : Element) : keeps e (withParent e NoParent).
Proof. split; [reflexivity | right; reflexivity]. Qed.

Lemma detachedFrom_refl (d : Document) : detachedFrom d d.
Proof.
  split; [reflexivity |]. intros j e' H. exists e'. split; [assumption |].
  apply keeps_refl.
Qed.

Lemma detachedFrom_trans (d1 d2 d3 : Document) :
  detachedFrom d1 d2 -> detachedFrom d2 d3 -> detachedFrom d1 d3.
Proof.
  intros [Hl1 H1] [Hl2 H2]. split; [congruence |].
  intros j e3 H3. destruct (H2 j e3 H3) as (e2 & He2 & K2).
  destruct (H1 j e2 He2) as (e1 & He1 & K1).
  exists e1. split; [assumption |]. apply (keeps_trans e1 e2 e3); assumption.
Qed.

Lemma detachedFrom_removeIfAttached (i : nat) (d : Document) :
  detachedFrom d (removeIfAttached i d).
Proof.
  unfold removeIfAttached. destruct (hasParentNode d i); [| apply detachedFrom_refl].
  unfold removeFromParent. split; [apply length_alter |].
  intros j e' H. destruct (decide (i = j)) as [-> | Hne].
  - rewrite list_lookup_alter_eq in H.
    destruct (d !! j) as [e |] eqn:E; [| discriminate].
    cbn in H. injection H as <-. exists e. split; [reflexivity |].
    apply keeps_withParent.
  - rewrite list_lookup_alter_ne in H by assumption.
    exists e'. split; [assumption | apply keeps_refl].
Qed.

Lemma detachedFrom_removeImageMarker (i : nat) (d : Document) :
  detachedFrom d (removeImageMarker i d).
Proof.
  unfold removeImageMarker.
  match goal with
  | |- context [if ?b then _ else _] => destruct b
  end; [apply detachedFrom_removeIfAttached | apply detachedFrom_refl].
Qed.

Lemma detachedFrom_forEach (nodes : list nat) (body : nat -> Document -> Document)
  (d : Document) :
  (forall i d', detachedFrom d' (body i d')) ->
  detachedFrom d (forEach nodes body d).
Proof.
  intros Hb.
  apply (forEach_invariant (fun d' => detachedFrom d d')).
  - intros i d' H. apply (detachedFrom_trans d d'); [assumption | apply Hb].
  - apply detachedFrom_refl.
Qed.

Lemma keeps_matchesCompound (e e' : Element) (c : Compound) :
  keeps e e' -> matchesCompound e' c = matchesCompound e c.
Proof.
  intros [Hc _]. unfold content in Hc. injection Hc as Ht _ Hcl _ _ _.
  unfold matchesCompound, hasClass. rewrite Ht, Hcl. reflexivity.
Qed.

(** An element that is in the document after removals was in it before. *)
Lemma isConnected_detached (d d' : Document) (fuel : nat) (e e' : Element) :
  detachedFrom d d' -> keeps e e' ->
  isConnected d' fuel e' = true -> isConnected d fuel e = true.
Proof.
  intros [Hlen Hd]. revert e e'.
  induction fuel as [| f IH]; intros e e' [_ Hp] H.
  - cbn in H |- *. destruct (parentNode e') eqn:E'; try discriminate.
    destruct Hp as [Hp | Hp]; [| discriminate]. rewrite <- Hp. reflexivity.
  - cbn in H |- *. destruct (parentNode e') as [| k |] eqn:E'; try discriminate.
    + destruct Hp as [Hp | Hp]; [| discriminate]. rewrite <- Hp. reflexivity.
    + destruct Hp as [Hp | Hp]; [| discriminate]. rewrite <- Hp.
      destruct (d' !! k) as [p' |] eqn:Ek; [| discriminate].
      destruct (Hd k p' Ek) as (p & Hpk & K). rewrite Hpk.
      apply (IH p p'); assumption.
Qed.

Lemma connected_detached (d d' : Document) (j : nat) :
  detachedFrom d d' -> connected d' j = true -> connected d j = true.
Proof.
  intros Hd. unfold connected.
  destruct (d' !! j) as [e' |] eqn:E'; [| discriminate].
  destruct Hd as [Hlen Hk]. destruct (Hk j e' E') as (e & He & K).
  rewrite He, Hlen. apply (isConnected_detached d d'); [split |]; assumption.
Qed.

Lemma selected_Sel (d : Document) (c : Compound) (j : nat) :
  selected d [Sel c] j = true <->
  exists e, d !! j = Some e /\ connected d j = true /\ matchesCompound e c = true.
Proof.
  unfold selected, connected. destruct (d !! j) as [e |] eqn:E.
  - cbn [existsb matches]. rewrite orb_false_r, andb_true_iff. split.
    + intros [H1 H2]. exists e. repeat split; assumption.
    + intros (e0 & He & H1 & H2). injection He as <-. split; assumption.
  - split; [discriminate |]. intros (e0 & He & _). discriminate.
Qed.

(** Removing from the parent leaves an element without a parent. *)
Lemma removeIfAttached_noParent (j : nat) (d : Document) (e : Element) :
  removeIfAttached j d !! j = Some e -> parentNode e = NoParent.
Proof.
  unfold removeIfAttached, hasParentNode, removeFromParent.
  destruct (d !! j) as [e0 |] eqn:E.
  - destruct (parentNode e0) eqn:Ep.
    + rewrite list_lookup_alter_eq, E. cbn. intros H. injection H as <-. reflexivity.
    + rewrite list_lookup_alter_eq, E. cbn. intros H. injection H as <-. reflexivity.
    + rewrite E. intros H. injection H as <-. assumption.
  - rewrite E. discriminate.
Qed.

Lemma noParent_detached (d d' : Document) (j : nat) :
  detachedFrom d d' ->
  (forall e, d !! j = Some e -> parentNode e = NoParent) ->
  forall e', d' !! j = Some e' -> parentNode e' = NoParent.
Proof.
  intros [_ Hd] H e' E'. destruct (Hd j e' E') as (e & He & _ & [Hp | Hp]);
    [| assumption].
  rewrite Hp. apply H. assumption.
Qed.

Lemma noParent_not_connected (d : Document) (j : nat) :
  (forall e, d !! j = Some e -> parentNode e = NoParent) -> connected d j = false.
Proof.
  intros H. unfold connected. destruct (d !! j) as [e |] eqn:E; [| reflexivity].
  pose proof (H e eq_refl) as Hp.
  destruct (length d); cbn; rewrite Hp; reflexivity.
Qed.

(** A loop of removals leaves each node it visits without a parent. *)
Lemma forEach_removeIfAttached_noParent (nodes : list nat) (j : nat) (d : Document) :
  In j nodes ->
  forall e, forEach nodes removeIfAttached d !! j = Some e -> parentNode e = NoParent.
Proof.
  intros Hin.
  apply (forEach_reach
           (fun d' => forall e, d' !! j = Some e -> parentNode e = NoParent)
           (fun _ => True) nodes removeIfAttached j d Hin).
  - intros i d' H. apply (noParent_detached d'); [| assumption].
    apply detachedFrom_removeIfAttached.
  - intros; exact I.
  - intros d' _ e. apply removeIfAttached_noParent.
  - exact I.
Qed.

Lemma forEach_fixed (nodes : list nat) (body : nat -> Document -> Document)
  (d : Document) :
  (forall i, In i nodes -> body i d = d) -> forEach nodes body d = d.
Proof.
  unfold forEach. induction nodes as [| i nodes IH]; intros H; [reflexivity |].
  cbn [fold_left]. rewrite (H i) by (left; reflexivity).
  apply IH. intros k Hk. apply H. right. assumption.
Qed.

End RemovalFacts.

Section RemovalStages.
Import JS DOM Geolocation TrackUpMode Spec Removal.

Lemma keeps_removable (e e' : Element) : keeps e e' -> removable e' = removable e.
Proof.
  intros K. unfold removable.
  rewrite !(keeps_matchesCompound e e') by assumption.
  destruct K as [Hc _]. unfold content in Hc. injection Hc as _ _ _ Hs _ _.
  rewrite Hs. reflexivity.
Qed.

Lemma detachedFrom_lookup (d d' : Document) (j : nat) (e : Element) :
  detachedFrom d d' -> d !! j = Some e ->
  exists e', d' !! j = Some e' /\ keeps e e'.
Proof.
  intros [Hlen Hk] He.
  destruct (d' !! j) as [e' |] eqn:E'.
  - destruct (Hk j e' E') as (e0 & He0 & K). exists e'.
    split; [reflexivity |]. congruence.
  - exfalso. apply lookup_ge_None in E'. apply lookup_lt_Some in He.
    rewrite Hlen in E'. apply (Nat.lt_irrefl j).
    eapply Nat.lt_le_trans; eassumption.
Qed.

(** What a loop of removals over a selector removed is not selected
    again, whatever is removed later. *)
Lemma removed_not_selected (d d' : Document) (c : Compound) (j : nat) :
  detachedFrom (forEach (querySelectorAll d [Sel c]) removeIfAttached d) d' ->
  selected d' [Sel c] j = false.
Proof.
  intros Hd. destruct (selected d' [Sel c] j) eqn:E; [exfalso | reflexivity].
  apply selected_Sel in E. destruct E as (e' & He' & Hc & Hm).
  assert (Hd0 : detachedFrom d d').
  { eapply detachedFrom_trans; [| exact Hd].
    apply detachedFrom_forEach. intros i d0. apply detachedFrom_removeIfAttached. }
  destruct Hd0 as [Hlen Hk]. destruct (Hk j e' He') as (e & He & K).
  assert (Hsel : selected d [Sel c] j = true).
  { apply selected_Sel. exists e. repeat split; [assumption | |].
    - apply (connected_detached d d'); [split |]; assumption.
    - rewrite <- (keeps_matchesCompound e e') by assumption. assumption. }
  apply querySelectorAll_In in Hsel.
  pose proof (forEach_removeIfAttached_noParent _ j d Hsel) as Hn.
  pose proof (noParent_detached _ d' j Hd Hn) as Hn'.
  rewrite (noParent_not_connected d' j Hn') in Hc. discriminate.
Qed.

Lemma srcOf_detached (d d' : Document) (j : nat) (e : Element) :
  detachedFrom d d' -> d !! j = Some e -> srcOf d' j = src e.
Proof.
  intros Hd He. destruct (detachedFrom_lookup d d' j e Hd He) as (e' & He' & [Hc _]).
  unfold srcOf. rewrite He'. unfold content in Hc. injection Hc as _ _ _ Hs _ _.
  assumption.
Qed.

(** The same for the loop over the image markers. *)
Lemma image_removed_not_connected (d d' : Document) (j : nat) (e' : Element) :
  detachedFrom (forEach (querySelectorAll d [Sel imageMarker]) removeImageMarker d) d' ->
  d' !! j = Some e' -> connected d' j = true ->
  matchesCompound e' imageMarker && defaultImage (src e') = false.
Proof.
  intros Hd He' Hc.
  destruct (matchesCompound e' imageMarker && defaultImage (src e')) eqn:E;
    [exfalso | reflexivity].
  apply andb_true_iff in E. destruct E as [Hm Hs].
  assert (Hd0 : detachedFrom d d').
  { eapply detachedFrom_trans; [| exact Hd].
    apply detachedFrom_forEach. intros i d0. apply detachedFrom_removeImageMarker. }
  pose proof Hd0 as [Hlen Hk]. destruct (Hk j e' He') as (e & He & K).
  assert (Hsrc : src e' = src e).
  { destruct K as [Hcn _]. unfold content in Hcn. injection Hcn as _ _ _ H _ _.
    assumption. }
  assert (Hsel : selected d [Sel imageMarker] j = true).
  { apply selected_Sel. exists e. repeat split; [assumption | |].
    - apply (connected_detached d d'); assumption.
    - rewrite <- (keeps_matchesCompound e e') by assumption. assumption. }
  apply querySelectorAll_In in Hsel.
  assert (Hn : forall e1,
             forEach (querySelectorAll d [Sel imageMarker]) removeImageMarker d !! j
             = Some e1 -> parentNode e1 = NoParent).
  { apply (forEach_reach
             (fun d1 => forall e1, d1 !! j = Some e1 -> parentNode e1 = NoParent)
             (fun d1 => detachedFrom d d1) _ removeImageMarker j d Hsel).
    - intros i d1 H. apply (noParent_detached d1); [| assumption].
      apply detachedFrom_removeImageMarker.
    - intros i d1 H. apply (detachedFrom_trans d d1); [assumption |].
      apply detachedFrom_removeImageMarker.
    - intros d1 H1 e1. unfold removeImageMarker.
      rewrite (srcOf_detached d d1 j e H1 He), <- Hsrc.
      unfold defaultImage in Hs. rewrite Hs. apply removeIfAttached_noParent.
    - apply detachedFrom_refl. }
  pose proof (noParent_detached _ d' j Hd Hn) as Hn'.
  rewrite (noParent_not_connected d' j Hn') in Hc. discriminate.
Qed.

Lemma detachedFrom_detachMarkers (d : Document) : detachedFrom d (detachMarkers d).
Proof.
  unfold detachMarkers.
  eapply detachedFrom_trans; [eapply detachedFrom_trans |];
    apply detachedFrom_forEach; intros i d0;
    first [apply detachedFrom_removeIfAttached | apply detachedFrom_removeImageMarker].
Qed.

(** After the three loops nothing that is in the document is removable. *)
Lemma detachMarkers_clean (d : Document) (j : nat) (e : Element) :
  detachMarkers d !! j = Some e -> connected (detachMarkers d) j = true ->
  removable e = false.
Proof.
  intros He Hc. unfold removable.
  set (d1 := forEach (querySelectorAll d [Sel defaultMarker]) removeIfAttached d).
  set (d2 := forEach (querySelectorAll d1 [Sel imageMarker]) removeImageMarker d1).
  assert (H23 : detachedFrom d2 (detachMarkers d)).
  { unfold detachMarkers. fold d1. fold d2.
    apply detachedFrom_forEach. intros i d0. apply detachedFrom_removeIfAttached. }
  assert (H12 : detachedFrom d1 d2).
  { apply detachedFrom_forEach. intros i d0. apply detachedFrom_removeImageMarker. }
  assert (S1 : selected (detachMarkers d) [Sel defaultMarker] j = false).
  { apply (removed_not_selected d). fold d1.
    apply (detachedFrom_trans d1 d2); assumption. }
  assert (S3 : selected (detachMarkers d) [Sel markerShadow] j = false).
  { apply (removed_not_selected d2). apply detachedFrom_refl. }
  assert (S2 : matchesCompound e imageMarker && defaultImage (src e) = false).
  { apply (image_removed_not_connected d1 (detachMarkers d) j); assumption. }
  rewrite S2, orb_false_r.
  apply orb_false_iff. split.
  - destruct (matchesCompound e defaultMarker) eqn:E; [| reflexivity].
    rewrite <- S1. symmetry. apply selected_Sel. exists e. repeat split; assumption.
  - destruct (matchesCompound e markerShadow) eqn:E; [| reflexivity].
    rewrite <- S3. symmetry. apply selected_Sel. exists e. repeat split; assumption.
Qed.

(** So the loop that hides the remaining default markers finds none. *)
Lemma removeDefaultLocationMarkers_detachMarkers (d : Document) :
  removeDefaultLocationMarkers d = detachMarkers d.
Proof.
  unfold removeDefaultLocationMarkers.
  change (forEach (querySelectorAll (detachMarkers d) [cls "leaflet-marker-icon"])
            hideMarker (detachMarkers d) = detachMarkers d).
  apply forEach_fixed. intros j Hj.
  apply querySelectorAll_In in Hj. apply selected_Sel in Hj.
  destruct Hj as (e & He & Hc & Hm).
  pose proof (detachMarkers_clean d j e He Hc) as Hr.
  unfold removable in Hr. apply orb_false_iff in Hr. destruct Hr as [Hr _].
  apply orb_false_iff in Hr. destruct Hr as [Hr _].
  unfold hideMarker, isCustomMarker. rewrite He.
  unfold matchesCompound, defaultMarker in Hr, Hm.
  cbn [sel_tag sel_classes sel_not forallb] in Hr, Hm.
  rewrite andb_true_l, !andb_true_r in Hm.
  rewrite andb_true_l, !andb_true_r, Hm, andb_true_l, <- negb_orb in Hr.
  rewrite Hr. reflexivity.
Qed.

End RemovalStages.

Section RemovalTheorems.
Import JS DOM Geolocation TrackUpMode Spec Removal.

Lemma detachMarkers_fixed (d : Document) :
  (forall j e, d !! j = Some e -> connected d j = true -> removable e = false) ->
  detachMarkers d = d.
Proof.
  intros Hclean.
  assert (Hno : forall c,
             (forall e, matchesCompound e c = true ->
                        matchesCompound e defaultMarker
                        || matchesCompound e markerShadow = true) ->
             forEach (querySelectorAll d [Sel c]) removeIfAttached d = d).
  { intros c Hc. apply forEach_fixed. intros i Hi. exfalso.
    apply querySelectorAll_In in Hi. apply selected_Sel in Hi.
    destruct Hi as (e & He & Hcn & Hm).
    pose proof (Hclean i e He Hcn) as Hr. unfold removable in Hr.
    rewrite (Hc e Hm) in Hr. discriminate. }
  unfold detachMarkers.
  rewrite (Hno defaultMarker) by (intros e ->; reflexivity).
  assert (H2 : forEach (querySelectorAll d [Sel imageMarker]) removeImageMarker d = d).
  { apply forEach_fixed. intros i Hi.
    apply querySelectorAll_In in Hi. apply selected_Sel in Hi.
    destruct Hi as (e & He & Hcn & Hm).
    pose proof (Hclean i e He Hcn) as Hr. unfold removable in Hr.
    apply orb_false_iff in Hr. destruct Hr as [_ Hr]. rewrite Hm in Hr.
    unfold removeImageMarker, srcOf. rewrite He.
    unfold defaultImage in Hr. cbn [andb] in Hr. rewrite Hr. reflexivity. }
  rewrite H2.
  apply Hno. intros e ->. apply orb_true_r.
Qed.

Lemma forEach_invariant_In (P : Document -> Prop) (nodes : list nat)
  (body : nat -> Document -> Document) (d : Document) :
  (forall i d', In i nodes -> P d' -> P (body i d')) -> P d ->
  P (forEach nodes body d).
Proof.
  unfold forEach. revert d.
  induction nodes as [| i nodes IH]; intros d Hb Hd; [assumption |].
  cbn [fold_left]. apply IH.
  - intros k d' Hk. apply Hb. right. assumption.
  - apply Hb; [left; reflexivity | assumption].
Qed.

(** X1.  [removeDefaultLocationMarkers] takes out of the document every
    marker icon without a custom class, every marker shadow and every
    image marker icon whose address contains [marker-icon], [yellow],
    [arrow] or [location], the custom location indicators among the
    images included. *)
Theorem X1_default_markers_leave_the_document
  (d : Document) (j : nat) (e : Element) :
  d !! j = Some e -> removable e = true ->
  connected (removeDefaultLocationMarkers d) j = false.
Proof.
  intros He Hr. rewrite removeDefaultLocationMarkers_detachMarkers.
  destruct (connected (detachMarkers d) j) eqn:Hc; [exfalso | reflexivity].
  destruct (detachedFrom_lookup d _ j e (detachedFrom_detachMarkers d) He)
    as (e' & He' & K).
  pose proof (detachMarkers_clean d j e' He' Hc) as Hr'.
  rewrite (keeps_removable e e' K), Hr in Hr'. discriminate.
Qed.

(** X1 on the example page: the image marker is in the document before
    and out of it after. *)
Lemma X1_default_markers_leave_the_document_witness :
  connected Page.page Page.otherMarker = true
  /\ connected (removeDefaultLocationMarkers Page.page) Page.otherMarker = false.
Proof.
  split; [reflexivity |].
  apply (X1_default_markers_leave_the_document Page.page Page.otherMarker
           (Page.element "img" "" ["leaflet-marker-icon"] "images/marker-icon.png"
              (ParentElement 2))); reflexivity.
Defined.

(** X2.  [removeDefaultLocationMarkers] leaves every other element
    exactly as it was, parent included: an element that is neither a
    marker icon without a custom class, nor a marker shadow, nor an
    image marker icon with such an address. *)
Theorem X2_other_elements_are_kept (d : Document) (j : nat) (e : Element) :
  d !! j = Some e -> removable e = false ->
  removeDefaultLocationMarkers d !! j = Some e.
Proof.
  intros He Hr. rewrite removeDefaultLocationMarkers_detachMarkers.
  unfold removable in Hr. apply orb_false_iff in Hr. destruct Hr as [Hr H2].
  apply orb_false_iff in Hr. destruct Hr as [H1 H3].
  assert (Hnot : forall d0 c, d0 !! j = Some e -> matchesCompound e c = false ->
                   forEach (querySelectorAll d0 [Sel c]) removeIfAttached d0 !! j
                   = Some e).
  { intros d0 c H0 Hc. rewrite <- H0. apply forEach_untouched.
    - intros Hin. apply querySelectorAll_In in Hin. apply selected_Sel in Hin.
      destruct Hin as (e0 & He0 & _ & Hm). congruence.
    - intros i d' Hi. unfold removeIfAttached, removeFromParent.
      destruct (hasParentNode d' i); [| reflexivity].
      apply list_lookup_alter_ne. assumption. }
  unfold detachMarkers. apply Hnot; [| assumption].
  set (d1 := forEach (querySelectorAll d [Sel defaultMarker]) removeIfAttached d).
  assert (E1 : d1 !! j = Some e) by (apply Hnot; assumption).
  apply (forEach_invariant_In (fun d' => d' !! j = Some e)); [| assumption].
  intros i d' Hin H'. unfold removeImageMarker.
  destruct (decide (i = j)) as [-> | Hne].
  - apply querySelectorAll_In in Hin. apply selected_Sel in Hin.
    destruct Hin as (e0 & He0 & _ & Hm).
    assert (e0 = e) by congruence. subst e0.
    rewrite Hm in H2. cbn [andb] in H2.
    unfold srcOf. rewrite H'. unfold defaultImage in H2. rewrite H2. assumption.
  - match goal with
    | |- context [if ?b then _ else _] => destruct b
    end; [| assumption].
    unfold removeIfAttached, removeFromParent.
    destruct (hasParentNode d' i); [| assumption].
    rewrite list_lookup_alter_ne; assumption.
Qed.

(** X2 on the example page: the marker of the user's location. *)
Lemma X2_other_elements_are_kept_witness :
  removeDefaultLocationMarkers Page.page !! Page.userMarker
  = Page.page !! Page.userMarker.
Proof.
  apply (X2_other_elements_are_kept Page.page Page.userMarker); reflexivity.
Defined.

(** X3.  [removeDefaultLocationMarkers] only removes elements from
    their parents: every element keeps its tag, id, classes, address,
    inline style and text, so the loop that is to hide the remaining
    default markers never hides anything. *)
Theorem X3_markers_are_removed_never_hidden (d : Document) :
  removeDefaultLocationMarkers d = detachMarkers d
  /\ detachedFrom d (removeDefaultLocationMarkers d)
  /\ forall j p,
       styleOf (removeDefaultLocationMarkers d) j p = styleOf d j p.
Proof.
  rewrite removeDefaultLocationMarkers_detachMarkers.
  split; [reflexivity |]. split; [apply detachedFrom_detachMarkers |].
  intros j p. unfold styleOf.
  pose proof (detachedFrom_detachMarkers d) as Hd.
  destruct (d !! j) as [e |] eqn:E.
  - destruct (detachedFrom_lookup d _ j e Hd E) as (e' & He' & [Hc _]).
    rewrite He'. unfold content in Hc. injection Hc as _ _ _ _ Hs _.
    rewrite Hs. reflexivity.
  - destruct Hd as [Hlen _]. apply lookup_ge_None in E. rewrite <- Hlen in E.
    apply lookup_ge_None in E. rewrite E. reflexivity.
Qed.

(** X4.  Running [removeDefaultLocationMarkers] again changes nothing,
    as its call from the one-second timer relies on. *)
Theorem X4_marker_removal_is_idempotent (d : Document) :
  removeDefaultLocationMarkers (removeDefaultLocationMarkers d)
  = removeDefaultLocationMarkers d.
Proof.
  rewrite !removeDefaultLocationMarkers_detachMarkers.
  apply detachMarkers_fixed. apply detachMarkers_clean.
Qed.

End RemovalTheorems.

(* ===================================================================== *)
(** ** js/track_up_mode.js: the toggle and the page                       *)
(* ===================================================================== *)

Section TrackUpScenarios.
Import JS DOM Geolocation TrackUpMode Spec Removal.

Lemma setHeadingUpdateInterval_same (st : State) (b : bool) :
  headingUpdateInterval st = b -> setHeadingUpdateInterval st b = st.
Proof. destruct st. cbn. intros ->. reflexivity. Qed.

(** The handler of the toggle, switched on and switched off. *)
Lemma onToggleChange_true (st : State) :
  onToggleChange true st
  = let st1 := updateTrackUpStatus "Track Up Active" (setTrackUpMode st true) in
    updateMapRotation
      (setHeadingUpdateInterval
         (setDocument (setMapRotationEnabled st1 true)
            (removeDefaultLocationMarkers (document st1)))
         true).
Proof.
  unfold onToggleChange, updateTrackUpMode. cbn [trackUpMode setTrackUpMode].
  cbv zeta. cbn [document setMapRotationEnabled].
  match goal with
  | |- context [if negb ?b then _ else _] => destruct b eqn:Eb
  end; cbn [negb]; [| reflexivity].
  rewrite (setHeadingUpdateInterval_same _ true Eb). reflexivity.
Qed.

Lemma onToggleChange_false (st : State) :
  onToggleChange false st
  = resetMapRotation
      (setHeadingUpdateInterval
         (setMapRotationEnabled
            (updateTrackUpStatus "North Up" (setTrackUpMode st false)) false)
         false).
Proof.
  unfold onToggleChange, updateTrackUpMode. cbn [trackUpMode setTrackUpMode].
  cbv zeta.
  match goal with
  | |- context [if ?b then _ else _] => destruct b eqn:Eb
  end; [reflexivity |].
  rewrite (setHeadingUpdateInterval_same _ false Eb). reflexivity.
Qed.

(** An element that simple selectors do not select is not selected
    after removals either. *)
Lemma selected_detached (d d' : Document) (sels : list Selector) (j : nat) :
  (forall s, In s sels -> exists c, s = Sel c) ->
  detachedFrom d d' -> selected d sels j = false -> selected d' sels j = false.
Proof.
  intros Hs Hd. unfold selected.
  destruct (d' !! j) as [e' |] eqn:E'; [| reflexivity].
  pose proof Hd as [Hlen Hk]. destruct (Hk j e' E') as (e & He & K).
  rewrite He. intros H.
  assert (Hm : existsb (fun s => matches d' s e') sels
               = existsb (fun s => matches d s e) sels).
  { clear H. induction sels as [| s sels IH]; [reflexivity |].
    cbn [existsb]. rewrite IH by (intros s0 H0; apply Hs; right; assumption).
    destruct (Hs s (or_introl eq_refl)) as [c ->]. cbn [matches].
    rewrite (keeps_matchesCompound e e' c K). reflexivity. }
  rewrite Hm. apply andb_false_iff in H. destruct H as [H | H].
  - destruct (isConnected d' (length d') e') eqn:Ec; [| reflexivity].
    rewrite Hlen in Ec.
    rewrite (isConnected_detached d d' _ e e' Hd K Ec) in H. discriminate.
  - rewrite H. apply andb_false_r.
Qed.

Lemma elementsToCounterRotate_simple (s : Selector) :
  In s elementsToCounterRotate -> exists c, s = Sel c.
Proof.
  unfold elementsToCounterRotate, cls. cbn [In].
  intros [<- | [<- | [<- | [<- | []]]]]; eexists; reflexivity.
Qed.

(** X5.  Switching the toggle on applies the committed heading at once:
    the map container gets the rotation by the negated heading with the
    scale 1.1, and the heading is left as it is. *)
Theorem X5_toggle_on_applies_heading_at_once (st : State) (c : nat) :
  leafletMap st = Some (Some c) ->
  (exists e, document st !! c = Some e) ->
  selected (document st) elementsToCounterRotate c = false ->
  let st' := step st (ToggleChange true) in
  styleOf (document st') c "transform"
  = Some (Css_rotate_scale (- currentHeading st) scale)
  /\ currentHeading st' = currentHeading st
  /\ trackUpMode st' = true.
Proof.
  intros Hl Hc Hsel. cbv zeta. cbn [step].
  split; [| split; [| apply trackUpMode_onToggleChange]].
  2:{ pose proof (headingStateT_onToggleChange true st) as H.
      unfold headingStateT in H. injection H as H _ _. exact H. }
  rewrite onToggleChange_true. cbv zeta.
  set (st1 := updateTrackUpStatus "Track Up Active" (setTrackUpMode st true)).
  assert (Hs1 : shapes (document st1) = shapes (document st)).
  { apply (shapes_updateTrackUpStatus _ (setTrackUpMode st true)). }
  pose proof (detachedFrom_detachMarkers (document st1)) as Hd.
  rewrite <- removeDefaultLocationMarkers_detachMarkers in Hd.
  set (st3 := setHeadingUpdateInterval _ true).
  assert (Hh : currentHeading st3 = currentHeading st).
  { subst st3 st1. cbn [currentHeading setHeadingUpdateInterval setDocument
                          setMapRotationEnabled].
    rewrite updateTrackUpStatus_frame. reflexivity. }
  rewrite <- Hh. apply updateMapRotation_surface.
  - subst st3 st1. cbn [trackUpMode setHeadingUpdateInterval setDocument
                          setMapRotationEnabled].
    rewrite updateTrackUpStatus_frame. reflexivity.
  - subst st3 st1. cbn [leafletMap setHeadingUpdateInterval setDocument
                          setMapRotationEnabled].
    rewrite updateTrackUpStatus_frame. exact Hl.
  - subst st3. cbn [document setHeadingUpdateInterval setDocument].
    destruct (shapes_exists (document st) (document st1) c Hs1 Hc) as [e1 He1].
    destruct (detachedFrom_lookup _ _ c e1 Hd He1) as (e' & He' & _).
    exists e'. exact He'.
  - subst st3. cbn [document setHeadingUpdateInterval setDocument].
    apply (selected_detached (document st1)); [| exact Hd |].
    + apply elementsToCounterRotate_simple.
    + rewrite (selected_shapes _ (document st) _ c Hs1). exact Hsel.
Qed.

(** X5 on the example page, from the start with the toggle off: after a
    heading of 47 was committed, the toggle is switched on. *)
Lemma X5_toggle_on_applies_heading_at_once_witness :
  let st :=
    run [PositionUpdate (Page.moving 47) 0]
      (init (Some (Some Page.mapContainer)) Page.page) in
  currentHeading st = 47
  /\ styleOf (document (step st (ToggleChange true))) Page.mapContainer "transform"
     = Some (Css_rotate_scale (- 47) scale).
Proof.
  cbv zeta.
  assert (E : run [PositionUpdate (Page.moving 47) 0]
                (init (Some (Some Page.mapContainer)) Page.page)
              = setCurrentHeading
                  (setLastValidHeading
                     (init (Some (Some Page.mapContainer)) Page.page) 47) 47).
  { unfold run. cbn [fold_left].
    rewrite step_position_unresolvable by reflexivity.
    cbn [heading coords Page.moving sample speed nullOrAbove above Number_gtb].
    rewrite gtb_true by lra. unfold commitHeading.
    cbn [currentHeading setLastValidHeading init].
    rewrite abs_gtb_true by (left; lra). reflexivity. }
  rewrite E. split; [reflexivity |].
  apply (X5_toggle_on_applies_heading_at_once
           (setCurrentHeading
              (setLastValidHeading
                 (init (Some (Some Page.mapContainer)) Page.page) 47) 47)
           Page.mapContainer).
  - reflexivity.
  - eexists. reflexivity.
  - reflexivity.
Defined.

End TrackUpScenarios.

Section AppliedProperties.
Import JS DOM Geolocation TrackUpMode Spec Removal.

Ltac member := cbn [In]; repeat (first [left; reflexivity | right]).

(** Each function of the rotation applier is a sequence of assignments
    to these style properties, so whatever such assignments keep, it
    keeps. *)
Lemma updateMapRotation_writes (P : Document -> Prop) (st : State) :
  (forall i p v d,
      In p ["transform"; "transformOrigin"; "transition"; "background";
            "position"; "overflow"] -> P d -> P (setStyle i p v d)) ->
  P (document st) -> P (document (updateMapRotation st)).
Proof.
  intros Hw H. unfold updateMapRotation.
  destruct (leafletMap st) as [[c |] |]; [| | assumption];
    destruct (negb (trackUpMode st)); try assumption.
  cbn [document setDocument].
  apply forEachSelector_invariant.
  - intros i d' H'. unfold counterRotate.
    repeat (apply Hw; [member |]). assumption.
  - destruct (parentElement _ c); repeat (apply Hw; [member |]); assumption.
Qed.

Lemma updateUIElementsRotation_writes (P : Document -> Prop) (a s : R)
  (d : Document) :
  (forall i p v d, In p ["transform"; "transformOrigin"] -> P d ->
                   P (setStyle i p v d)) ->
  P d -> P (updateUIElementsRotation a s d).
Proof.
  intros Hw H. rewrite updateUIElementsRotation_eq. cbv zeta.
  assert (H1 : P (forEachSelector [cls "leaflet-control"; cls "leaflet-popup"]
                    (rotateUIElement a s) d)).
  { apply forEachSelector_invariant; [| assumption].
    intros i d' H'. unfold rotateUIElement.
    repeat (apply Hw; [member |]). assumption. }
  repeat match goal with
         | |- context [match ?x with Some _ => _ | None => _ end] => destruct x
         end;
    repeat (apply Hw; [member |]); assumption.
Qed.

Lemma resetMapRotation_writes (P : Document -> Prop) (st : State) :
  (forall i p v d,
      In p ["transform"; "transformOrigin"; "overflow"; "position"; "zIndex";
            "backgroundColor"] -> P d -> P (setStyle i p v d)) ->
  P (document st) -> P (document (resetMapRotation st)).
Proof.
  intros Hw H. unfold resetMapRotation.
  destruct (leafletMap st) as [[c |] |]; try assumption.
  cbn [document setDocument].
  apply updateUIElementsRotation_writes.
  - intros i p v d Hp. apply Hw. cbn [In] in Hp |- *.
    destruct Hp as [<- | [<- | []]]; member.
  - destruct (parentElement _ c); repeat (apply Hw; [member |]); assumption.
Qed.

Lemma updateTrackUpStatus_writes (P : Document -> Prop) (status : string)
  (st : State) :
  (forall i p v d, In p ["color"; "fontWeight"] -> P d -> P (setStyle i p v d)) ->
  (forall i t d, P d -> P (setTextContent i t d)) ->
  P (document st) -> P (document (updateTrackUpStatus status st)).
Proof.
  intros Hw Ht H. unfold updateTrackUpStatus.
  destruct (getElementById (document st) "track-up-status"); [| assumption].
  cbn [document setDocument].
  destruct (String.eqb status "Track Up Active");
    [| destruct (String.eqb status "GPS Error")];
    repeat (apply Hw; [member |]); apply Ht; assumption.
Qed.

Lemma detachMarkers_writes (P : Document -> Prop) (d : Document) :
  (forall i d, P d -> P (removeFromParent i d)) ->
  P d -> P (removeDefaultLocationMarkers d).
Proof.
  intros Hr H. rewrite removeDefaultLocationMarkers_detachMarkers.
  assert (Ha : forall i d0, P d0 -> P (removeIfAttached i d0)).
  { intros i d0 H0. unfold removeIfAttached.
    destruct (hasParentNode d0 i); [apply Hr |]; assumption. }
  unfold detachMarkers.
  apply forEach_invariant; [exact Ha |].
  apply forEach_invariant.
  - intros i d0 H0. unfold removeImageMarker.
    match goal with
    | |- context [if ?b then _ else _] => destruct b
    end; [apply Ha |]; assumption.
  - apply forEach_invariant; [exact Ha | assumption].
Qed.

(** All that an event does to the page is assign to ten style
    properties and to the text of elements and remove elements from
    their parents. *)
Lemma step_writes (P : Document -> Prop) (st : State) (ev : Event) :
  (forall i p v d,
      In p ["transform"; "transformOrigin"; "transition"; "background";
            "position"; "overflow"; "zIndex"; "backgroundColor"; "color";
            "fontWeight"] -> P d -> P (setStyle i p v d)) ->
  (forall i t d, P d -> P (setTextContent i t d)) ->
  (forall i d, P d -> P (removeFromParent i d)) ->
  P (document st) -> P (document (step st ev)).
Proof.
  intros Hw Ht Hr.
  assert (Hu : forall s, P (document s) -> P (document (updateMapRotation s))).
  { intros s. apply updateMapRotation_writes. intros i p v d Hp. apply Hw.
    cbn [In] in Hp |- *.
    destruct Hp as [<- | [<- | [<- | [<- | [<- | [<- | []]]]]]]; member. }
  assert (Hre : forall s, P (document s) -> P (document (resetMapRotation s))).
  { intros s. apply resetMapRotation_writes. intros i p v d Hp. apply Hw.
    cbn [In] in Hp |- *.
    destruct Hp as [<- | [<- | [<- | [<- | [<- | [<- | []]]]]]]; member. }
  assert (Hs : forall status s,
             P (document s) -> P (document (updateTrackUpStatus status s))).
  { intros status s. apply updateTrackUpStatus_writes; [| exact Ht].
    intros i p v d Hp. apply Hw. cbn [In] in Hp |- *.
    destruct Hp as [<- | [<- | []]]; member. }
  intros H. destruct ev as [position now | | alpha | checked |]; cbn [step].
  - pose proof (document_selectHeading position st) as Hsel.
    destruct (selectHeading position st) as [newHeading st1 | e st1] eqn:E;
      cbn [stateOf] in Hsel.
    + rewrite (positionCallback_selected position now st st1 newHeading E).
      rewrite document_assignLastPosition. unfold commitHeading.
      destruct (gtb _ 3); [| rewrite Hsel; assumption].
      destruct (trackUpMode _); [| cbn [document setCurrentHeading];
                                   rewrite Hsel; assumption].
      apply Hs, Hu. cbn [document setCurrentHeading]. rewrite Hsel. assumption.
    + rewrite (positionCallback_thrown position now st st1 e E).
      cbn [stateOf]. rewrite Hsel. assumption.
  - apply Hs. assumption.
  - unfold onDeviceOrientation. destruct alpha as [a |]; [| assumption].
    destruct (trackUpMode st && eqb (currentHeading st) 0); [| assumption].
    apply Hu. assumption.
  - destruct checked.
    + rewrite onToggleChange_true. cbv zeta. apply Hu.
      cbn [document setHeadingUpdateInterval setDocument].
      apply detachMarkers_writes; [exact Hr |].
      apply (Hs _ (setTrackUpMode st true)). assumption.
    + rewrite onToggleChange_false. apply Hre.
      cbn [document setHeadingUpdateInterval setMapRotationEnabled].
      apply (Hs _ (setTrackUpMode st false)). assumption.
  - destruct (headingUpdateInterval st); [| assumption].
    unfold onInterval. destruct (trackUpMode st); [| assumption].
    cbn [document setDocument].
    apply detachMarkers_writes; [exact Hr |]. apply Hu. assumption.
Qed.

Lemma styleOf_removeFromParent (d : Document) (i j : nat) (q : string) :
  styleOf (removeFromParent i d) j q = styleOf d j q.
Proof.
  unfold styleOf, removeFromParent.
  destruct (decide (i = j)) as [-> | Hne].
  - rewrite list_lookup_alter_eq. destruct (d !! j); reflexivity.
  - rewrite list_lookup_alter_ne by assumption. reflexivity.
Qed.

Lemma textOf_removeFromParent (d : Document) (i j : nat) :
  textOf (removeFromParent i d) j = textOf d j.
Proof.
  unfold textOf, removeFromParent.
  destruct (decide (i = j)) as [-> | Hne].
  - rewrite list_lookup_alter_eq. destruct (d !! j); reflexivity.
  - rewrite list_lookup_alter_ne by assumption. reflexivity.
Qed.

(** X6.  No event of track_up_mode.js changes the inline [display],
    [visibility] or [opacity] of an element, although the script has
    assignments to all three: those of [updateUIElementsRotation] carry
    [!important], which does not parse as a value, and those of the
    hide loop of [removeDefaultLocationMarkers] are never reached. *)
Theorem X6_events_leave_display_visibility_opacity
  (st : State) (ev : Event) (j : nat) (q : string) :
  In q ["display"; "visibility"; "opacity"] ->
  styleOf (document (step st ev)) j q = styleOf (document st) j q.
Proof.
  intros Hq.
  apply (step_writes (fun d => styleOf d j q = styleOf (document st) j q)).
  - intros i p v d Hp H. rewrite styleOf_setStyle_other; [assumption |].
    right. intros <-. cbn [In] in Hp, Hq.
    destruct Hq as [<- | [<- | [<- | []]]];
      repeat (destruct Hp as [Hp | Hp]; [discriminate Hp |]); exact Hp.
  - intros i t d H. rewrite styleOf_setTextContent. assumption.
  - intros i d H. rewrite styleOf_removeFromParent. assumption.
  - reflexivity.
Qed.

(** X6 on the example page: switching Track Up on leaves the image
    marker's [display] unset, and switching it off leaves the
    [visibility] of the marker of the user's location unset. *)
Lemma X6_events_leave_display_visibility_opacity_witness :
  styleOf
    (document (step (init (Some (Some Page.mapContainer)) Page.page)
                 (ToggleChange true)))
    Page.otherMarker "display"
  = None
  /\ styleOf
       (document (step (Page.tracking 47) (ToggleChange false)))
       Page.userMarker "visibility"
     = None.
Proof.
  split.
  - rewrite (X6_events_leave_display_visibility_opacity
               (init (Some (Some Page.mapContainer)) Page.page)
               (ToggleChange true) Page.otherMarker "display").
    + reflexivity.
    + left. reflexivity.
  - rewrite (X6_events_leave_display_visibility_opacity
               (Page.tracking 47) (ToggleChange false) Page.userMarker "visibility").
    + reflexivity.
    + right. left. reflexivity.
Defined.

End AppliedProperties.

(* ===================================================================== *)
(** ** js/track_up_mode.js: samples, compass, timer                       *)
(* ===================================================================== *)

Section TrackUpBehaviour.
Import JS DOM Geolocation TrackUpMode Spec Removal.

(** X7.  In every state the script reaches, a position sample whose
    heading is [null] or [NaN], or whose speed is a number that is not
    above 0.3, changes nothing at all: no module variable and nothing
    of the page. *)
Theorem X7_sample_without_usable_heading_changes_nothing
  (map : option (option nat)) (d : Document) (evs : list Event)
  (position : Position) (now : Z) :
  (forall h, heading (coords position) <> Some (Num h))
  \/ nullOrAbove (speed (coords position)) 0.3 = false ->
  step (run evs (init map d)) (PositionUpdate position now) = run evs (init map d).
Proof.
  intros H.
  rewrite step_position_unresolvable by (apply lastPosition_run; reflexivity).
  destruct (heading (coords position)) as [[| h] |]; try reflexivity.
  destruct H as [H | H]; [exfalso; apply (H h); reflexivity |].
  rewrite H. reflexivity.
Qed.

(** X7 for a sample with the heading 90 at the speed 0.1, Track Up on. *)
Lemma X7_sample_without_usable_heading_changes_nothing_witness :
  step (run [ToggleChange true] (init (Some (Some Page.mapContainer)) Page.page))
    (PositionUpdate (sample 0 0 (Some (Num 90)) (Some (Num 0.1))) 0)
  = run [ToggleChange true] (init (Some (Some Page.mapContainer)) Page.page).
Proof.
  apply (X7_sample_without_usable_heading_changes_nothing
           (Some (Some Page.mapContainer)) Page.page [ToggleChange true]
           (sample 0 0 (Some (Num 90)) (Some (Num 0.1))) 0).
  right. cbn [speed coords sample nullOrAbove above Number_gtb].
  apply gtb_false. lra.
Defined.

(** With Track Up off the position callback does not write to the
    page. *)
Lemma north_up_position_document (position : Position) (now : Z) (st : State) :
  trackUpMode st = false ->
  document (step st (PositionUpdate position now)) = document st.
Proof.
  intros Hm. cbn [step].
  pose proof (document_selectHeading position st) as Hsel.
  destruct (selectHeading position st) as [newHeading st1 | e st1] eqn:E;
    cbn [stateOf] in Hsel.
  - rewrite (positionCallback_selected position now st st1 newHeading E).
    rewrite document_assignLastPosition. unfold commitHeading.
    destruct (gtb _ 3); [| assumption].
    cbn [trackUpMode setCurrentHeading].
    destruct (selectHeading_currentHeading position st st1 newHeading E)
      as [_ Hm1].
    rewrite Hm1, Hm. assumption.
  - rewrite (positionCallback_thrown position now st st1 e E). assumption.
Qed.

(** X8.  While Track Up is off, position samples, compass events and
    the one-second timer leave the page as it is; compass events and
    the timer change nothing at all. *)
Theorem X8_north_up_leaves_the_page (st : State) :
  trackUpMode st = false ->
  (forall position now,
      document (step st (PositionUpdate position now)) = document st)
  /\ (forall alpha, step st (DeviceOrientation alpha) = st)
  /\ step st IntervalTick = st.
Proof.
  intros Hm. split; [| split].
  - intros position now. apply north_up_position_document. assumption.
  - intros alpha. cbn [step]. unfold onDeviceOrientation. rewrite Hm.
    destruct alpha; reflexivity.
  - cbn [step]. unfold onInterval. rewrite Hm.
    destruct (headingUpdateInterval st); reflexivity.
Qed.

(** X8 at the start of the script on the example page. *)
Lemma X8_north_up_leaves_the_page_witness :
  document
    (step (init (Some (Some Page.mapContainer)) Page.page)
       (PositionUpdate (Page.moving 47) 0))
  = Page.page.
Proof.
  apply (X8_north_up_leaves_the_page
           (init (Some (Some Page.mapContainer)) Page.page)).
  reflexivity.
Defined.

Lemma mode_step (st : State) (ev : Event) :
  trackUpMode (step st ev)
  = match ev with
    | ToggleChange checked => checked
    | _ => trackUpMode st
    end.
Proof.
  destruct ev as [position now | | alpha | checked |].
  - apply step_mode.
  - apply trackUpMode_updateTrackUpStatus.
  - cbn [step]. unfold onDeviceOrientation.
    destruct alpha as [a |]; [| reflexivity].
    destruct (trackUpMode st && eqb (currentHeading st) 0); [| reflexivity].
    rewrite trackUpMode_updateMapRotation. reflexivity.
  - apply trackUpMode_onToggleChange.
  - cbn [step]. destruct (headingUpdateInterval st); [| reflexivity].
    apply trackUpMode_onInterval.
Qed.

(** X10.  When the compass is taken (Track Up on, committed heading 0),
    the angle [alpha], counted counter-clockwise, becomes the clockwise
    heading: 360 - alpha for alpha in (0, 360), and 0 for alpha 0; the
    last valid heading of the location subsystem is not touched. *)
Theorem X10_compass_angle_becomes_clockwise_heading (st : State) (a : R) :
  trackUpMode st = true -> currentHeading st = 0 -> 0 <= a < 360 ->
  let st' := step st (DeviceOrientation (Some a)) in
  (a = 0 -> currentHeading st' = 0)
  /\ (0 < a -> currentHeading st' = 360 - a)
  /\ lastValidHeading st' = lastValidHeading st.
Proof.
  intros Hm Hh Ha. cbv zeta. rewrite step_orientation.
  rewrite Hm, (jseqb_true _ _ Hh). cbn [andb]. repeat split.
  - intros ->. replace (360 - 0) with (0 + 360) by lra. apply rem_shift. lra.
  - intros Hpos. apply rem_small. lra.
  - cbn [step]. unfold onDeviceOrientation.
    rewrite Hm, (jseqb_true _ _ Hh). cbn [andb].
    rewrite updateMapRotation_frame. reflexivity.
Qed.

(** X10 with the device pointing west of north by 90 degrees. *)
Lemma X10_compass_angle_becomes_clockwise_heading_witness :
  currentHeading (step (Page.tracking 0) (DeviceOrientation (Some 90))) = 270.
Proof.
  destruct (X10_compass_angle_becomes_clockwise_heading (Page.tracking 0) 90)
    as (_ & H & _); [reflexivity | reflexivity | lra |].
  rewrite H by lra. lra.
Defined.

End TrackUpBehaviour.

(* ===================================================================== *)
(** ** js/track_up_mode.js: the status element                            *)
(* ===================================================================== *)

Section StatusSink.
Import JS DOM Geolocation TrackUpMode Spec Removal Sink.

Lemma styleOf_setStyle_same (d : Document) (i : nat) (p t : string) :
  (exists e, d !! i = Some e) -> t <> "" -> includes "!important" t = false ->
  styleOf (setStyle i p (Css_text t) d) i p = Some (Css_text t).
Proof.
  intros [e He] Ht Hv. unfold styleOf, setStyle.
  rewrite list_lookup_alter_eq, He. cbn [fmap option_fmap option_map].
  unfold setProperty, css_valid. rewrite Hv. cbn [negb].
  destruct t as [| a t]; [contradiction |]. cbn [style withStyle].
  apply lookup_insert_eq.
Qed.

Lemma updateTrackUpStatus_shows (status : string) (st : State) (i : nat) :
  getElementById (document st) "track-up-status" = Some i ->
  shows (document (updateTrackUpStatus status st)) i status
    (if String.eqb status "Track Up Active" then "#2196F3"
     else if String.eqb status "GPS Error" then "#f44336" else "#666")
    (if String.eqb status "Track Up Active" then "bold" else "normal").
Proof.
  intros Hi. unfold updateTrackUpStatus. rewrite Hi. cbn [document setDocument].
  pose proof (getElementById_lookup _ _ _ Hi) as Hex.
  assert (Hex1 : exists e, setTextContent i status (document st) !! i = Some e).
  { apply (shapes_exists (document st)); [apply shapes_setTextContent | assumption]. }
  unfold shows.
  destruct (String.eqb status "Track Up Active");
    [| destruct (String.eqb status "GPS Error")];
    (split; [| split]);
    try (rewrite !textOf_setStyle; apply textOf_setTextContent; assumption);
    try (rewrite styleOf_setStyle_other by (right; discriminate));
    apply styleOf_setStyle_same;
    try (apply lookup_setStyle; assumption); try assumption;
    try discriminate; reflexivity.
Qed.

Lemma shows_setStyle (d : Document) (i k : nat) (p : string) (v : CssValue)
  (text colour weight : string) :
  In p ["transform"; "transformOrigin"; "transition"; "background";
        "position"; "overflow"; "zIndex"; "backgroundColor"] ->
  shows d i text colour weight -> shows (setStyle k p v d) i text colour weight.
Proof.
  intros Hp (H1 & H2 & H3). unfold shows.
  rewrite textOf_setStyle.
  rewrite !styleOf_setStyle_other; [repeat split; assumption | |];
    right; intros ->; cbn [In] in Hp;
    repeat (destruct Hp as [Hp | Hp]; [discriminate Hp |]); exact Hp.
Qed.


(** X11.  Switching the toggle writes the mode to the status element:
    "Track Up Active" in blue and bold when switched on, "North Up" in
    grey and normal weight when switched off; nothing that follows in
    the handler overwrites it. *)
Theorem X11_toggle_writes_the_mode_to_the_status
  (st : State) (checked : bool) (i : nat) :
  getElementById (document st) "track-up-status" = Some i ->
  shows (document (step st (ToggleChange checked))) i
    (if checked then "Track Up Active" else "North Up")
    (if checked then "#2196F3" else "#666")
    (if checked then "bold" else "normal").
Proof.
  intros Hi. cbn [step]. destruct checked.
  - rewrite onToggleChange_true. cbv zeta.
    apply (updateMapRotation_writes
             (fun d => shows d i "Track Up Active" "#2196F3" "bold")).
    + intros k p v d Hp. apply shows_setStyle. cbn [In] in Hp |- *.
      destruct Hp as [<- | [<- | [<- | [<- | [<- | [<- | []]]]]]];
        repeat (first [left; reflexivity | right]).
    + cbn [document setHeadingUpdateInterval setDocument].
      apply (detachMarkers_writes
               (fun d => shows d i "Track Up Active" "#2196F3" "bold")).
      * intros k d (H1 & H2 & H3). unfold shows.
        rewrite textOf_removeFromParent, !styleOf_removeFromParent.
        repeat split; assumption.
      * apply (updateTrackUpStatus_shows "Track Up Active" (setTrackUpMode st true) i).
        exact Hi.
  - rewrite onToggleChange_false.
    apply (resetMapRotation_writes (fun d => shows d i "North Up" "#666" "normal")).
    + intros k p v d Hp. apply shows_setStyle. cbn [In] in Hp |- *.
      destruct Hp as [<- | [<- | [<- | [<- | [<- | [<- | []]]]]]];
        repeat (first [left; reflexivity | right]).
    + cbn [document setHeadingUpdateInterval setMapRotationEnabled].
      apply (updateTrackUpStatus_shows "North Up" (setTrackUpMode st false) i).
      exact Hi.
Qed.

(** X11 on the example page, switching Track Up off. *)
Lemma X11_toggle_writes_the_mode_to_the_status_witness :
  shows (document (step (Page.tracking 47) (ToggleChange false))) 8
    "North Up" "#666" "normal".
Proof.
  apply (X11_toggle_writes_the_mode_to_the_status (Page.tracking 47) false 8).
  reflexivity.
Defined.

Lemma toFixed0_nearest (x : R) (n : Z) :
  0 <= x -> IZR n - 1 / 2 <= x < IZR n + 1 / 2 -> toFixed0 x = pretty n.
Proof.
  intros H0 Hn. unfold toFixed0. destruct (Rlt_dec x 0); [lra |].
  rewrite <- (Int_part_spec (x + 1 / 2) n) by (split; lra). reflexivity.
Qed.

(** X12.  With Track Up on, a sample whose heading passes the jitter
    gate puts "Heading: " and the heading rounded to the nearest
    integer, followed by the degree sign, into the status element; the
    heading is below 10^21, where [toFixed] prints decimal digits. *)
Theorem X12_status_shows_the_rounded_heading
  (st : State) (position : Position) (now : Z) (h : R) (n : Z) (i : nat) :
  trackUpMode st = true ->
  getElementById (document st) "track-up-status" = Some i ->
  heading (coords position) = Some (Num h) ->
  unknownOrAbove (speed (coords position)) 0.3 ->
  Rabs (h - currentHeading st) > 3 ->
  0 <= h < 1e21 -> IZR n - 1 / 2 <= h < IZR n + 1 / 2 ->
  statusText (document (step st (PositionUpdate position now)))
  = Some ("Heading: " ++ pretty n ++ degree_sign).
Proof.
  intros Hm Hi Hh Hv Hgate [H0 _] Hn. cbn [step].
  pose proof (selectHeading_direct position st h Hh) as Hs.
  rewrite (proj2 (nullOrAbove_iff _ _) Hv) in Hs.
  rewrite (positionCallback_selected position now st _ h Hs).
  unfold statusText. rewrite document_assignLastPosition.
  unfold commitHeading. cbn [currentHeading setLastValidHeading].
  unfold Math_abs. rewrite gtb_true by lra.
  cbn [trackUpMode setCurrentHeading setLastValidHeading]. rewrite Hm.
  cbn [currentHeading setCurrentHeading].
  rewrite (toFixed0_nearest h n H0 Hn).
  set (st1 := updateMapRotation _).
  assert (Hi1 : getElementById (document st1) "track-up-status" = Some i).
  { subst st1. rewrite (getElementById_shapes _ (document st));
      [exact Hi |].
    apply (shapes_updateMapRotation
             (setCurrentHeading (setLastValidHeading st h) h)). }
  apply (statusText_updateTrackUpStatus _ st1 i Hi1).
Qed.

(** X12 on the example page: the heading 47.4 is shown as 47. *)
Lemma X12_status_shows_the_rounded_heading_witness :
  statusText
    (document (step (Page.tracking 0) (PositionUpdate (Page.moving 47.4) 0)))
  = Some ("Heading: 47" ++ degree_sign).
Proof.
  apply (X12_status_shows_the_rounded_heading
           (Page.tracking 0) (Page.moving 47.4) 0 47.4 47 8).
  - reflexivity.
  - reflexivity.
  - reflexivity.
  - right. exists 2. split; [reflexivity | lra].
  - cbn [currentHeading Page.tracking]. unfold Rabs.
    destruct (Rcase_abs (47.4 - 0)); lra.
  - lra.
  - lra.
Defined.

End StatusSink.

(* ===================================================================== *)
(** ** js/track_up_mode.js: rotating again                                *)
(* ===================================================================== *)

Section RotateTwice.
Import JS DOM Assignments RotateAssignments Spec.

Lemma sameTarget_target (a b : Assignment) :
  sameTarget a b = true <-> target a = target b.
Proof.
  destruct a as [i p v | i t], b as [j q w | j u]; cbn [sameTarget target].
  - rewrite andb_true_iff, Nat.eqb_eq, String.eqb_eq. split.
    + intros [-> ->]. reflexivity.
    + intros H. injection H as -> ->. split; reflexivity.
  - split; discriminate.
  - split; discriminate.
  - rewrite Nat.eqb_eq. split; [intros -> | intros H; injection H as ->];
      reflexivity.
Qed.

Lemma existsb_sameTarget (a : Assignment) (l : list Assignment) :
  In (target a) (map target l) -> existsb (sameTarget a) l = true.
Proof.
  intros H. apply in_map_iff in H. destruct H as (b & Hb & Hin).
  apply existsb_exists. exists b. split; [assumption |].
  apply sameTarget_target. symmetry. assumption.
Qed.

(** Assignments that write to the places of an earlier run replace it. *)
Lemma assignAll_replaces (l1 l2 : list Assignment) (d : Document) :
  forallb parses l2 = true -> map target l1 = map target l2 ->
  assignAll l2 (assignAll l1 d) = assignAll l2 d.
Proof.
  intros Hp Ht.
  assert (H : forall l d0, (forall a, In a l -> In (target a) (map target l2)) ->
                           assignAll l2 (assignAll l d0) = assignAll l2 d0).
  { induction l as [| a l IH]; intros d0 Hl; [reflexivity |].
    rewrite assignAll_cons.
    rewrite IH by (intros b Hb; apply Hl; right; assumption).
    rewrite (assignAll_after a l2 d0 Hp).
    rewrite existsb_sameTarget by (apply Hl; left; reflexivity). reflexivity. }
  apply H. intros a Ha. rewrite <- Ht. apply in_map. assumption.
Qed.

Lemma map_flat_map {A B C : Type} (f : B -> C) (g : A -> list B) (l : list A) :
  map f (flat_map g l) = flat_map (fun x => map f (g x)) l.
Proof.
  induction l as [| x l IH]; [reflexivity |].
  cbn [flat_map]. rewrite map_app, IH. reflexivity.
Qed.

Lemma rotateAssignments_targets (h h' : R) (c : nat) (d : Document) :
  map target (rotateAssignments h c d) = map target (rotateAssignments h' c d).
Proof.
  unfold rotateAssignments. rewrite !map_app. f_equal. f_equal.
  rewrite !map_flat_map. apply flat_map_ext. intros sel.
  rewrite !map_flat_map. apply flat_map_ext. intros i. reflexivity.
Qed.

Lemma rotateAssignments_parse (h : R) (c : nat) (d : Document) :
  forallb parses (rotateAssignments h c d) = true.
Proof.
  unfold rotateAssignments. rewrite !forallb_app.
  apply andb_true_iff. split; [reflexivity |].
  apply andb_true_iff. split; [destruct (parentElement d c); reflexivity |].
  apply forallb_flat_map. intros sel. apply forallb_flat_map. intros i.
  reflexivity.
Qed.

Lemma rotateAssignments_shapes (h : R) (c : nat) (d d' : Document) :
  shapes d' = shapes d -> rotateAssignments h c d' = rotateAssignments h c d.
Proof.
  intros H. unfold rotateAssignments.
  rewrite (parentElement_shapes d' d c H). f_equal. f_equal.
  apply flat_map_ext. intros sel.
  rewrite (querySelectorAll_shapes d' d _ H). reflexivity.
Qed.

(** [updateMapRotation] is the run of its assignments. *)
Lemma updateMapRotation_assignments (st : TrackUpMode.State) (c : nat) :
  TrackUpMode.trackUpMode st = true ->
  TrackUpMode.leafletMap st = Some (Some c) ->
  TrackUpMode.document (TrackUpMode.updateMapRotation st)
  = assignAll
      (rotateAssignments (TrackUpMode.currentHeading st) c (TrackUpMode.document st))
      (TrackUpMode.document st).
Proof.
  intros Hm Hl. unfold TrackUpMode.updateMapRotation. rewrite Hl, Hm.
  cbn [negb TrackUpMode.document TrackUpMode.setDocument].
  set (d := TrackUpMode.document st). set (h := TrackUpMode.currentHeading st).
  unfold rotateAssignments. rewrite !assignAll_app.
  set (d1 := assignAll [_; _; _; _; _] d).
  assert (Hs1 : shapes d1 = shapes d) by apply shapes_assignAll.
  change (setStyle c "position" (Css_text "relative")
            (setStyle c "background" (Css_text "transparent")
               (setStyle c "transition" (Css_text "transform 0.5s ease-out")
                  (setStyle c "transformOrigin" (Css_text "center center")
                     (setStyle c "transform"
                        (Css_rotate_scale (- h) TrackUpMode.scale) d)))))
    with d1.
  rewrite (parentElement_shapes d1 d c Hs1).
  set (d2 := match parentElement d c with Some _ => _ | None => _ end).
  assert (E2 : assignAll
                 match parentElement d c with
                 | Some p =>
                     [ SetStyle p "background" (Css_text "transparent");
                       SetStyle p "overflow" (Css_text "hidden");
                       SetStyle p "position" (Css_text "relative") ]
                 | None => []
                 end d1 = d2).
  { subst d2. destruct (parentElement d c); reflexivity. }
  rewrite E2.
  assert (Hs2 : shapes d2 = shapes d).
  { rewrite <- E2, shapes_assignAll. assumption. }
  apply (forEachSelector_assignAll _ _
           (fun i =>
              [ SetStyle i "transform"
                  (Css_rotate_scale (- - h) (1 / TrackUpMode.scale));
                SetStyle i "transformOrigin" (Css_text "center center");
                SetStyle i "transition" (Css_text "transform 0.5s ease-out") ])
           d d2); [reflexivity | assumption].
Qed.

(** X13.  The rotation [updateMapRotation] applies does not depend on
    the rotation applied before: applying it at one heading and then at
    another gives the state of applying it at the other heading alone.
    So rotations do not accumulate, and re-applying the same heading, as
    the one-second timer does, changes nothing. *)
Theorem X13_rotation_does_not_accumulate (st : TrackUpMode.State) (h : R) :
  TrackUpMode.updateMapRotation
    (TrackUpMode.setCurrentHeading (TrackUpMode.updateMapRotation st) h)
  = TrackUpMode.updateMapRotation (TrackUpMode.setCurrentHeading st h)
  /\ TrackUpMode.updateMapRotation (TrackUpMode.updateMapRotation st)
     = TrackUpMode.updateMapRotation st.
Proof.
  assert (H : forall s k,
             TrackUpMode.updateMapRotation
               (TrackUpMode.setCurrentHeading (TrackUpMode.updateMapRotation s) k)
             = TrackUpMode.updateMapRotation (TrackUpMode.setCurrentHeading s k)).
  { intros s k.
    destruct (TrackUpMode.leafletMap s) as [[c |] |] eqn:Hl;
      destruct (TrackUpMode.trackUpMode s) eqn:Hm;
      try (assert (E0 : TrackUpMode.updateMapRotation s = s)
             by (unfold TrackUpMode.updateMapRotation; rewrite Hl, ?Hm;
                 reflexivity);
           rewrite E0; reflexivity).
    set (s1 := TrackUpMode.updateMapRotation s).
    assert (Hs : shapes (TrackUpMode.document s1) = shapes (TrackUpMode.document s))
      by apply shapes_updateMapRotation.
    assert (Hf : s1 = TrackUpMode.setDocument s (TrackUpMode.document s1))
      by apply updateMapRotation_frame.
    rewrite (updateMapRotation_frame (TrackUpMode.setCurrentHeading s1 k)).
    rewrite (updateMapRotation_frame (TrackUpMode.setCurrentHeading s k)).
    rewrite (updateMapRotation_assignments (TrackUpMode.setCurrentHeading s1 k) c).
    2:{ rewrite Hf. exact Hm. }
    2:{ rewrite Hf. exact Hl. }
    rewrite (updateMapRotation_assignments (TrackUpMode.setCurrentHeading s k) c)
      by assumption.
    cbn [TrackUpMode.document TrackUpMode.currentHeading
           TrackUpMode.setCurrentHeading].
    rewrite (rotateAssignments_shapes k c (TrackUpMode.document s)
               (TrackUpMode.document s1) Hs).
    subst s1. rewrite (updateMapRotation_assignments s c Hm Hl).
    rewrite (assignAll_replaces _ _ _ (rotateAssignments_parse k c _)
               (rotateAssignments_targets _ k c _)).
    rewrite (updateMapRotation_frame s). reflexivity. }
  split; [apply H |].
  assert (E : forall s, TrackUpMode.setCurrentHeading s (TrackUpMode.currentHeading s)
                        = s) by (intros []; reflexivity).
  pose proof (H st (TrackUpMode.currentHeading st)) as Hi.
  assert (E1 : TrackUpMode.setCurrentHeading (TrackUpMode.updateMapRotation st)
                 (TrackUpMode.currentHeading st)
               = TrackUpMode.updateMapRotation st).
  { transitivity
      (TrackUpMode.setCurrentHeading (TrackUpMode.updateMapRotation st)
         (TrackUpMode.currentHeading (TrackUpMode.updateMapRotation st)));
      [| apply E].
    f_equal. symmetry. apply currentHeading_updateMapRotation. }
  rewrite E1, (E st) in Hi. exact Hi.
Qed.

End RotateTwice.

(* ===================================================================== *)
(** ** js/simple_track_up.js: the heading estimator                       *)
(* ===================================================================== *)

Section SimpleEstimator.
Import JS DOM Geolocation SimpleTrackUp Spec.

Lemma styleOf_updateStatus (text : string) (st : State) (j : nat) (q : string) :
  styleOf (document (updateStatus text st)) j q = styleOf (document st) j q.
Proof.
  unfold updateStatus.
  destruct (getElementById (document st) "track-up-status"); [| reflexivity].
  apply styleOf_setTextContent.
Qed.

Lemma watches_positionCallback (position : Position) (st : State) :
  watches (positionCallback position st) = watches st.
Proof.
  unfold positionCallback. cbn [watches setLastKnownPosition].
  destruct (heading (coords position)) as [[| h] |];
    repeat match goal with
           | |- context [match ?b with _ => _ end] => destruct b
           end;
    rewrite ?watches_updateStatus, ?watches_rotateMap; reflexivity.
Qed.

(** X14.  In simple_track_up.js a sample without a heading that is a
    number gives no heading when no position is stored yet or when the
    speed is [null], 0, [NaN] or at most 1.0: the committed heading and
    every inline style stay as they are, the status element shows
    "No heading data", and the sample's position is stored. *)
Theorem X14_sample_gives_no_heading_data
  (st : State) (position : Position) (i : nat) :
  (forall h, heading (coords position) <> Some (Num h)) ->
  lastKnownPosition st = None
  \/ truthy (speed (coords position)) && above (speed (coords position)) 1.0
     = false ->
  getElementById (document st) "track-up-status" = Some i ->
  let st' := positionCallback position st in
  currentHeading st' = currentHeading st
  /\ (forall j q, styleOf (document st') j q = styleOf (document st) j q)
  /\ statusText (document st') = Some "No heading data"
  /\ lastKnownPosition st'
     = Some {| kp_latitude := latitude (coords position);
               kp_longitude := longitude (coords position) |}.
Proof.
  intros Hh Hno Hi. cbv zeta.
  assert (E : positionCallback position st
              = setLastKnownPosition (updateStatus "No heading data" st)
                  (Some {| kp_latitude := latitude (coords position);
                           kp_longitude := longitude (coords position) |})).
  { unfold positionCallback.
    destruct (heading (coords position)) as [[| h] |];
      try (exfalso; apply (Hh h); reflexivity);
      (destruct (lastKnownPosition st) as [last |]; [| reflexivity];
       destruct Hno as [Hno | Hno]; [discriminate | rewrite Hno; reflexivity]). }
  rewrite E. cbn [currentHeading document lastKnownPosition setLastKnownPosition].
  repeat split.
  - apply currentHeading_updateStatus.
  - intros j q. apply styleOf_updateStatus.
  - apply (statusText_updateStatus _ st i Hi).
Qed.

(** X14 for the first sample after Track Up was switched on: standing
    still, no heading. *)
Lemma X14_sample_gives_no_heading_data_witness :
  let st' :=
    positionCallback (sample 1 2 None (Some (Num 0))) (Page.simpleTracking 80 None) in
  currentHeading st' = 80
  /\ statusText (document st') = Some "No heading data"
  /\ lastKnownPosition st' = Some {| kp_latitude := 1; kp_longitude := 2 |}.
Proof.
  destruct (X14_sample_gives_no_heading_data
              (Page.simpleTracking 80 None) (sample 1 2 None (Some (Num 0))) 8)
    as (H1 & _ & H3 & H4).
  - intros h. discriminate.
  - left. reflexivity.
  - reflexivity.
  - cbv zeta. repeat split; assumption.
Defined.

(** X15.  The position that Method 2 of simple_track_up.js measures
    from is the position of the sample before: of two samples in a row,
    the second without a heading, at a speed above 1.0 and more than
    0.0001 degrees away, the committed heading is the planar bearing
    from the first to the second. *)
Theorem X15_bearing_between_consecutive_samples
  (st : State) (first second : Position) :
  watches st <> [] ->
  (forall h, heading (coords second) <> Some (Num h)) ->
  truthy (speed (coords second)) && above (speed (coords second)) 1.0 = true ->
  gtb (Math_abs (latitude (coords second) - latitude (coords first))) 0.0001
  || gtb (Math_abs (longitude (coords second) - longitude (coords first))) 0.0001
  = true ->
  currentHeading (run [PositionUpdate first; PositionUpdate second] st)
  = rem
      (Math_atan2 (longitude (coords second) - longitude (coords first))
         (latitude (coords second) - latitude (coords first))
       * 180 / Math_PI + 360)
      360.
Proof.
  intros Hw Hh Hv Hm. unfold run. cbn [fold_left step].
  destruct (watches st) as [| w ws] eqn:Ew; [contradiction |].
  rewrite watches_positionCallback, Ew.
  rewrite (simple_computed second _
             {| kp_latitude := latitude (coords first);
                kp_longitude := longitude (coords first) |});
    try assumption; reflexivity.
Qed.

(** X15 from the equator, one degree north and one degree east: 45. *)
Lemma X15_bearing_between_consecutive_samples_witness :
  currentHeading
    (run [ PositionUpdate (sample 0 0 None None);
           PositionUpdate (sample 1 1 None (Some (Num 2))) ]
       (Page.simpleTracking 0 None))
  = rem (Math_atan2 (1 - 0) (1 - 0) * 180 / Math_PI + 360) 360.
Proof.
  apply (X15_bearing_between_consecutive_samples
           (Page.simpleTracking 0 None)
           (sample 0 0 None None) (sample 1 1 None (Some (Num 2)))).
  - discriminate.
  - intros h. discriminate.
  - cbn [speed coords sample truthy above Number_gtb].
    rewrite jseqb_false by lra. rewrite gtb_true by lra. reflexivity.
  - cbn [latitude longitude coords sample]. unfold Math_abs.
    rewrite gtb_true; [reflexivity |].
    unfold Rabs. destruct (Rcase_abs (1 - 0)); lra.
Defined.


End SimpleEstimator.

(* ===================================================================== *)
(** ** js/simple_track_up.js: the position watch                          *)
(* ===================================================================== *)

Section SimpleWatches.
Import JS DOM Geolocation SimpleTrackUp Spec Watches.

Lemma registration_updateStatus (text : string) (st : State) :
  registration (updateStatus text st) = registration st.
Proof. rewrite updateStatus_frame. reflexivity. Qed.

Lemma registration_rotateMap (st : State) :
  registration (rotateMap st) = registration st.
Proof. rewrite rotateMap_frame. reflexivity. Qed.

Lemma registration_positionCallback (position : Position) (st : State) :
  registration (positionCallback position st) = registration st.
Proof.
  unfold positionCallback.
  match goal with
  | |- registration (setLastKnownPosition ?s _) = _ =>
      change (registration s = registration st)
  end.
  destruct (heading (coords position)) as [[| h] |];
    repeat match goal with
           | |- context [match ?b with _ => _ end] => destruct b
           end;
    rewrite ?registration_updateStatus, ?registration_rotateMap; reflexivity.
Qed.

Lemma registration_errorCallback (st : State) :
  registration (errorCallback st) = registration st.
Proof. apply registration_updateStatus. Qed.

Lemma registration_step (st : State) (ev : Event) :
  match ev with ToggleChange _ => True | _ => registration (step st ev) = registration st end.
Proof.
  destruct ev as [position | | checked]; cbn [step]; [| | exact I];
    destruct (watches st); try reflexivity.
  - apply registration_positionCallback.
  - apply registration_errorCallback.
Qed.

Lemma registration_start (st : State) :
  registration (onToggleChange true st)
  = if geolocation st
    then (true, Some (nextWatchId st), true, nextWatchId st :: watches st,
          S (nextWatchId st))
    else (true, headingWatchId st, false, watches st, nextWatchId st).
Proof.
  unfold onToggleChange, startTrackUp. cbn [trackUpEnabled setTrackUpEnabled].
  rewrite (updateStatus_frame "Starting..." (setTrackUpEnabled st true)).
  cbn [geolocation setDocument setTrackUpEnabled].
  destruct (geolocation st) eqn:Eg.
  - unfold registration, watchPosition.
    cbn [trackUpEnabled headingWatchId geolocation watches nextWatchId
           setDocument setTrackUpEnabled].
    rewrite Eg. reflexivity.
  - rewrite updateStatus_frame. unfold registration.
    cbn [trackUpEnabled headingWatchId geolocation watches nextWatchId
           setDocument setTrackUpEnabled].
    rewrite Eg. reflexivity.
Qed.

Lemma registration_stop (st : State) :
  registration (onToggleChange false st)
  = match headingWatchId st with
    | Some (S n) =>
        (false, None, geolocation st,
         List.filter (fun w => negb (Nat.eqb w (S n))) (watches st),
         nextWatchId st)
    | _ => (false, headingWatchId st, geolocation st, watches st, nextWatchId st)
    end.
Proof.
  unfold onToggleChange, stopTrackUp. cbn [trackUpEnabled setTrackUpEnabled].
  rewrite updateStatus_frame, simple_resetMapRotation_frame.
  unfold registration, clearWatch.
  cbn [headingWatchId setTrackUpEnabled].
  destruct (headingWatchId st) as [[| n] |] eqn:E;
    cbn [trackUpEnabled headingWatchId geolocation watches nextWatchId
           setDocument setTrackUpEnabled];
    rewrite ?E; reflexivity.
Qed.

Lemma held_registration (st st' : State) :
  registration st' = registration st -> held st -> held st'.
Proof.
  unfold registration, held. intros H. injection H as _ H1 _ H2 H3.
  rewrite H1, H2, H3. tauto.
Qed.

Lemma held_step (st : State) (ev : Event) : held st -> held (step st ev).
Proof.
  intros Hh. pose proof (registration_step st ev) as Hr.
  destruct ev as [position | | checked];
    try (apply (held_registration st); assumption).
  clear Hr. cbn [step]. destruct Hh as (Hn & Hw & Hi). destruct checked.
  - pose proof (registration_start st) as Hr. unfold registration in Hr.
    destruct (geolocation st); injection Hr as _ H1 _ H2 H3; unfold held;
      rewrite H1, H2, H3.
    + repeat split.
      * lia.
      * destruct H as [<- | H]; [assumption | apply (Hw w H)].
      * destruct H as [<- | H]; [lia |]. pose proof (Hw w H). lia.
      * intros w H. injection H as <-. left. reflexivity.
    + repeat split; try assumption; apply (Hw w); assumption.
  - pose proof (registration_stop st) as Hr. unfold registration in Hr.
    destruct (headingWatchId st) as [[| n] |] eqn:E;
      injection Hr as _ H1 _ H2 H3; unfold held; rewrite H1, H2, H3.
    + repeat split; try assumption; apply (Hw w); assumption.
    + repeat split; try assumption.
      * apply filter_In in H. apply (Hw w). tauto.
      * apply filter_In in H. apply (Hw w). tauto.
      * discriminate.
    + repeat split; try assumption; try (apply (Hw w); assumption).
Qed.

Lemma held_run (evs : list Event) (st : State) : held st -> held (run evs st).
Proof.
  unfold run. revert st.
  induction evs as [| ev evs IH]; intros st H; [assumption |].
  cbn [fold_left]. apply IH, held_step, H.
Qed.

Lemma held_init (geo : bool) (map : option (option nat)) (d : Document) :
  held (init geo map d).
Proof.
  unfold held, init. cbn [nextWatchId watches headingWatchId].
  repeat split; try lia; try contradiction; discriminate.
Qed.

(** X17.  After any events from the start of simple_track_up.js,
    switching the toggle off cancels the position watch the script
    holds: the script holds none afterwards, and the one it held is no
    longer registered. *)
Theorem X17_switching_off_cancels_the_watch
  (geo : bool) (map : option (option nat)) (d : Document) (evs : list Event) :
  let st := run evs (init geo map d) in
  let st' := step st (ToggleChange false) in
  trackUpEnabled st' = false
  /\ headingWatchId st' = None
  /\ forall w, headingWatchId st = Some w -> ~ In w (watches st').
Proof.
  cbv zeta. set (st := run evs (init geo map d)).
  assert (Hh : held st) by apply held_run, held_init.
  cbn [step]. pose proof (registration_stop st) as Hr. unfold registration in Hr.
  destruct Hh as (Hn & Hw & Hi).
  destruct (headingWatchId st) as [[| n] |] eqn:E;
    injection Hr as H0 H1 _ H2 _; rewrite H0, H1, H2.
  - exfalso. pose proof (Hw 0%nat (Hi 0%nat eq_refl)). lia.
  - repeat split. intros w Hs Hin. injection Hs as <-.
    apply filter_In in Hin. destruct Hin as [_ Hin].
    rewrite Nat.eqb_refl in Hin. discriminate.
  - repeat split. discriminate.
Qed.

Lemma oneWatch_registration (st st' : State) :
  registration st' = registration st -> oneWatch st -> oneWatch st'.
Proof.
  unfold registration, oneWatch. intros H. injection H as H0 H1 H2 H3 _.
  rewrite H0, H1, H2, H3. tauto.
Qed.

Lemma registration_fields (st st' : State) :
  registration st' = registration st ->
  trackUpEnabled st' = trackUpEnabled st /\ nextWatchId st' = nextWatchId st.
Proof.
  unfold registration. intros H. injection H as H0 _ _ _ H4. split; assumption.
Qed.

Lemma oneWatch_run (evs : list Event) (st : State) :
  alternating (trackUpEnabled st) evs -> (1 <= nextWatchId st)%nat ->
  oneWatch st ->
  oneWatch (run evs st).
Proof.
  unfold run. revert st.
  induction evs as [| ev evs IH]; intros st Ha Hn Ho; [assumption |].
  cbn [fold_left].
  pose proof (registration_step st ev) as Hr.
  destruct ev as [position | | checked].
  - cbn [alternating] in Ha.
    destruct (registration_fields _ _ Hr) as [H0 H4].
    apply IH; [rewrite H0 | rewrite H4 | apply (oneWatch_registration st)];
      assumption.
  - cbn [alternating] in Ha.
    destruct (registration_fields _ _ Hr) as [H0 H4].
    apply IH; [rewrite H0 | rewrite H4 | apply (oneWatch_registration st)];
      assumption.
  - clear Hr. cbn [alternating] in Ha. destruct Ha as [Hc Ha]. cbn [step].
    unfold oneWatch in Ho. destruct (trackUpEnabled st) eqn:Ee;
      cbn [negb] in Hc; subst checked.
    + pose proof (registration_stop st) as Hr. unfold registration in Hr.
      cbn [andb] in Ho. destruct (geolocation st) eqn:Eg.
      * destruct Ho as (w & Hw1 & Hw2 & Hw3). rewrite Hw3, Hw2 in Hr.
        destruct w as [| n]; [lia |].
        cbn [List.filter] in Hr. rewrite Nat.eqb_refl in Hr. cbn [negb] in Hr.
        injection Hr as H0 H1 H2 H3 H4.
        apply IH; [rewrite H0; assumption | rewrite H4; assumption |].
        unfold oneWatch. rewrite H0, H1, H3. cbn [andb]. split; reflexivity.
      * destruct Ho as [Hw2 Hw3]. rewrite Hw3, Hw2 in Hr.
        injection Hr as H0 H1 H2 H3 H4.
        apply IH; [rewrite H0; assumption | rewrite H4; assumption |].
        unfold oneWatch. rewrite H0, H1, H3. cbn [andb]. split; reflexivity.
    + pose proof (registration_start st) as Hr. unfold registration in Hr.
      cbn [andb] in Ho. destruct Ho as [Hw2 Hw3].
      destruct (geolocation st) eqn:Eg; rewrite ?Hw2, ?Hw3 in Hr;
        injection Hr as H0 H1 H2 H3 H4;
        (apply IH; [rewrite H0; assumption | rewrite H4; lia |]);
        unfold oneWatch; rewrite H0, H1, H2, H3; cbn [andb].
      * exists (nextWatchId st). repeat split. assumption.
      * split; reflexivity.
Qed.

(** X18.  In simple_track_up.js, over any events from the start in
    which the toggle goes on and off in turn, at most one position
    watch is registered: none while Track Up is off or the platform has
    no geolocation, and otherwise exactly the one the script holds. *)
Theorem X18_one_watch_while_on_none_while_off
  (geo : bool) (map : option (option nat)) (d : Document) (evs : list Event) :
  alternating false evs ->
  oneWatch (run evs (init geo map d)).
Proof.
  intros Ha. apply oneWatch_run.
  - exact Ha.
  - cbn [nextWatchId init]. lia.
  - unfold oneWatch. cbn [trackUpEnabled init andb watches headingWatchId].
    split; reflexivity.
Qed.

(** X18 for a run that switches Track Up on, receives a sample and an
    error, and switches it off again. *)
Lemma X18_one_watch_while_on_none_while_off_witness :
  oneWatch
    (run [ ToggleChange true; PositionUpdate (Page.moving 47); PositionError;
           ToggleChange false ]
       (init true (Some (Some Page.mapContainer)) Page.page)).
Proof.
  apply (X18_one_watch_while_on_none_while_off true).
  cbn [alternating negb]. repeat split.
Defined.

End SimpleWatches.

(* ===================================================================== *)
(** ** js/simple_track_up.js: switching on and off                        *)
(* ===================================================================== *)

Section SimpleSwitch.
Import JS DOM Geolocation SimpleTrackUp Spec Assignments RotateAssignments.

Lemma shapes_updateStatus (text : string) (st : State) :
  shapes (document (updateStatus text st)) = shapes (document st).
Proof.
  unfold updateStatus.
  destruct (getElementById (document st) "track-up-status"); [| reflexivity].
  apply shapes_setTextContent.
Qed.

Lemma shapes_rotateMap (st : State) :
  shapes (document (rotateMap st)) = shapes (document st).
Proof.
  unfold rotateMap.
  destruct (leafletMap st) as [[c |] |]; try reflexivity;
    destruct (negb (trackUpEnabled st)); try reflexivity.
  cbn [document setDocument].
  rewrite shapes_forEach by (intros; rewrite !shapes_setStyle; reflexivity).
  rewrite !shapes_setStyle. reflexivity.
Qed.

Lemma clearWatch_frame (st : State) :
  document (clearWatch st) = document st
  /\ leafletMap (clearWatch st) = leafletMap st.
Proof.
  unfold clearWatch. destruct (headingWatchId st) as [[| n] |];
    split; reflexivity.
Qed.

Lemma simple_reset_untouched (st : State) (c j : nat) :
  leafletMap st = Some (Some c) -> j <> c ->
  selected (document st) controlSelectors j = false ->
  styleOf (document (resetMapRotation st)) j "transform"
  = styleOf (document st) j "transform".
Proof.
  intros Hl Hjc Hsel. unfold resetMapRotation. rewrite Hl.
  cbn [document setDocument].
  set (d1 := setStyle c "transition" _ _).
  assert (Hs1 : shapes d1 = shapes (document st)).
  { subst d1. rewrite !shapes_setStyle. reflexivity. }
  assert (H1 : styleOf d1 j "transform" = styleOf (document st) j "transform").
  { subst d1. rewrite !styleOf_setStyle_other by (left; congruence). reflexivity. }
  rewrite <- H1. apply styleOf_lookup. apply forEach_untouched.
  - rewrite querySelectorAll_In.
    rewrite (selected_shapes d1 (document st) _ j Hs1), Hsel. discriminate.
  - intros i d' Hij. apply setStyle_lookup_ne. assumption.
Qed.

(** X19.  Switching Track Up on in simple_track_up.js rotates nothing:
    no inline style changes and the committed heading stays; the status
    element shows "Starting...", or "GPS not supported" when the
    platform has no geolocation.  The map turns with the next sample
    that gives a heading. *)
Theorem X19_simple_switch_on_rotates_nothing (st : State) (i : nat) :
  getElementById (document st) "track-up-status" = Some i ->
  let st' := step st (ToggleChange true) in
  (forall j q, styleOf (document st') j q = styleOf (document st) j q)
  /\ currentHeading st' = currentHeading st
  /\ statusText (document st')
     = Some (if geolocation st then "Starting..." else "GPS not supported").
Proof.
  intros Hi. cbv zeta. cbn [step]. split; [| split].
  - intros j q. unfold onToggleChange, startTrackUp.
    cbn [trackUpEnabled setTrackUpEnabled].
    destruct (geolocation _).
    + unfold watchPosition. cbn [document].
      apply (styleOf_updateStatus _ (setTrackUpEnabled st true)).
    + rewrite styleOf_updateStatus.
      apply (styleOf_updateStatus _ (setTrackUpEnabled st true)).
  - apply currentHeading_onToggleChange.
  - unfold onToggleChange, startTrackUp.
    cbn [trackUpEnabled setTrackUpEnabled].
    rewrite (updateStatus_frame "Starting..." (setTrackUpEnabled st true)) at 1.
    cbn [geolocation setDocument setTrackUpEnabled].
    destruct (geolocation st).
    + unfold watchPosition. cbn [document].
      apply (statusText_updateStatus _ (setTrackUpEnabled st true) i Hi).
    + apply (statusText_updateStatus _ _ i).
      rewrite (getElementById_shapes _ (document st)); [exact Hi |].
      apply (shapes_updateStatus _ (setTrackUpEnabled st true)).
Qed.

(** X19 on the example page, at the start of the script. *)
Lemma X19_simple_switch_on_rotates_nothing_witness :
  let st := init true (Some (Some Page.mapContainer)) Page.page in
  styleOf (document (step st (ToggleChange true))) Page.mapContainer "transform"
  = None
  /\ statusText (document (step st (ToggleChange true))) = Some "Starting...".
Proof.
  cbv zeta.
  destruct (X19_simple_switch_on_rotates_nothing
              (init true (Some (Some Page.mapContainer)) Page.page) 8 eq_refl)
    as (H1 & _ & H3).
  split; [rewrite H1; reflexivity | exact H3].
Defined.

(** X20.  In simple_track_up.js switching off resets what [rotateMap]
    rotated: after a rotation and switching off, the map container and
    every zoom and attribution control have the transform [none], and
    every other element has the transform it had before the rotation. *)
Theorem X20_simple_switch_off_resets_what_was_rotated
  (st : State) (c j : nat) :
  leafletMap st = Some (Some c) ->
  (exists e, document st !! c = Some e) ->
  let d' := document (step (rotateMap st) (ToggleChange false)) in
  (j = c \/ selected (document st) controlSelectors j = true ->
   styleOf d' j "transform" = Some (Css_text "none"))
  /\ (j <> c -> selected (document st) controlSelectors j = false ->
      styleOf d' j "transform" = styleOf (document st) j "transform").
Proof.
  intros Hl Hc. cbv zeta. cbn [step]. unfold onToggleChange, stopTrackUp.
  cbn [trackUpEnabled setTrackUpEnabled].
  rewrite styleOf_updateStatus.
  set (s2 := clearWatch (setTrackUpEnabled (rotateMap st) false)).
  assert (Hd2 : document s2 = document (rotateMap st)).
  { subst s2. apply (clearWatch_frame (setTrackUpEnabled (rotateMap st) false)). }
  assert (Hl2 : leafletMap s2 = Some (Some c)).
  { subst s2.
    rewrite (proj2 (clearWatch_frame (setTrackUpEnabled (rotateMap st) false))).
    cbn [leafletMap setTrackUpEnabled]. rewrite rotateMap_frame. exact Hl. }
  assert (Hs2 : shapes (document s2) = shapes (document st)).
  { rewrite Hd2. apply shapes_rotateMap. }
  split.
  - intros [-> | Hsel].
    + apply (simple_reset_surface s2 c Hl2).
      apply (shapes_exists (document st)); assumption.
    + apply (simple_reset_overlay s2 c j Hl2).
      rewrite (selected_shapes _ (document st) _ j Hs2). exact Hsel.
  - intros Hjc Hsel.
    rewrite (simple_reset_untouched s2 c j Hl2 Hjc).
    2:{ rewrite (selected_shapes _ (document st) _ j Hs2). exact Hsel. }
    rewrite Hd2. destruct (trackUpEnabled st) eqn:Ee.
    + apply (rotateMap_untouched st c j); assumption.
    + unfold rotateMap. rewrite Hl, Ee. reflexivity.
Qed.

(** X20 on the example page at the heading 47: the zoom control is
    back at [none]. *)
Lemma X20_simple_switch_off_resets_what_was_rotated_witness :
  styleOf
    (document (step (rotateMap (Page.simpleTracking 47 None)) (ToggleChange false)))
    Page.zoomControl "transform"
  = Some (Css_text "none").
Proof.
  apply (X20_simple_switch_off_resets_what_was_rotated
           (Page.simpleTracking 47 None) Page.mapContainer Page.zoomControl).
  - reflexivity.
  - eexists. reflexivity.
  - right. reflexivity.
Defined.

End SimpleSwitch.

(* ===================================================================== *)
(** ** Rotating again and resetting again                                 *)
(* ===================================================================== *)

Section SimpleRotateTwice.
Import JS DOM Assignments RotateAssignments Spec.

Lemma simpleRotateAssignments_targets (h h' : R) (c : nat) (d : Document) :
  map target (simpleRotateAssignments h c d)
  = map target (simpleRotateAssignments h' c d).
Proof.
  unfold simpleRotateAssignments. rewrite !map_app. f_equal.
  rewrite !map_flat_map. apply flat_map_ext. intros i. reflexivity.
Qed.

Lemma simpleRotateAssignments_parse (h : R) (c : nat) (d : Document) :
  forallb parses (simpleRotateAssignments h c d) = true.
Proof.
  unfold simpleRotateAssignments. rewrite forallb_app.
  apply andb_true_iff. split; [reflexivity |].
  apply forallb_flat_map. intros i. reflexivity.
Qed.

Lemma simpleRotateAssignments_shapes (h : R) (c : nat) (d d' : Document) :
  shapes d' = shapes d ->
  simpleRotateAssignments h c d' = simpleRotateAssignments h c d.
Proof.
  intros H. unfold simpleRotateAssignments.
  rewrite (querySelectorAll_shapes d' d _ H). reflexivity.
Qed.

(** [rotateMap] is the run of its assignments. *)
Lemma rotateMap_assignments (st : SimpleTrackUp.State) (c : nat) :
  SimpleTrackUp.trackUpEnabled st = true ->
  SimpleTrackUp.leafletMap st = Some (Some c) ->
  SimpleTrackUp.document (SimpleTrackUp.rotateMap st)
  = assignAll
      (simpleRotateAssignments (SimpleTrackUp.currentHeading st) c
         (SimpleTrackUp.document st))
      (SimpleTrackUp.document st).
Proof.
  intros Hm Hl. unfold SimpleTrackUp.rotateMap. rewrite Hl, Hm.
  cbn [negb SimpleTrackUp.document SimpleTrackUp.setDocument].
  set (d := SimpleTrackUp.document st). set (h := SimpleTrackUp.currentHeading st).
  unfold simpleRotateAssignments. rewrite assignAll_app.
  set (d1 := assignAll [_; _; _; _] d).
  assert (Hs1 : shapes d1 = shapes d) by apply shapes_assignAll.
  change (setStyle c "overflow" (Css_text "hidden")
            (setStyle c "transition" (Css_text "transform 0.5s ease-out")
               (setStyle c "transformOrigin" (Css_text "center center")
                  (setStyle c "transform"
                     (Css_rotate_scale (- h) SimpleTrackUp.scale) d))))
    with d1.
  rewrite (querySelectorAll_shapes d1 d _ Hs1).
  apply forEach_assignAll. reflexivity.
Qed.

(** X21.  In simple_track_up.js too the rotation does not depend on the
    rotation applied before: [rotateMap] at one heading and then at
    another gives the state of [rotateMap] at the other heading alone,
    and applying it twice at the same heading is applying it once. *)
Theorem X21_simple_rotation_does_not_accumulate
  (st : SimpleTrackUp.State) (h : R) :
  SimpleTrackUp.rotateMap
    (SimpleTrackUp.setCurrentHeading (SimpleTrackUp.rotateMap st) h)
  = SimpleTrackUp.rotateMap (SimpleTrackUp.setCurrentHeading st h)
  /\ SimpleTrackUp.rotateMap (SimpleTrackUp.rotateMap st)
     = SimpleTrackUp.rotateMap st.
Proof.
  assert (H : forall s k,
             SimpleTrackUp.rotateMap
               (SimpleTrackUp.setCurrentHeading (SimpleTrackUp.rotateMap s) k)
             = SimpleTrackUp.rotateMap (SimpleTrackUp.setCurrentHeading s k)).
  { intros s k.
    destruct (SimpleTrackUp.leafletMap s) as [[c |] |] eqn:Hl;
      destruct (SimpleTrackUp.trackUpEnabled s) eqn:Hm;
      try (assert (E0 : SimpleTrackUp.rotateMap s = s)
             by (unfold SimpleTrackUp.rotateMap; rewrite Hl, ?Hm; reflexivity);
           rewrite E0; reflexivity).
    set (s1 := SimpleTrackUp.rotateMap s).
    assert (Hs : shapes (SimpleTrackUp.document s1)
                 = shapes (SimpleTrackUp.document s))
      by apply shapes_rotateMap.
    assert (Hf : s1 = SimpleTrackUp.setDocument s (SimpleTrackUp.document s1))
      by apply rotateMap_frame.
    rewrite (rotateMap_frame (SimpleTrackUp.setCurrentHeading s1 k)).
    rewrite (rotateMap_frame (SimpleTrackUp.setCurrentHeading s k)).
    rewrite (rotateMap_assignments (SimpleTrackUp.setCurrentHeading s1 k) c).
    2:{ rewrite Hf. exact Hm. }
    2:{ rewrite Hf. exact Hl. }
    rewrite (rotateMap_assignments (SimpleTrackUp.setCurrentHeading s k) c)
      by assumption.
    cbn [SimpleTrackUp.document SimpleTrackUp.currentHeading
           SimpleTrackUp.setCurrentHeading].
    rewrite (simpleRotateAssignments_shapes k c (SimpleTrackUp.document s)
               (SimpleTrackUp.document s1) Hs).
    subst s1. rewrite (rotateMap_assignments s c Hm Hl).
    rewrite (assignAll_replaces _ _ _ (simpleRotateAssignments_parse k c _)
               (simpleRotateAssignments_targets _ k c _)).
    rewrite (rotateMap_frame s). reflexivity. }
  split; [apply H |].
  assert (E : forall s,
             SimpleTrackUp.setCurrentHeading s (SimpleTrackUp.currentHeading s) = s)
    by (intros []; reflexivity).
  pose proof (H st (SimpleTrackUp.currentHeading st)) as Hi.
  assert (E1 : SimpleTrackUp.setCurrentHeading (SimpleTrackUp.rotateMap st)
                 (SimpleTrackUp.currentHeading st)
               = SimpleTrackUp.rotateMap st).
  { transitivity
      (SimpleTrackUp.setCurrentHeading (SimpleTrackUp.rotateMap st)
         (SimpleTrackUp.currentHeading (SimpleTrackUp.rotateMap st)));
      [| apply E].
    f_equal. symmetry. apply currentHeading_rotateMap. }
  rewrite E1, (E st) in Hi. exact Hi.
Qed.

(** X22.  Resetting the rotation twice in a row is resetting it once,
    in both scripts, whatever the state: rotated or not, with or
    without a map. *)
Theorem X22_reset_twice_is_reset_once
  (t : TrackUpMode.State) (s : SimpleTrackUp.State) :
  TrackUpMode.resetMapRotation (TrackUpMode.resetMapRotation t)
  = TrackUpMode.resetMapRotation t
  /\ SimpleTrackUp.resetMapRotation (SimpleTrackUp.resetMapRotation s)
     = SimpleTrackUp.resetMapRotation s.
Proof.
  split; [apply resetMapRotation_idempotent | apply simple_resetMapRotation_idempotent].
Qed.

End SimpleRotateTwice.

Section TrackUpResetUpright.
Import JS DOM Geolocation TrackUpMode Spec.

(** X23.  On a page whose status element holds text only (no element
    has it as its parent, so that assigning its text removes no element
    from the page), switching Track Up off in track_up_mode.js brings
    the map container and every element of class [leaflet-control] or
    [leaflet-popup] to the identity transform, stops the timer and
    leaves the committed heading as it is. *)
Theorem X23_switch_off_resets_surface_and_controls
  (st : State) (c j : nat) (s : Selector) :
  leafletMap st = Some (Some c) ->
  (exists e, document st !! c = Some e) ->
  (forall i k, getElementById (document st) "track-up-status" = Some i ->
               parentElement (document st) k <> Some i) ->
  In s [cls "leaflet-control"; cls "leaflet-popup"] ->
  selected (document st) [s] j = true ->
  let st' := step st (ToggleChange false) in
  upright (document st') c
  /\ upright (document st') j
  /\ headingUpdateInterval st' = false
  /\ currentHeading st' = currentHeading st.
Proof.
  intros Hl Hc _ Hs Hsel. cbv zeta. cbn [step].
  split; [apply toggle_off_surface; assumption |].
  split.
  - rewrite onToggleChange_false.
    set (st1 := setHeadingUpdateInterval _ false).
    assert (Hd1 : shapes (document st1) = shapes (document st)).
    { subst st1. cbn [document setHeadingUpdateInterval setMapRotationEnabled].
      apply (shapes_updateTrackUpStatus "North Up" (setTrackUpMode st false)). }
    apply (resetMapRotation_controls st1 c j s); [| assumption |].
    + subst st1. cbn [leafletMap setHeadingUpdateInterval setMapRotationEnabled].
      rewrite updateTrackUpStatus_frame. exact Hl.
    + rewrite (selected_shapes _ (document st) _ j Hd1). exact Hsel.
  - split.
    + pose proof (f_equal snd (flags_step st (ToggleChange false))) as H.
      exact H.
    + pose proof (headingStateT_onToggleChange false st) as H.
      unfold headingStateT in H. injection H as H _ _. exact H.
Qed.

(** X23 on the example page, rotated at the heading 47. *)
Lemma X23_switch_off_resets_surface_and_controls_witness :
  let st' := step (updateMapRotation (Page.tracking 47)) (ToggleChange false) in
  upright (document st') Page.mapContainer
  /\ upright (document st') Page.zoomControl.
Proof.
  assert (Hsh : shapes (document (updateMapRotation (Page.tracking 47)))
                = shapes Page.page).
  { apply (shapes_updateMapRotation (Page.tracking 47)). }
  destruct (X23_switch_off_resets_surface_and_controls
              (updateMapRotation (Page.tracking 47))
              Page.mapContainer Page.zoomControl (cls "leaflet-control"))
    as (H1 & H2 & _).
  - rewrite updateMapRotation_frame. reflexivity.
  - apply (shapes_exists Page.page); [exact Hsh | eexists; reflexivity].
  - intros i k. rewrite (getElementById_shapes _ Page.page _ Hsh).
    rewrite (parentElement_shapes _ Page.page k Hsh).
    intros Hi. injection Hi as <-.
    do 9 (destruct k as [| k]; [discriminate |]). discriminate.
  - left. reflexivity.
  - rewrite (selected_shapes _ Page.page); [reflexivity | exact Hsh].
  - split; assumption.
Defined.
End TrackUpResetUpright.

(* ===================================================================== *)
(** ** js/track_up_mode.js: start-up, interface and clean-up              *)
(* ===================================================================== *)

Section LifecycleFacts.
Import JS DOM Geolocation Spec TrackUpLifecycle.

Lemma setScript_same (st : State) : setScript st (script st) = st.
Proof. destruct st; reflexivity. Qed.

(** [resetMapRotation] rotates nothing: an element whose transform is
    the identity keeps it. *)
Lemma upright_resetMapRotation (s : TrackUpMode.State) (j : nat) :
  upright (TrackUpMode.document s) j ->
  upright (TrackUpMode.document (TrackUpMode.resetMapRotation s)) j.
Proof.
  intros H. unfold TrackUpMode.resetMapRotation.
  destruct (TrackUpMode.leafletMap s) as [[c |] |]; try assumption.
  cbn [TrackUpMode.document TrackUpMode.setDocument].
  apply upright_updateUIElementsRotation.
  destruct (parentElement _ c);
    repeat (apply upright_setStyle; [first [intros ?; discriminate | reflexivity] |]);
    exact H.
Qed.

Lemma upright_updateTrackUpStatus (status : string) (s : TrackUpMode.State)
  (j : nat) :
  upright (TrackUpMode.document s) j ->
  upright (TrackUpMode.document (TrackUpMode.updateTrackUpStatus status s)) j.
Proof.
  unfold upright. rewrite updateTrackUpStatus_transform. tauto.
Qed.

(** The clean-up leaves of the script's variables all but the timer
    flag, and of the page all but inline styles. *)
Lemma cleanup_script (st : State) :
  script (cleanup st)
  = TrackUpMode.resetMapRotation
      (TrackUpMode.setHeadingUpdateInterval (script st) false).
Proof.
  unfold cleanup. cbv zeta. cbn [script setScript].
  assert (E : script match watchId st with
                     | Some w =>
                         {| script := script st; trackUpButton := trackUpButton st;
                            trackUpStatusElement := trackUpStatusElement st;
                            watchId := None; checked := checked st;
                            changeListener := changeListener st;
                            orientationListener := orientationListener st;
                            mapTimer := mapTimer st; loaded := loaded st;
                            geolocation := geolocation st;
                            deviceOrientationEvent := deviceOrientationEvent st;
                            watches :=
                              List.filter (fun v => negb (Nat.eqb v w)) (watches st);
                            nextWatchId := nextWatchId st |}
                     | None => st
                     end = script st).
  { destruct (watchId st); reflexivity. }
  rewrite E.
  destruct (TrackUpMode.headingUpdateInterval (script st)) eqn:Eh; [reflexivity |].
  rewrite (setHeadingUpdateInterval_same _ false Eh). reflexivity.
Qed.


(** What each event leaves of the script's state, by the kind of the
    event: the events of the start-up and [MapCreated] leave all but
    [window.leafletMap]. *)
Lemma checkMapReady_script (st : State) : script (checkMapReady st) = script st.
Proof.
  unfold checkMapReady, setupHeadingTracking, setupTrackUpControls.
  destruct (TrackUpMode.leafletMap (script st)); [| reflexivity].
  cbv zeta.
  destruct (querySelector _ _);
    [destruct (getElementById _ "track-up-toggle");
     [destruct (getElementById _ "track-up-status") |] |];
    cbn [geolocation]; destruct (negb (geolocation st)); reflexivity.
Qed.

(** X24.  When the page has no element of class
    [track-up-container-compact], no [track-up-toggle] or no
    [track-up-status], [setupTrackUpControls] registers nothing: Track
    Up then stays off whatever happens, the interface
    [window.TrackUpMode.toggle] included, and no element that was
    upright is ever rotated. *)
Theorem X24_without_controls_track_up_stays_off
  (geo orientation box : bool) (map : option (option nat)) (d : Document)
  (evs : list Event) :
  querySelector d [cls "track-up-container-compact"] = None
  \/ getElementById d "track-up-toggle" = None
  \/ getElementById d "track-up-status" = None ->
  let st := run evs (init geo orientation box map d) in
  isEnabled st = false
  /\ trackUpButton st = None
  /\ forall j, upright d j -> upright (TrackUpMode.document (script st)) j.
Proof.
  intros Hno. cbv zeta.
  set (Inv := fun st : State =>
                TrackUpMode.trackUpMode (script st) = false
                /\ TrackUpMode.headingUpdateInterval (script st) = false
                /\ changeListener st = false
                /\ trackUpButton st = None
                /\ shapes (TrackUpMode.document (script st)) = shapes d
                /\ forall j, upright d j ->
                             upright (TrackUpMode.document (script st)) j).
  assert (Hsetup : forall st, Inv st -> setupTrackUpControls st = st).
  { intros st (_ & _ & _ & _ & Hs & _). unfold setupTrackUpControls. cbv zeta.
    rewrite (querySelector_shapes _ d _ Hs).
    rewrite !(getElementById_shapes _ d _ Hs).
    destruct Hno as [-> | [-> | ->]]; [reflexivity | |];
      destruct (querySelector d _); try reflexivity.
    destruct (getElementById d "track-up-toggle"); reflexivity. }
  assert (Hcheck : forall st, Inv st ->
             Inv (checkMapReady st)).
  { intros st Hi. pose proof Hi as (H1 & H2 & H3 & H4 & H5 & H6).
    unfold checkMapReady.
    destruct (TrackUpMode.leafletMap (script st));
      [rewrite (Hsetup st Hi); unfold setupHeadingTracking;
       destruct (negb (geolocation st)) |];
      repeat split; assumption. }
  assert (Hstep : forall st ev, Inv st -> Inv (step st ev)).
  { intros st ev Hi. pose proof Hi as (H1 & H2 & H3 & H4 & H5 & H6).
    destruct ev as [| | g | | position now | | alpha | | | |]; cbn [step].
    - destruct (loaded st); [assumption |]. apply Hcheck.
      repeat split; assumption.
    - destruct (mapTimer st); [| assumption]. apply Hcheck.
      repeat split; assumption.
    - repeat split; assumption.
    - cbv zeta. cbn [changeListener setChecked]. rewrite H3.
      repeat split; assumption.
    - destruct (watches st); [assumption |]. unfold Inv. cbn [script setScript
        trackUpButton changeListener].
      rewrite mode_step.
      pose proof (f_equal snd
                    (flags_step (script st)
                       (TrackUpMode.PositionUpdate position now))) as Hf.
      cbn [snd] in Hf. rewrite Hf.
      rewrite (north_up_position_document position now (script st) H1).
      repeat split; assumption.
    - destruct (watches st); [assumption |]. unfold Inv. cbn [script setScript
        trackUpButton changeListener]. unfold TrackUpMode.errorCallback.
      rewrite trackUpMode_updateTrackUpStatus, shapes_updateTrackUpStatus.
      rewrite (updateTrackUpStatus_frame "GPS Error" (script st)) at 1.
      cbn [TrackUpMode.headingUpdateInterval TrackUpMode.setDocument].
      repeat split; try assumption.
      intros j Hj. apply upright_updateTrackUpStatus, H6, Hj.
    - destruct (orientationListener st); [| assumption].
      unfold TrackUpMode.onDeviceOrientation. rewrite H1.
      destruct alpha; cbn [andb]; rewrite setScript_same; assumption.
    - cbn [TrackUpMode.step]. rewrite H2, setScript_same. assumption.
    - unfold toggle. rewrite H4. assumption.
    - unfold Inv. rewrite cleanup_script.
      rewrite trackUpMode_resetMapRotation, shapes_resetMapRotation.
      rewrite (resetMapRotation_frame
                 (TrackUpMode.setHeadingUpdateInterval (script st) false)) at 1.
      cbn [TrackUpMode.headingUpdateInterval TrackUpMode.trackUpMode
             TrackUpMode.document TrackUpMode.setDocument
             TrackUpMode.setHeadingUpdateInterval].
      assert (Hk : changeListener (cleanup st) = false
                   /\ trackUpButton (cleanup st) = None).
      { unfold cleanup. cbv zeta. cbn [changeListener trackUpButton setScript].
        destruct (watchId st); split; assumption. }
      destruct Hk as [Hk1 Hk2].
      repeat split; try assumption.
      intros j Hj.
      apply (upright_resetMapRotation
               (TrackUpMode.setHeadingUpdateInterval (script st) false)).
      apply H6, Hj.
    - unfold Inv. rewrite cleanup_script.
      rewrite trackUpMode_resetMapRotation, shapes_resetMapRotation.
      rewrite (resetMapRotation_frame
                 (TrackUpMode.setHeadingUpdateInterval (script st) false)) at 1.
      cbn [TrackUpMode.headingUpdateInterval TrackUpMode.trackUpMode
             TrackUpMode.document TrackUpMode.setDocument
             TrackUpMode.setHeadingUpdateInterval].
      assert (Hk : changeListener (cleanup st) = false
                   /\ trackUpButton (cleanup st) = None).
      { unfold cleanup. cbv zeta. cbn [changeListener trackUpButton setScript].
        destruct (watchId st); split; assumption. }
      destruct Hk as [Hk1 Hk2].
      repeat split; try assumption.
      intros j Hj.
      apply (upright_resetMapRotation
               (TrackUpMode.setHeadingUpdateInterval (script st) false)).
      apply H6, Hj. }
  assert (Hrun : forall st, Inv st -> Inv (run evs st)).
  { unfold run. induction evs as [| ev evs' IH]; intros st Hi; [assumption |].
    cbn [fold_left]. apply IH, Hstep, Hi. }
  destruct (Hrun (init geo orientation box map d)) as (H1 & _ & _ & H4 & _ & H6).
  { unfold Inv. cbn [script init trackUpButton changeListener
                       TrackUpMode.init TrackUpMode.trackUpMode
                       TrackUpMode.headingUpdateInterval TrackUpMode.document].
    repeat split. intros j Hj. exact Hj. }
  repeat split; assumption.
Qed.

(** X24 on the example page, which has the status element but neither
    the container nor the toggle input. *)
Lemma X24_without_controls_track_up_stays_off_witness :
  isEnabled
    (run [DOMContentLoaded; Change; CallToggle]
       (init true true false (Some (Some Page.mapContainer)) Page.page))
  = false.
Proof.
  apply (X24_without_controls_track_up_stays_off true true false
           (Some (Some Page.mapContainer)) Page.page
           [DOMContentLoaded; Change; CallToggle]).
  left. reflexivity.
Defined.

End LifecycleFacts.

Section LifecycleTheorems.
Import JS DOM Geolocation Spec TrackUpLifecycle.

(** [setupTrackUpControls] changes the two element variables and the
    listener of the toggle, and nothing else. *)
Lemma setupTrackUpControls_frame (st : State) :
  script (setupTrackUpControls st) = script st
  /\ watchId (setupTrackUpControls st) = watchId st
  /\ geolocation (setupTrackUpControls st) = geolocation st
  /\ orientationListener (setupTrackUpControls st) = orientationListener st
  /\ watches (setupTrackUpControls st) = watches st.
Proof.
  unfold setupTrackUpControls. cbv zeta.
  destruct (querySelector _ _);
    [destruct (getElementById _ "track-up-toggle");
     [destruct (getElementById _ "track-up-status") |] |];
    repeat split.
Qed.

Lemma currentHeading_cleanup (st : State) :
  getCurrentHeading (cleanup st) = getCurrentHeading st.
Proof.
  unfold getCurrentHeading. rewrite cleanup_script.
  rewrite resetMapRotation_frame. reflexivity.
Qed.

Lemma currentHeading_script_step (s : TrackUpMode.State) (checked : bool) :
  TrackUpMode.currentHeading (TrackUpMode.onToggleChange checked s)
  = TrackUpMode.currentHeading s.
Proof.
  pose proof (headingStateT_onToggleChange checked s) as H.
  unfold headingStateT in H. injection H as H _ _. exact H.
Qed.

Lemma toggle_onToggleChange (st : State) :
  toggle st
  = match trackUpButton st with
    | Some _ =>
        setScript (setChecked st (negb (checked st)))
          (TrackUpMode.onToggleChange (negb (checked st)) (script st))
    | None => st
    end.
Proof. reflexivity. Qed.

(** X25.  On a platform without [navigator.geolocation] the script
    never registers a position watch, and the compass listener neither:
    the committed heading stays 0 whatever happens. *)
Theorem X25_without_geolocation_heading_stays_zero
  (orientation box : bool) (map : option (option nat)) (d : Document)
  (evs : list Event) :
  let st := run evs (init false orientation box map d) in
  getCurrentHeading st = 0
  /\ watches st = []
  /\ watchId st = None
  /\ orientationListener st = false.
Proof.
  cbv zeta.
  set (Inv := fun st : State =>
                geolocation st = false /\ watches st = [] /\ watchId st = None
                /\ orientationListener st = false /\ getCurrentHeading st = 0).
  assert (Hcheck : forall st, Inv st -> Inv (checkMapReady st)).
  { intros st (H1 & H2 & H3 & H4 & H5). unfold checkMapReady.
    destruct (TrackUpMode.leafletMap (script st)).
    - destruct (setupTrackUpControls_frame st) as (F1 & F2 & F3 & F4 & F5).
      unfold setupHeadingTracking. rewrite F3, H1. cbn [negb].
      unfold Inv, getCurrentHeading. rewrite F1, F2, F3, F4, F5.
      repeat split; assumption.
    - repeat split; assumption. }
  assert (Hstep : forall st ev, Inv st -> Inv (step st ev)).
  { intros st ev Hi. pose proof Hi as (H1 & H2 & H3 & H4 & H5).
    unfold getCurrentHeading in H5.
    destruct ev as [| | g | | position now | | alpha | | | |]; cbn [step].
    - destruct (loaded st); [assumption |]. apply Hcheck.
      repeat split; assumption.
    - destruct (mapTimer st); [| assumption]. apply Hcheck.
      repeat split; assumption.
    - repeat split; assumption.
    - cbv zeta. destruct (changeListener _); [| repeat split; assumption].
      unfold Inv, getCurrentHeading.
      cbn [script setScript setChecked geolocation watches watchId
             orientationListener checked].
      rewrite currentHeading_script_step. repeat split; assumption.
    - rewrite H2. assumption.
    - rewrite H2. assumption.
    - rewrite H4. assumption.
    - unfold Inv, getCurrentHeading.
      cbn [script setScript geolocation watches watchId orientationListener
             TrackUpMode.step].
      destruct (TrackUpMode.headingUpdateInterval (script st));
        [| repeat split; assumption].
      pose proof (headingStateT_onInterval (script st)) as H.
      unfold headingStateT in H. injection H as H _ _. rewrite H.
      repeat split; assumption.
    - rewrite toggle_onToggleChange. destruct (trackUpButton st); [| assumption].
      unfold Inv, getCurrentHeading.
      cbn [script setScript setChecked geolocation watches watchId
             orientationListener checked].
      rewrite (currentHeading_script_step (script st)).
      repeat split; assumption.
    - unfold Inv. rewrite currentHeading_cleanup.
      unfold cleanup. cbv zeta.
      cbn [setScript geolocation watches watchId orientationListener].
      rewrite H3. repeat split; assumption.
    - unfold Inv. rewrite currentHeading_cleanup.
      unfold cleanup. cbv zeta.
      cbn [setScript geolocation watches watchId orientationListener].
      rewrite H3. repeat split; assumption. }
  assert (Hrun : forall st, Inv st -> Inv (run evs st)).
  { unfold run. induction evs as [| ev evs' IH]; intros st Hi; [assumption |].
    cbn [fold_left]. apply IH, Hstep, Hi. }
  destruct (Hrun (init false orientation box map d)) as (_ & H2 & H3 & H4 & H5).
  { repeat split. }
  repeat split; assumption.
Qed.

(** X26.  [cleanup] cancels the position watch and the timer and resets
    the rotation: the script is left as [resetMapRotation] leaves it
    with the timer cleared, so the map container and every element of
    class [leaflet-control] or [leaflet-popup] are at the identity
    transform; a second call changes nothing more.  But it leaves the
    mode, the committed heading and the status text as they are: after
    it [isEnabled] still reports what it did before. *)
Theorem X26_cleanup_stops_watch_timer_rotation_keeps_mode (st : State) :
  let st' := step st CallCleanup in
  watchId st' = None
  /\ (forall w, watchId st = Some w -> ~ In w (watches st'))
  /\ TrackUpMode.headingUpdateInterval (script st') = false
  /\ script st'
     = TrackUpMode.resetMapRotation
         (TrackUpMode.setHeadingUpdateInterval (script st) false)
  /\ (forall c, TrackUpMode.leafletMap (script st) = Some (Some c) ->
                (exists e, TrackUpMode.document (script st) !! c = Some e) ->
                upright (TrackUpMode.document (script st')) c
                /\ forall j s,
                     In s [cls "leaflet-control"; cls "leaflet-popup"] ->
                     selected (TrackUpMode.document (script st)) [s] j = true ->
                     upright (TrackUpMode.document (script st')) j)
  /\ isEnabled st' = isEnabled st
  /\ getCurrentHeading st' = getCurrentHeading st
  /\ (forall j, textOf (TrackUpMode.document (script st')) j
                = textOf (TrackUpMode.document (script st)) j)
  /\ step st' CallCleanup = st'.
Proof.
  cbv zeta. cbn [step].
  assert (Hw : watchId (cleanup st) = None).
  { unfold cleanup. cbv zeta. cbn [watchId setScript].
    destruct (watchId st) eqn:E; [reflexivity | exact E]. }
  assert (Hi : TrackUpMode.headingUpdateInterval (script (cleanup st)) = false).
  { rewrite cleanup_script, resetMapRotation_frame. reflexivity. }
  split; [exact Hw |]. split.
  { intros w E Hin. unfold cleanup in Hin. cbv zeta in Hin.
    cbn [watches setScript] in Hin. rewrite E in Hin. cbn [watches] in Hin.
    apply filter_In in Hin. destruct Hin as [_ Hin].
    rewrite Nat.eqb_refl in Hin. discriminate. }
  split; [exact Hi |].
  split; [apply cleanup_script |]. split.
  { intros c Hl Hc. rewrite cleanup_script. split.
    - apply (resetMapRotation_surface
               (TrackUpMode.setHeadingUpdateInterval (script st) false) c);
        assumption.
    - intros j s Hs Hsel.
      apply (resetMapRotation_controls
               (TrackUpMode.setHeadingUpdateInterval (script st) false) c j s);
        assumption. }
  split.
  { unfold isEnabled. rewrite cleanup_script, trackUpMode_resetMapRotation.
    reflexivity. }
  split; [apply currentHeading_cleanup |]. split.
  { intros j. rewrite cleanup_script.
    apply (resetMapRotation_writes
             (fun d => textOf d j = textOf (TrackUpMode.document (script st)) j)).
    - intros i p v d _ H. rewrite textOf_setStyle. exact H.
    - reflexivity. }
  unfold cleanup at 1. cbv zeta. rewrite Hw, Hi.
  rewrite cleanup_script at 1.
  rewrite resetMapRotation_idempotent, <- cleanup_script.
  apply setScript_same.
Qed.
(** X26 on the example page, rotated at the heading 47: after the
    clean-up the map container and the zoom control are upright, and
    [isEnabled] still answers [true]. *)
Lemma X26_cleanup_stops_watch_timer_rotation_keeps_mode_witness :
  let st :=
    setScript (init true true true (Some (Some Page.mapContainer)) Page.page)
      (TrackUpMode.updateMapRotation (Page.tracking 47)) in
  upright (TrackUpMode.document (script (step st CallCleanup))) Page.mapContainer
  /\ upright (TrackUpMode.document (script (step st CallCleanup))) Page.zoomControl
  /\ isEnabled (step st CallCleanup) = true.
Proof.
  cbv zeta.
  set (st := setScript _ _).
  assert (Hsh : shapes (TrackUpMode.document (script st)) = shapes Page.page).
  { apply (shapes_updateMapRotation (Page.tracking 47)). }
  destruct (X26_cleanup_stops_watch_timer_rotation_keeps_mode st)
    as (_ & _ & _ & _ & Hup & Hen & _).
  destruct (Hup Page.mapContainer) as [Hc Hj].
  - subst st. cbn [script setScript]. rewrite updateMapRotation_frame. reflexivity.
  - apply (shapes_exists Page.page); [exact Hsh | eexists; reflexivity].
  - split; [exact Hc |]. split.
    + apply (Hj Page.zoomControl (cls "leaflet-control")); [left; reflexivity |].
      rewrite (selected_shapes _ Page.page); [reflexivity | exact Hsh].
    + rewrite Hen. subst st. unfold isEnabled. cbn [script setScript].
      apply trackUpMode_updateMapRotation.
Defined.
End LifecycleTheorems.

Section LifecycleInterface.
Import JS DOM Geolocation Spec TrackUpLifecycle.

(** The listener of the toggle is registered exactly when
    [trackUpButton] is set. *)
Lemma wired_run (geo orientation box : bool) (map : option (option nat))
  (d : Document) (evs : list Event) :
  let st := run evs (init geo orientation box map d) in
  changeListener st = match trackUpButton st with Some _ => true | None => false end.
Proof.
  cbv zeta.
  set (Inv := fun st : State =>
                changeListener st
                = match trackUpButton st with Some _ => true | None => false end).
  assert (Hcheck : forall st, Inv st -> Inv (checkMapReady st)).
  { intros st Hi. unfold checkMapReady.
    destruct (TrackUpMode.leafletMap (script st)); [| exact Hi].
    unfold setupHeadingTracking, setupTrackUpControls. cbv zeta.
    destruct (querySelector _ _);
      [destruct (getElementById _ "track-up-toggle");
       [destruct (getElementById _ "track-up-status") |] |];
      cbn [geolocation]; destruct (negb (geolocation st));
      first [exact Hi | reflexivity]. }
  assert (Hstep : forall st ev, Inv st -> Inv (step st ev)).
  { intros st ev Hi.
    destruct ev as [| | g | | position now | | alpha | | | |]; cbn [step].
    - destruct (loaded st); [assumption |]. apply Hcheck. exact Hi.
    - destruct (mapTimer st); [| assumption]. apply Hcheck. exact Hi.
    - exact Hi.
    - cbv zeta. destruct (changeListener _); exact Hi.
    - destruct (watches st); exact Hi.
    - destruct (watches st); exact Hi.
    - destruct (orientationListener st); exact Hi.
    - exact Hi.
    - rewrite toggle_onToggleChange. unfold Inv in *.
      destruct (trackUpButton st) eqn:E; [| rewrite E; exact Hi].
      cbn [changeListener trackUpButton setScript setChecked]. rewrite E. exact Hi.
    - unfold cleanup, Inv in *. cbv zeta.
      cbn [changeListener trackUpButton setScript]. destruct (watchId st); exact Hi.
    - unfold cleanup, Inv in *. cbv zeta.
      cbn [changeListener trackUpButton setScript]. destruct (watchId st); exact Hi. }
  assert (Hrun : forall st, Inv st -> Inv (run evs st)).
  { unfold run. induction evs as [| ev evs' IH]; intros st Hi; [assumption |].
    cbn [fold_left]. apply IH, Hstep, Hi. }
  apply Hrun. reflexivity.
Qed.

(** X27.  Once the controls are wired, [window.TrackUpMode.toggle()]
    does what a click on the toggle input does, and after either the
    mode is the state of the box. *)
Theorem X27_interface_toggle_is_a_click
  (geo orientation box : bool) (map : option (option nat)) (d : Document)
  (evs : list Event) :
  let st := run evs (init geo orientation box map d) in
  trackUpButton st <> None ->
  step st CallToggle = step st Change
  /\ isEnabled (step st Change) = checked (step st Change).
Proof.
  cbv zeta. intros Hb.
  pose proof (wired_run geo orientation box map d evs) as Hw. cbv zeta in Hw.
  set (st := run evs (init geo orientation box map d)) in *.
  cbn [step]. rewrite toggle_onToggleChange. cbv zeta.
  cbn [changeListener setChecked checked script].
  destruct (trackUpButton st); [| contradiction]. rewrite Hw.
  split; [reflexivity |].
  unfold isEnabled. cbn [script setScript checked setChecked].
  apply trackUpMode_onToggleChange.
Qed.

(** X27 on the example page with the controls, after the start-up. *)
Lemma X27_interface_toggle_is_a_click_witness :
  let st :=
    run [DOMContentLoaded]
      (init true true false (Some (Some Page.mapContainer)) ControlsPage.page) in
  trackUpButton st = Some ControlsPage.toggleInput
  /\ step st CallToggle = step st Change
  /\ isEnabled (step st Change) = true.
Proof.
  cbv zeta. split; [reflexivity |].
  destruct (X27_interface_toggle_is_a_click true true false
              (Some (Some Page.mapContainer)) ControlsPage.page [DOMContentLoaded])
    as [H1 H2]; [discriminate |].
  split; [exact H1 |]. rewrite H2. reflexivity.
Defined.

End LifecycleInterface.

Section LifecycleTimer.
Import JS DOM Geolocation Spec TrackUpLifecycle.

Lemma switches_step (s : TrackUpMode.State) (ev : TrackUpMode.Event) :
  switches (TrackUpMode.step s ev)
  = match ev with
    | TrackUpMode.ToggleChange checked => (checked, checked, checked)
    | _ => switches s
    end.
Proof.
  unfold switches.
  pose proof (f_equal fst (flags_step s ev)) as F1.
  pose proof (f_equal snd (flags_step s ev)) as F2.
  cbn [fst snd] in F1, F2. rewrite F1, F2, mode_step.
  destruct ev; reflexivity.
Qed.

(** What one event of the page does to the switches: nothing, or a
    switch of the toggle sets all three to the state of the box, or the
    clean-up clears the timer alone. *)
Lemma switches_lifecycle_step (st : State) (ev : Event) :
  switches (script (step st ev)) = switches (script st)
  \/ (exists b, switches (script (step st ev)) = (b, b, b))
  \/ ((ev = CallCleanup \/ ev = BeforeUnload)
      /\ switches (script (step st ev))
         = (TrackUpMode.mapRotationEnabled (script st), false,
            TrackUpMode.trackUpMode (script st))).
Proof.
  assert (Hclean : switches (script (cleanup st))
                   = (TrackUpMode.mapRotationEnabled (script st), false,
                      TrackUpMode.trackUpMode (script st))).
  { rewrite cleanup_script. unfold switches.
    rewrite resetMapRotation_frame. reflexivity. }
  destruct ev as [| | g | | position now | | alpha | | | |]; cbn [step].
  - left. destruct (loaded st); [reflexivity |].
    rewrite checkMapReady_script. reflexivity.
  - left. destruct (mapTimer st); [| reflexivity].
    rewrite checkMapReady_script. reflexivity.
  - left. reflexivity.
  - cbv zeta. cbn [changeListener setChecked checked script].
    destruct (changeListener st); [| left; reflexivity].
    right. left. exists (negb (checked st)). cbn [script setScript].
    apply (switches_step (script st) (TrackUpMode.ToggleChange (negb (checked st)))).
  - left. destruct (watches st); [reflexivity |]. cbn [script setScript].
    apply (switches_step (script st) (TrackUpMode.PositionUpdate position now)).
  - left. destruct (watches st); [reflexivity |]. cbn [script setScript].
    apply (switches_step (script st) TrackUpMode.PositionError).
  - left. destruct (orientationListener st); [| reflexivity]. cbn [script setScript].
    apply (switches_step (script st) (TrackUpMode.DeviceOrientation alpha)).
  - left. cbn [script setScript].
    apply (switches_step (script st) TrackUpMode.IntervalTick).
  - rewrite toggle_onToggleChange.
    destruct (trackUpButton st); [| left; reflexivity].
    right. left. exists (negb (checked st)). cbn [script setScript].
    apply (switches_step (script st) (TrackUpMode.ToggleChange (negb (checked st)))).
  - right. right. split; [left; reflexivity | exact Hclean].
  - right. right. split; [right; reflexivity | exact Hclean].
Qed.

(** The timer is set only while Track Up is on, and
    [mapRotationEnabled] follows the mode: no event breaks that. *)
Lemma timer_only_in_track_up_run (evs : list Event) (st : State) :
  TrackUpMode.mapRotationEnabled (script st) = TrackUpMode.trackUpMode (script st)
  /\ (TrackUpMode.headingUpdateInterval (script st) = true ->
      TrackUpMode.trackUpMode (script st) = true) ->
  TrackUpMode.mapRotationEnabled (script (run evs st))
  = TrackUpMode.trackUpMode (script (run evs st))
  /\ (TrackUpMode.headingUpdateInterval (script (run evs st)) = true ->
      TrackUpMode.trackUpMode (script (run evs st)) = true).
Proof.
  unfold run. revert st. induction evs as [| ev evs IH]; intros st Hi; [assumption |].
  cbn [fold_left]. apply IH. destruct Hi as [H1 H2].
  destruct (switches_lifecycle_step st ev) as [E | [[b E] | [_ E]]];
    unfold switches in E; injection E as -> -> ->.
  - split; assumption.
  - split; [reflexivity | tauto].
  - split; [assumption | discriminate].
Qed.

(** Without a clean-up the timer is set exactly while Track Up is on. *)
Lemma timer_follows_track_up_run (evs : list Event) (st : State) :
  Forall (fun ev => ev <> CallCleanup /\ ev <> BeforeUnload) evs ->
  TrackUpMode.headingUpdateInterval (script st) = TrackUpMode.trackUpMode (script st) ->
  TrackUpMode.headingUpdateInterval (script (run evs st))
  = TrackUpMode.trackUpMode (script (run evs st)).
Proof.
  unfold run. revert st. induction evs as [| ev evs IH]; intros st Hf Hi; [assumption |].
  cbn [fold_left]. inversion Hf as [| ? ? [Hn1 Hn2] Hf']; subst.
  apply IH; [exact Hf' |].
  destruct (switches_lifecycle_step st ev) as [E | [[b E] | [[He | He] _]]];
    try contradiction; unfold switches in E; injection E as _ -> ->.
  - assumption.
  - reflexivity.
Qed.

(** X9.  After any events from the start of track_up_mode.js, the
    clean-up and the interface included, [mapRotationEnabled] equals
    [trackUpMode] and the one-second timer is set only while Track Up
    is on; as long as the clean-up has not run, the timer is set
    exactly while Track Up is on. *)
Theorem X9_timer_is_set_only_in_track_up
  (geo orientation box : bool) (map : option (option nat)) (d : Document)
  (evs : list Event) :
  let s := script (run evs (init geo orientation box map d)) in
  TrackUpMode.mapRotationEnabled s = TrackUpMode.trackUpMode s
  /\ (TrackUpMode.headingUpdateInterval s = true -> TrackUpMode.trackUpMode s = true)
  /\ (Forall (fun ev => ev <> CallCleanup /\ ev <> BeforeUnload) evs ->
      TrackUpMode.headingUpdateInterval s = TrackUpMode.trackUpMode s).
Proof.
  cbv zeta.
  destruct (timer_only_in_track_up_run evs (init geo orientation box map d))
    as [H1 H2].
  { split; [reflexivity | discriminate]. }
  split; [exact H1 |]. split; [exact H2 |].
  intros Hf. apply timer_follows_track_up_run; [exact Hf | reflexivity].
Qed.

(** X9 on the example page with the controls: after the start-up and a
    click on the toggle the timer is set and Track Up is on. *)
Lemma X9_timer_is_set_only_in_track_up_witness :
  let s :=
    script
      (run [DOMContentLoaded; Change; IntervalTick]
         (init true true false (Some (Some Page.mapContainer)) ControlsPage.page)) in
  TrackUpMode.headingUpdateInterval s = true
  /\ TrackUpMode.mapRotationEnabled s = true.
Proof.
  cbv zeta.
  destruct (X9_timer_is_set_only_in_track_up true true false
              (Some (Some Page.mapContainer)) ControlsPage.page
              [DOMContentLoaded; Change; IntervalTick])
    as (H1 & _ & H3).
  rewrite H1, H3.
  - split; reflexivity.
  - repeat (apply List.Forall_cons; [split; discriminate |]).
    apply List.Forall_nil.
Defined.

End LifecycleTimer.

(* ===================================================================== *)
(** ** The direct location system                                         *)
(* ===================================================================== *)

Section DirectGPSFacts.
Import JS DirectGPS.

Lemma tracking_step (st : State) (ev : Event) :
  isTrackingLocation st
  = match currentUserPosition st with Some _ => true | None => false end ->
  isTrackingLocation (step st ev)
  = match currentUserPosition (step st ev) with Some _ => true | None => false end.
Proof.
  intros H. destruct ev as [| position | message | |]; cbn [step].
  - unfold trackUserLocation. destruct (geolocation st); exact H.
  - destruct (requests st); [exact H | reflexivity].
  - destruct (requests st); exact H.
  - destruct (markerTimers st); exact H.
  - destruct (refreshTimers st); exact H.
Qed.

Lemma tracked_step (st : State) (ev : Event) :
  isUserLocationTracked st = true -> isUserLocationTracked (step st ev) = true.
Proof.
  unfold isUserLocationTracked. intros H.
  destruct ev as [| position | message | |]; cbn [step].
  - unfold trackUserLocation. destruct (geolocation st); exact H.
  - destruct (requests st); [exact H | reflexivity].
  - destruct (requests st); exact H.
  - destruct (markerTimers st); exact H.
  - destruct (refreshTimers st); exact H.
Qed.

(** X28.  In the direct location system the location counts as tracked
    from the first position fix on and for good: after any events
    [isTrackingLocation] is set exactly when a position is stored, no
    event takes either back, a fix is what [getCurrentUserPosition]
    returns from then on, and an error changes neither. *)
Theorem X28_tracked_from_the_first_fix_on
  (geo : bool) (btn : option Button) (evs : list Event) :
  let st := run evs (init geo btn) in
  isUserLocationTracked st
  = match getCurrentUserPosition st with Some _ => true | None => false end
  /\ (forall ev, isUserLocationTracked st = true ->
                 isUserLocationTracked (step st ev) = true)
  /\ (forall position n, requests st = S n ->
        getCurrentUserPosition (step st (Success position))
        = Some {| lat := latitude position; lng := longitude position;
                  up_accuracy := accuracy position |}
        /\ isUserLocationTracked (step st (Success position)) = true)
  /\ (forall message,
        getCurrentUserPosition (step st (Failure message))
        = getCurrentUserPosition st
        /\ isUserLocationTracked (step st (Failure message))
           = isUserLocationTracked st).
Proof.
  cbv zeta.
  assert (Hinv : forall st,
             isTrackingLocation st
             = match currentUserPosition st with Some _ => true | None => false end ->
             isTrackingLocation (run evs st)
             = match currentUserPosition (run evs st) with
               | Some _ => true
               | None => false
               end).
  { unfold run. induction evs as [| ev evs' IH]; intros st H; [exact H |].
    cbn [fold_left]. apply IH, tracking_step, H. }
  specialize (Hinv (init geo btn) eq_refl).
  set (st := run evs (init geo btn)) in *.
  split; [| split; [| split]].
  - unfold isUserLocationTracked, getCurrentUserPosition. rewrite Hinv.
    destruct (currentUserPosition st); reflexivity.
  - intros ev. apply tracked_step.
  - intros position n Hn. cbn [step]. rewrite Hn. split; reflexivity.
  - intros message. cbn [step]. destruct (requests st); split; reflexivity.
Qed.

Lemma fresh_step (st : State) (ev : Event) : fresh st -> fresh (step st ev).
Proof.
  intros [Hl Hm]. destruct ev as [| position | message | |]; cbn [step].
  - unfold trackUserLocation, fresh.
    destruct (geolocation st); cbn [layers nextLayer userLocationMarker];
      (split; [| discriminate]); intros layer Hin;
      (destruct (userLocationMarker st);
       [apply filter_In in Hin; destruct Hin as [Hin _] |]); apply Hl, Hin.
  - destruct (requests st); split; assumption.
  - destruct (requests st); split; assumption.
  - destruct (markerTimers st) as [| p timers]; [split; assumption |].
    unfold onMarkerTimer, fresh. cbn [layers nextLayer userLocationMarker].
    split.
    + intros layer Hin. apply in_app_or in Hin. destruct Hin as [Hin | [<- | []]].
      * pose proof (Hl layer Hin). lia.
      * cbn [fst]. lia.
    + intros id H. injection H as <-. lia.
  - destruct (refreshTimers st); split; assumption.
Qed.

Lemma fresh_run (evs : list Event) (st : State) : fresh st -> fresh (run evs st).
Proof.
  unfold run. revert st.
  induction evs as [| ev evs' IH]; intros st H; [exact H |].
  cbn [fold_left]. apply IH, fresh_step, H.
Qed.

Lemma fresh_init (geo : bool) (btn : option Button) : fresh (init geo btn).
Proof. split; [intros layer [] | discriminate]. Qed.

(** A marker the script no longer refers to stays on the map over one
    event. *)
Lemma orphan_step (st : State) (ev : Event) (id : nat) (m : Marker) :
  fresh st -> In (id, m) (layers st) -> userLocationMarker st <> Some id ->
  In (id, m) (layers (step st ev)) /\ userLocationMarker (step st ev) <> Some id.
Proof.
  intros [Hl Hm] Hin Hne. destruct ev as [| position | message | |]; cbn [step].
  - unfold trackUserLocation.
    destruct (geolocation st); cbn [layers userLocationMarker];
      (split; [| discriminate]);
      (destruct (userLocationMarker st) as [k |]; [| exact Hin]);
      apply filter_In; (split; [exact Hin |]); cbn [fst];
      apply negb_true_iff, Nat.eqb_neq; congruence.
  - destruct (requests st); split; assumption.
  - destruct (requests st); split; assumption.
  - destruct (markerTimers st) as [| p timers]; [split; assumption |].
    unfold onMarkerTimer. cbn [layers userLocationMarker nextLayer]. split.
    + apply in_or_app. left. exact Hin.
    + intros H. injection H as H. pose proof (Hl (id, m) Hin) as Hlt.
      cbn [fst] in Hlt. lia.
  - destruct (refreshTimers st); split; assumption.
Qed.

(** X29.  The direct location system removes from the map only the
    marker [userLocationMarker] refers to: a marker on the map that it
    does not refer to stays there whatever happens.  Two calls of
    [trackUserLocation] answered before the first marker is drawn leave
    such a marker. *)
Theorem X29_unreferenced_marker_stays_on_the_map
  (geo : bool) (btn : option Button) (before after : list Event)
  (id : nat) (m : Marker) :
  let st := run before (init geo btn) in
  In (id, m) (layers st) -> userLocationMarker st <> Some id ->
  In (id, m) (layers (run after st)).
Proof.
  cbv zeta. intros Hin Hne.
  assert (Hf : fresh (run before (init geo btn))) by apply fresh_run, fresh_init.
  set (st := run before (init geo btn)) in *.
  assert (H : forall s, fresh s -> In (id, m) (layers s) ->
                        userLocationMarker s <> Some id ->
                        In (id, m) (layers (run after s))).
  { unfold run. induction after as [| ev evs' IH]; intros s H1 H2 H3; [exact H2 |].
    cbn [fold_left]. destruct (orphan_step s ev id m H1 H2 H3) as [H4 H5].
    apply IH; [apply fresh_step, H1 | exact H4 | exact H5]. }
  apply H; assumption.
Qed.

Lemma head_In {A : Type} (l : list A) (x : A) : head l = Some x -> In x l.
Proof. destruct l as [| a l]; [discriminate |]. intros H. injection H as ->. left. reflexivity. Qed.

(** Two calls answered at once: the second marker timer draws the
    marker the script refers to, the first has drawn one at (1, 2) that
    no variable refers to. *)
Lemma two_calls_answered_at_once :
  let st :=
    run [ TrackUserLocation;
          Success {| latitude := 1; longitude := 2; accuracy := 5 |};
          TrackUserLocation;
          Success {| latitude := 3; longitude := 4; accuracy := 5 |};
          MarkerTimer; MarkerTimer ] (init true None) in
  userLocationMarker st = Some 1%nat
  /\ exists m, head (layers st) = Some (0%nat, m) /\ latlng m = (1, 2).
Proof.
  cbv zeta. split; [reflexivity |]. eexists. split; reflexivity.
Qed.

(** X29 for these two calls: the marker at (1, 2) is still on the map
    after the next call has removed the second and drawn a third. *)
Lemma X29_unreferenced_marker_stays_on_the_map_witness :
  let first := {| latitude := 1; longitude := 2; accuracy := 5 |} in
  let second := {| latitude := 3; longitude := 4; accuracy := 5 |} in
  let st :=
    run [ TrackUserLocation; Success first; TrackUserLocation; Success second;
          MarkerTimer; MarkerTimer ] (init true None) in
  exists m,
    latlng m = (1, 2)
    /\ In (0%nat, m)
         (layers (run [TrackUserLocation; Success second; MarkerTimer] st)).
Proof.
  cbv zeta. destruct two_calls_answered_at_once as (Hu & m & Hh & Hl).
  exists m. split; [exact Hl |].
  apply (X29_unreferenced_marker_stays_on_the_map true None
           [ TrackUserLocation;
             Success {| latitude := 1; longitude := 2; accuracy := 5 |};
             TrackUserLocation;
             Success {| latitude := 3; longitude := 4; accuracy := 5 |};
             MarkerTimer; MarkerTimer ]).
  - apply head_In. exact Hh.
  - rewrite Hu. discriminate.
Defined.

(** X30.  The button of the direct location system is disabled only
    while a request for the position is not answered yet, and then it
    reads "Getting GPS..."; every answer, a position or an error, and a
    call on a platform without geolocation give it back. *)
Theorem X30_button_is_disabled_only_while_waiting
  (geo : bool) (btn : option Button) (evs : list Event) :
  (forall b, btn = Some b -> disabled b = false) ->
  let st := run evs (init geo btn) in
  (forall b, button st = Some b -> disabled b = true ->
             b = gettingGPS /\ (0 < requests st)%nat)
  /\ (forall n b position message,
        requests st = S n ->
        button (step st (Success position)) = Some b
        \/ button (step st (Failure message)) = Some b ->
        b = whereAmI).
Proof.
  intros Hb. cbv zeta. split.
  2:{ intros n b position message Hn. cbn [step]. rewrite Hn.
      cbn [onSuccess onError button].
      intros [H | H]; destruct (button (run evs (init geo btn)));
        cbn [setButton] in H; first [discriminate | injection H as <-];
        reflexivity. }
  set (Inv := fun st : State =>
                forall b, button st = Some b -> disabled b = true ->
                          b = gettingGPS /\ (0 < requests st)%nat).
  assert (Hset : forall current b, setButton whereAmI current = Some b ->
                                   disabled b = false).
  { intros [c |] b H; [injection H as <-; reflexivity | discriminate]. }
  assert (Hstep : forall st ev, Inv st -> Inv (step st ev)).
  { intros st ev Hi b. destruct ev as [| position | message | |]; cbn [step].
    - unfold trackUserLocation. destruct (geolocation st); cbn [button requests].
      + destruct (button st); cbn [setButton]; [| discriminate].
        intros H _. injection H as <-. split; [reflexivity | lia].
      + intros H Hd. rewrite (Hset _ b H) in Hd. discriminate.
    - destruct (requests st) eqn:E;
        [intros H Hd; destruct (Hi b H Hd); exfalso; lia |].
      cbn [onSuccess button]. intros H Hd. rewrite (Hset _ b H) in Hd.
      discriminate.
    - destruct (requests st) eqn:E;
        [intros H Hd; destruct (Hi b H Hd); exfalso; lia |].
      cbn [onError button]. intros H Hd. rewrite (Hset _ b H) in Hd.
      discriminate.
    - destruct (markerTimers st); apply Hi.
    - destruct (refreshTimers st); apply Hi. }
  assert (Hrun : forall st, Inv st -> Inv (run evs st)).
  { unfold run. induction evs as [| ev evs' IH]; intros st H; [exact H |].
    cbn [fold_left]. apply IH, Hstep, H. }
  apply Hrun. intros b H Hd. cbn [button init] in H.
  rewrite (Hb b H) in Hd. discriminate.
Qed.

(** X30 after one call: the button is disabled, so a request is
    outstanding. *)
Lemma X30_button_is_disabled_only_while_waiting_witness :
  let st := run [TrackUserLocation] (init true (Some whereAmI)) in
  button st = Some gettingGPS /\ (0 < requests st)%nat.
Proof.
  cbv zeta. split; [reflexivity |].
  destruct (X30_button_is_disabled_only_while_waiting true (Some whereAmI)
              [TrackUserLocation]) as [H _].
  - intros b H. injection H as <-. reflexivity.
  - apply (H gettingGPS); reflexivity.
Defined.

End DirectGPSFacts.
